(** * SPIFFS_ImageReader: a shallow embedding of the BMP loader

    The development follows [src/SPIFFS_ImageReader.h] and
    [src/SPIFFS_ImageReader.cpp]: the image handle [SPIFFS_Image]
    (constructor, [dealloc], [width], [height], [draw]) and the reader
    [SPIFFS_ImageReader] ([readLE16], [readLE32], [coreBMP], [loadBMP],
    [bmpDimensions]).

    Machine integers are values of [Z] with the conversions of the C++
    types written out.  Dereferencing a null canvas pointer and writing
    outside a canvas buffer are undefined behaviour in the source; the
    embedding makes them an explicit [Fault]. *)

From Stdlib Require Import ZArith Lia Bool String.
From Stdlib Require Import Strings.Byte.
From stdpp Require Import base list.

Local Open Scope Z_scope.

(** ** Constants of the header file *)

Definition NUM_CANVAS : Z := 12.
Definition CANVAS_HEIGHT : Z := 20.

(** [BUFPIXELS] of the non-AVR build; [sdbuf] holds [3 * BUFPIXELS] bytes. *)
Definition BUFPIXELS : Z := 200.
Definition SDBUF_SIZE : Z := 3 * BUFPIXELS.

(** ** Fixed-width integer conversions *)

Definition to_uint8 (z : Z) : Z := z mod 2 ^ 8.
Definition to_uint16 (z : Z) : Z := z mod 2 ^ 16.
Definition to_uint32 (z : Z) : Z := z mod 2 ^ 32.
Definition to_int16 (z : Z) : Z := (z + 2 ^ 15) mod 2 ^ 16 - 2 ^ 15.
Definition to_int32 (z : Z) : Z := (z + 2 ^ 31) mod 2 ^ 32 - 2 ^ 31.

Definition byte_to_Z (b : byte) : Z := Z.of_N (Byte.to_N b).

(** ** Enumerations of the header file *)

Inductive ImageReturnCode : Set :=
| IMAGE_SUCCESS
| IMAGE_ERR_FILE_NOT_FOUND
| IMAGE_ERR_FORMAT
| IMAGE_ERR_MALLOC.

Inductive ImageFormat : Set :=
| IMAGE_NONE
| IMAGE_16.

(** ** The pixel buffer [GFXcanvas16] *)

(** Modelled from the spec: the class [GFXcanvas16] of Adafruit_GFX is not
    part of the repository.  The spec's PixelBuffer is a fixed-width,
    bounded-height array of 16-bit colour values whose dimensions are fixed
    at allocation time; both dimensions are 16-bit values and the buffer
    holds [width * height] pixels. *)
Record GFXcanvas16 : Type := mkCanvas {
  c_width : Z;
  c_height : Z;
  c_buffer : list Z
}.

Definition new_GFXcanvas16 (w h : Z) : GFXcanvas16 :=
  let w' := to_uint16 w in
  let h' := to_uint16 h in
  mkCanvas w' h' (replicate (Z.to_nat (w' * h')) 0).

(** ** The image handle [SPIFFS_Image] *)

Record SPIFFS_Image : Type := mkImage {
  img_w : Z;                              (* uint16_t w *)
  img_h : Z;                              (* uint16_t h *)
  canvas : list (option GFXcanvas16);     (* GFXcanvas16 *canvas[NUM_CANVAS] *)
  format : ImageFormat
}.

(** The constructor sets [format] and clears the array; [w] and [h] are
    left uninitialised, so their values are arguments here. *)
Definition SPIFFS_Image_new (w0 h0 : Z) : SPIFFS_Image :=
  mkImage w0 h0 (replicate (Z.to_nat NUM_CANVAS) None) IMAGE_NONE.

(** The loop of [dealloc]: [n] iterations starting at index [i]. *)
Fixpoint dealloc_loop (n i : nat) (cs : list (option GFXcanvas16))
  : list (option GFXcanvas16) :=
  match n with
  | O => cs
  | S n' =>
      dealloc_loop n' (S i)
        (match cs !! i with
         | Some (Some _) => <[i := None]> cs
         | _ => cs
         end)
  end.

Definition dealloc (img : SPIFFS_Image) : SPIFFS_Image :=
  mkImage (img_w img) (img_h img)
          (dealloc_loop (Z.to_nat NUM_CANVAS) 0 (canvas img))
          IMAGE_NONE.

Definition width (img : SPIFFS_Image) : Z :=
  match format img with
  | IMAGE_16 => to_int16 (img_w img)
  | IMAGE_NONE => 0
  end.

Definition height (img : SPIFFS_Image) : Z :=
  match format img with
  | IMAGE_16 => to_int16 (img_h img)
  | IMAGE_NONE => 0
  end.

(** One call of the display sink's [drawRGBBitmap]. *)
Record blit : Type := mkBlit {
  b_x : Z;
  b_y : Z;
  b_pixels : list Z;
  b_w : Z;
  b_h : Z
}.

(** The loop of [draw] over the slots of the array; [y] is an [int16_t]. *)
Fixpoint draw_loop (cs : list (option GFXcanvas16)) (x y : Z) : list blit :=
  match cs with
  | [] => []
  | None :: cs' => draw_loop cs' x y
  | Some c :: cs' =>
      mkBlit x y (c_buffer c) (c_width c) (c_height c)
        :: draw_loop cs' x (to_int16 (y + CANVAS_HEIGHT))
  end.

Definition draw (img : SPIFFS_Image) (x y : Z) : list blit :=
  match format img with
  | IMAGE_16 => draw_loop (take (Z.to_nat NUM_CANVAS) (canvas img)) x y
  | IMAGE_NONE => []
  end.

(** ** The byte source *)

(** Modelled from the spec: the SPIFFS file object is an external
    collaborator.  The spec's Byte Source Adapter is a positioned, seekable,
    sequential-read byte stream with [open], [read(buf, n)], [readByte],
    [seek], [position] and [close].  A block read returns the bytes that
    are left and [seek] sets the position.  Reading past the end of the
    stream yields undefined or zero-filled values in the spec: a byte read
    there gives the zero-filled value 0 and leaves the position where it
    is. *)
Record File : Type := mkFile {
  f_data : list byte;
  f_pos : Z
}.

Definition FS : Type := string -> option (list byte).

Definition SPIFFS_open (fs : FS) (filename : string) : option File :=
  match fs filename with
  | Some data => Some (mkFile data 0)
  | None => None
  end.

Definition file_read (f : File) : Z * File :=
  match f_data f !! Z.to_nat (f_pos f) with
  | Some b => (byte_to_Z b, mkFile (f_data f) (f_pos f + 1))
  | None => (0, f)
  end.

Definition file_read_buf (f : File) (buf : list byte) (n : Z)
  : list byte * File :=
  let got := take (Z.to_nat n) (drop (Z.to_nat (f_pos f)) (f_data f)) in
  (got ++ drop (length got) buf,
   mkFile (f_data f) (f_pos f + Z.of_nat (length got))).

Definition file_seek (f : File) (pos : Z) : File := mkFile (f_data f) pos.

Definition file_position (f : File) : Z := f_pos f.

(** ** Little-endian readers *)

(** [file.read() | ((uint16_t)file.read() << 8)], operands read left to
    right, the result converted to [uint16_t]. *)
Definition readLE16 (f : File) : Z * File :=
  let '(b0, f) := file_read f in
  let '(b1, f) := file_read f in
  (to_uint16 (Z.lor b0 (Z.shiftl (to_uint16 b1) 8)), f).

Definition readLE32 (f : File) : Z * File :=
  let '(b0, f) := file_read f in
  let '(b1, f) := file_read f in
  let '(b2, f) := file_read f in
  let '(b3, f) := file_read f in
  (Z.lor (Z.lor (Z.lor (to_uint32 b0)
                       (to_uint32 (Z.shiftl (to_uint32 b1) 8)))
                (to_uint32 (Z.shiftl (to_uint32 b2) 16)))
         (to_uint32 (Z.shiftl (to_uint32 b3) 24)), f).

(** ** Header fields read by [coreBMP] *)

Record BmpHeaderInfo : Type := mkHeader {
  h_offset : Z;          (* uint32_t offset *)
  h_headerSize : Z;      (* uint32_t headerSize *)
  h_bmpWidth : Z;        (* int bmpWidth *)
  h_bmpHeight : Z;       (* int bmpHeight, after the sign test *)
  h_flip : bool;         (* boolean flip *)
  h_planes : Z;          (* uint8_t planes *)
  h_depth : Z;           (* uint8_t depth *)
  h_compression : Z;     (* uint32_t compression *)
  h_colors : Z           (* uint32_t colors *)
}.

(** The reads that follow a valid signature, up to the palette size. *)
Definition parse_header (f : File) : BmpHeaderInfo * File :=
  let '(_, f) := readLE32 f in               (* file size, ignored *)
  let '(_, f) := readLE32 f in               (* creator bytes, ignored *)
  let '(offset, f) := readLE32 f in
  let '(headerSize, f) := readLE32 f in
  let '(w, f) := readLE32 f in
  let '(h, f) := readLE32 f in
  let bmpWidth := to_int32 w in
  let bmpHeight := to_int32 h in
  let flip := negb (bmpHeight <? 0) in
  let bmpHeight := if bmpHeight <? 0 then to_int32 (- bmpHeight) else bmpHeight in
  let '(p, f) := readLE16 f in
  let '(d, f) := readLE16 f in
  let planes := to_uint8 p in
  let depth := to_uint8 d in
  let '(compression, colors, f) :=
    if 12 <? headerSize then
      let '(compression, f) := readLE32 f in
      let '(_, f) := readLE32 f in           (* raw bitmap data size *)
      let '(_, f) := readLE32 f in           (* horizontal resolution *)
      let '(_, f) := readLE32 f in           (* vertical resolution *)
      let '(colors, f) := readLE32 f in
      let '(_, f) := readLE32 f in           (* number of colours used *)
      (compression, colors, f)
    else (0, 0, f) in
  let colors := if colors =? 0 then to_uint32 (Z.shiftl 1 depth) else colors in
  (mkHeader offset headerSize bmpWidth bmpHeight flip planes depth
            compression colors, f).

(** [rowSize = ((depth * bmpWidth + 31) / 32) * 4], computed on [int]
    (the division truncates towards zero) and stored in a [uint32_t]. *)
Definition row_size (depth bmpWidth : Z) : Z :=
  to_uint32
    (to_int32 (Z.quot (to_int32 (to_int32 (depth * bmpWidth) + 31)) 32 * 4)).

(** ** Segment allocation *)

(** The allocation loop of [coreBMP]; [n] bounds the remaining values of
    [i] below [NUM_CANVAS], [alloc_ok i] tells whether the [i]-th [new]
    returns an object.  The result is the array and [allDestsCreated]. *)
Fixpoint alloc_loop (n i : nat) (alloc_ok : nat -> bool) (bmpWidth : Z)
    (remainingHeight : Z) (cs : list (option GFXcanvas16))
  : list (option GFXcanvas16) * bool :=
  match n with
  | O => (cs, true)
  | S n' =>
      if 0 <? remainingHeight then
        let canvasHeight :=
          if CANVAS_HEIGHT <? remainingHeight then CANVAS_HEIGHT
          else remainingHeight in
        let remainingHeight := to_uint16 (remainingHeight - CANVAS_HEIGHT) in
        if alloc_ok i then
          alloc_loop n' (S i) alloc_ok bmpWidth remainingHeight
            (<[i := Some (new_GFXcanvas16 bmpWidth canvasHeight)]> cs)
        else (<[i := None]> cs, false)
      else (cs, true)
  end.

(** ** The scanline loop *)

(** The locals of [coreBMP] that the pixel loop changes.  [d_cur] is the
    slot of the array that [currentCanvas] and [currentDest] point into;
    [d_rows] records the value of [bmpPos] of every scanline begun. *)
Record dstate : Type := mkState {
  d_file : File;
  d_sdbuf : list byte;     (* uint8_t sdbuf[3 * BUFPIXELS] *)
  d_srcidx : Z;            (* uint16_t srcidx *)
  d_destidx : Z;           (* uint32_t destidx *)
  d_cci : Z;               (* uint8_t currentCanvasIndex *)
  d_cur : nat;
  d_img : SPIFFS_Image;
  d_rows : list Z
}.

Definition sd_at (sdbuf : list byte) (i : Z) : Z :=
  byte_to_Z (default "000"%byte (sdbuf !! Z.to_nat i)).

(** [((r & 0xF8) << 8) | ((g & 0xFC) << 3) | (b >> 3)] stored in a
    [uint16_t]. *)
Definition color565 (r g b : Z) : Z :=
  to_uint16
    (Z.lor (Z.lor (Z.shiftl (Z.land r 0xF8) 8) (Z.shiftl (Z.land g 0xFC) 3))
           (Z.shiftr b 3)).

Definition set_canvas (img : SPIFFS_Image) (i : nat) (c : GFXcanvas16)
  : SPIFFS_Image :=
  mkImage (img_w img) (img_h img) (<[i := Some c]> (canvas img)) (format img).

(** The body of the loop over [col]. *)
Definition pixel_body (st : dstate) : option dstate :=
  let '(sdbuf, file, srcidx) :=
    if SDBUF_SIZE <=? d_srcidx st then
      let '(buf, f) := file_read_buf (d_file st) (d_sdbuf st) SDBUF_SIZE in
      (buf, f, 0)
    else (d_sdbuf st, d_file st, d_srcidx st) in
  let b := sd_at sdbuf srcidx in
  let g := sd_at sdbuf (srcidx + 1) in
  let r := sd_at sdbuf (srcidx + 2) in
  let srcidx := srcidx + 3 in
  match canvas (d_img st) !! d_cur st with
  | Some (Some c) =>
      if d_destidx st <? Z.of_nat (length (c_buffer c)) then
        let c' := mkCanvas (c_width c) (c_height c)
                    (<[Z.to_nat (d_destidx st) := color565 r g b]> (c_buffer c)) in
        let img := set_canvas (d_img st) (d_cur st) c' in
        let destidx := d_destidx st + 1 in
        if to_uint32 (c_width c' * c_height c') <=? destidx then
          let cci := to_uint8 (d_cci st + 1) in
          if cci <? NUM_CANVAS then
            match canvas img !! Z.to_nat cci with
            | Some (Some _) =>
                Some (mkState file sdbuf srcidx 0 cci (Z.to_nat cci) img
                              (d_rows st))
            | _ => None
            end
          else
            Some (mkState file sdbuf srcidx 0 cci (d_cur st) img (d_rows st))
        else
          Some (mkState file sdbuf srcidx destidx (d_cci st) (d_cur st) img
                        (d_rows st))
      else None
  | _ => None
  end.

Fixpoint pixel_loop (n : nat) (st : dstate) : option dstate :=
  match n with
  | O => Some st
  | S n' =>
      match pixel_body st with
      | Some st' => pixel_loop n' st'
      | None => None
      end
  end.

(** [bmpPos] of a scanline ([loadX = loadY = 0] when loading to RAM). *)
Definition row_pos (hd : BmpHeaderInfo) (rowSize row : Z) : Z :=
  let loadX := 0 in
  let loadY := 0 in
  let bmpPos :=
    if h_flip hd then
      to_uint32 (h_offset hd + (h_bmpHeight hd - 1 - (row + loadY)) * rowSize)
    else
      to_uint32 (h_offset hd + (row + loadY) * rowSize) in
  to_uint32 (bmpPos + loadX * 3).

(** The body of the loop over [row]: the seek, then the pixel loop. *)
Definition row_body (hd : BmpHeaderInfo) (rowSize row : Z) (st : dstate)
  : option dstate :=
  let bmpPos := row_pos hd rowSize row in
  let '(file, srcidx) :=
    if file_position (d_file st) =? bmpPos then (d_file st, d_srcidx st)
    else (file_seek (d_file st) bmpPos, SDBUF_SIZE) in
  pixel_loop (Z.to_nat (h_bmpWidth hd))
    (mkState file (d_sdbuf st) srcidx (d_destidx st) (d_cci st) (d_cur st)
             (d_img st) (d_rows st ++ [bmpPos])).

(** The loop over [row]; [n] counts the rows left below [loadHeight]. *)
Fixpoint row_loop (n : nat) (hd : BmpHeaderInfo) (rowSize row : Z)
    (st : dstate) : option dstate :=
  match n with
  | O => Some st
  | S n' =>
      if d_cci st <? NUM_CANVAS then
        match row_body hd rowSize row st with
        | Some st' => row_loop n' hd rowSize (row + 1) st'
        | None => None
        end
      else Some st
  end.

(** ** [coreBMP], [loadBMP] and [bmpDimensions] *)

Inductive outcome : Type :=
| Fault
| Done (status : ImageReturnCode) (img : SPIFFS_Image) (rows : list Z).

(** The uninitialised [sdbuf] holds whatever the stack holds. *)
Definition init_sdbuf (stack : list byte) : list byte :=
  take (Z.to_nat SDBUF_SIZE)
       (stack ++ replicate (Z.to_nat SDBUF_SIZE) "000"%byte).

(** The part of [coreBMP] that follows the header reads: the test of
    planes, compression and depth, the allocation and the scanline loop. *)
Definition core_decode (hd : BmpHeaderInfo) (f : File)
    (alloc_ok : nat -> bool) (stack : list byte) (img : SPIFFS_Image)
  : outcome :=
  if (h_planes hd =? 1) && (h_compression hd =? 0) then
    let rowSize := row_size (h_depth hd) (h_bmpWidth hd) in
    if h_depth hd =? 24 then
      let '(cs, allDestsCreated) :=
        alloc_loop (Z.to_nat NUM_CANVAS) 0 alloc_ok (h_bmpWidth hd)
                   (to_uint16 (h_bmpHeight hd)) (canvas img) in
      let img := mkImage (to_uint16 (h_bmpWidth hd))
                         (to_uint16 (h_bmpHeight hd)) cs (format img) in
      if allDestsCreated then
        match cs !! O with
        | Some (Some _) =>
            let img := mkImage (img_w img) (img_h img) cs IMAGE_16 in
            if 16 <=? h_depth hd then
              match row_loop (Z.to_nat (h_bmpHeight hd)) hd rowSize 0
                      (mkState f (init_sdbuf stack) SDBUF_SIZE 0 0 O
                               img []) with
              | Some st => Done IMAGE_SUCCESS (d_img st) (d_rows st)
              | None => Fault
              end
            else Done IMAGE_SUCCESS img []
        | _ => Fault
        end
      else Done IMAGE_ERR_MALLOC img []
    else Done IMAGE_ERR_FORMAT img []
  else Done IMAGE_ERR_FORMAT img [].

Definition coreBMP (fs : FS) (alloc_ok : nat -> bool) (stack : list byte)
    (filename : string) (img : SPIFFS_Image) : outcome :=
  let img := dealloc img in
  match SPIFFS_open fs filename with
  | None => Done IMAGE_ERR_FILE_NOT_FOUND img []
  | Some f =>
      let '(sig, f) := readLE16 f in
      if sig =? 0x4D42 then
        let '(hd, f) := parse_header f in
        core_decode hd f alloc_ok stack img
      else Done IMAGE_ERR_FORMAT img []
  end.

Definition loadBMP (fs : FS) (alloc_ok : nat -> bool) (stack : list byte)
    (filename : string) (img : SPIFFS_Image) : outcome :=
  coreBMP fs alloc_ok stack filename img.

(** [want_w] and [want_h] tell whether the [width] and [height] pointers
    are non-null; an output is [None] when nothing is stored through it. *)
Definition bmpDimensions (fs : FS) (filename : string) (want_w want_h : bool)
  : ImageReturnCode * option Z * option Z :=
  match SPIFFS_open fs filename with
  | None => (IMAGE_ERR_FILE_NOT_FOUND, None, None)
  | Some f =>
      let '(sig, f) := readLE16 f in
      if sig =? 0x4D42 then
        let '(_, f) := readLE32 f in         (* file size *)
        let '(_, f) := readLE32 f in         (* creator bytes *)
        let '(_, f) := readLE32 f in         (* position of image data *)
        let '(_, f) := readLE32 f in         (* header size *)
        let '(w, f) :=
          if want_w then
            let '(v, f) := readLE32 f in (Some (to_int32 v), f)
          else (None, f) in
        let '(h, f) :=
          if want_h then
            let '(v, f) := readLE32 f in
            let h := to_int32 v in
            (Some (if h <? 0 then to_int32 (- h) else h), f)
          else (None, f) in
        (IMAGE_SUCCESS, w, h)
      else (IMAGE_ERR_FORMAT, None, None)
  end.

(** ** Synthetic files *)

Definition byte_of_Z (z : Z) : byte :=
  default "000"%byte (Byte.of_N (Z.to_N (z mod 256))).

Fixpoint le_bytes (n : nat) (z : Z) : list byte :=
  match n with
  | O => []
  | S n' => byte_of_Z z :: le_bytes n' (z / 256)
  end.

(** A BMP file with a 40-byte DIB header and the given field values,
    followed by [pixels]. *)
Definition bmp_file (w h planes depth compression : Z) (pixels : list byte)
  : list byte :=
  le_bytes 2 0x4D42 ++ le_bytes 4 (54 + Z.of_nat (length pixels))
    ++ le_bytes 4 0 ++ le_bytes 4 54
    ++ le_bytes 4 40 ++ le_bytes 4 w ++ le_bytes 4 h
    ++ le_bytes 2 planes ++ le_bytes 2 depth ++ le_bytes 4 compression
    ++ le_bytes 4 (Z.of_nat (length pixels)) ++ le_bytes 4 2835
    ++ le_bytes 4 2835 ++ le_bytes 4 0 ++ le_bytes 4 0
    ++ pixels.

Definition one_file (name : string) (data : list byte) : FS :=
  fun n => if String.eqb n name then Some data else None.

(** ** Positional view of a file *)

(** The value the [k]-th call of [file.read()] returns on a file opened at
    its start: the byte at offset [k], or 0 past the end. *)
Definition byte_at (data : list byte) (k : Z) : Z :=
  match data !! Z.to_nat k with
  | Some b => byte_to_Z b
  | None => 0
  end.

Definition le16_at (data : list byte) (k : Z) : Z :=
  to_uint16 (Z.lor (byte_at data k)
                   (Z.shiftl (to_uint16 (byte_at data (k + 1))) 8)).

Definition le32_at (data : list byte) (k : Z) : Z :=
  Z.lor (Z.lor (Z.lor (to_uint32 (byte_at data k))
                      (to_uint32 (Z.shiftl (to_uint32 (byte_at data (k + 1))) 8)))
               (to_uint32 (Z.shiftl (to_uint32 (byte_at data (k + 2))) 16)))
        (to_uint32 (Z.shiftl (to_uint32 (byte_at data (k + 3))) 24)).

(** The file object after [k] calls of [file.read()]. *)
Definition file_at (data : list byte) (k : Z) : File :=
  mkFile data (Z.min k (Z.of_nat (length data))).

(** [h = -h] on a negative [int32_t]. *)
Definition abs32 (h : Z) : Z := if h <? 0 then to_int32 (- h) else h.

(** The fields of the file header by their offsets in the file. *)
Definition field_signature (data : list byte) : Z := le16_at data 0.
Definition field_offset (data : list byte) : Z := le32_at data 10.
Definition field_headerSize (data : list byte) : Z := le32_at data 14.
Definition field_width (data : list byte) : Z := to_int32 (le32_at data 18).
Definition field_height (data : list byte) : Z := to_int32 (le32_at data 22).
Definition field_planes (data : list byte) : Z := to_uint8 (le16_at data 26).
Definition field_depth (data : list byte) : Z := to_uint8 (le16_at data 28).
Definition field_compression (data : list byte) : Z :=
  if 12 <? field_headerSize data then le32_at data 30 else 0.
Definition field_colors (data : list byte) : Z :=
  let colors := if 12 <? field_headerSize data then le32_at data 46 else 0 in
  if colors =? 0 then to_uint32 (Z.shiftl 1 (field_depth data)) else colors.

Definition header_of (data : list byte) : BmpHeaderInfo :=
  mkHeader (field_offset data) (field_headerSize data) (field_width data)
           (abs32 (field_height data)) (negb (field_height data <? 0))
           (field_planes data) (field_depth data) (field_compression data)
           (field_colors data).

(** Number of header bytes consumed before the scanline loop. *)
Definition header_end (data : list byte) : Z :=
  if 12 <? field_headerSize data then 54 else 30.

(** ** Views used in the statements *)

(** The allocated segments of a handle, in slot order. *)
Definition segments (img : SPIFFS_Image) : list GFXcanvas16 :=
  omap id (take (Z.to_nat NUM_CANVAS) (canvas img)).

(** Width, height and pixel count of every slot. *)
Definition shape_of (oc : option GFXcanvas16) : option (Z * Z * nat) :=
  (fun c => (c_width c, c_height c, length (c_buffer c))) <$> oc.

Definition shapes (img : SPIFFS_Image) : list (option (Z * Z * nat)) :=
  shape_of <$> canvas img.

(** The heights the allocation loop asks for, one per iteration, when no
    allocation fails; [rem] is [remainingHeight] when the loop is entered. *)
Fixpoint seg_heights (n : nat) (rem : Z) : list Z :=
  match n with
  | O => []
  | S n' =>
      if 0 <? rem then
        (if CANVAS_HEIGHT <? rem then CANVAS_HEIGHT else rem)
          :: seg_heights n' (to_uint16 (rem - CANVAS_HEIGHT))
      else []
  end.

(** Storing canvases of width [W] and the given heights from slot [i] on. *)
Fixpoint put_canvases (i : nat) (W : Z) (hs : list Z)
    (cs : list (option GFXcanvas16)) : list (option GFXcanvas16) :=
  match hs with
  | [] => cs
  | h :: hs' =>
      put_canvases (S i) W hs' (<[i := Some (new_GFXcanvas16 W h)]> cs)
  end.

(** Status and handle of a call that returns. *)
Definition outcome_status (o : outcome) : option ImageReturnCode :=
  match o with
  | Fault => None
  | Done status _ _ => Some status
  end.

Definition outcome_image (o : outcome) : option SPIFFS_Image :=
  match o with
  | Fault => None
  | Done _ img _ => Some img
  end.

Definition outcome_rows (o : outcome) : option (list Z) :=
  match o with
  | Fault => None
  | Done _ _ rows => Some rows
  end.

(** Position and size of a blit. *)
Definition blit_frame (b : blit) : Z * Z * Z * Z :=
  (b_x b, b_y b, b_w b, b_h b).

(** Rows of all the segments of a handle, stacked. *)
Definition rows_spanned (img : SPIFFS_Image) : Z :=
  foldr (fun c acc => c_height c + acc) 0 (segments img).

(** [f 0 + ... + f (n - 1)]. *)
Fixpoint sum_upto (f : nat -> Z) (n : nat) : Z :=
  match n with
  | O => 0
  | S n' => sum_upto f n' + f n'
  end.

(** The state of a handle that holds nothing. *)
Definition handle_empty (img : SPIFFS_Image) : Prop :=
  format img = IMAGE_NONE
  /\ canvas img = replicate (Z.to_nat NUM_CANVAS) None
  /\ width img = 0 /\ height img = 0.

(** Number of leading slots that cover an image of [h] rows. *)
Definition leading_segments (h : Z) : Z :=
  Z.min ((h + CANVAS_HEIGHT - 1) / CANVAS_HEIGHT) NUM_CANVAS.

(** The leading slots of a loaded handle hold segments of the width of
    the image, full except possibly the last of them. *)
Definition handle_covers (img : SPIFFS_Image) : Prop :=
  forall i, 0 <= i < leading_segments (img_h img) ->
    exists c, canvas img !! Z.to_nat i = Some (Some c)
      /\ c_width c = img_w img
      /\ c_height c = Z.min CANVAS_HEIGHT (img_h img - i * CANVAS_HEIGHT)
      /\ Z.of_nat (length (c_buffer c)) = c_width c * c_height c.

(** ** Source and destination of a pixel *)

(** The 5-6-5 value of the pixel whose blue byte is at offset [p]. *)
Definition pix (data : list byte) (p : Z) : Z :=
  color565 (byte_at data (p + 2)) (byte_at data (p + 1)) (byte_at data p).

(** Offset in the file of the pixel of output row [row] and column [col]:
    rows are [rowSize] bytes apart, bottom-up when [flip] is set. *)
Definition src_offset (hd : BmpHeaderInfo) (row col : Z) : Z :=
  h_offset hd
  + (if h_flip hd then h_bmpHeight hd - 1 - row else row)
    * row_size (h_depth hd) (h_bmpWidth hd)
  + 3 * col.

(** The pixel of row [row] and column [col] of a loaded handle: row
    [row mod CANVAS_HEIGHT] of segment [row / CANVAS_HEIGHT]. *)
Definition pixel_at (img : SPIFFS_Image) (row col : Z) : option Z :=
  match canvas img !! Z.to_nat (row / CANVAS_HEIGHT) with
  | Some (Some c) =>
      c_buffer c !! Z.to_nat ((row mod CANVAS_HEIGHT) * c_width c + col)
  | _ => None
  end.

(** The scratch buffer, the file position and [srcidx] agree on [P], the
    offset in the file of the next byte the pixel loop consumes; [B] is
    the offset at which the scanline started. *)
Definition src_ok (data : list byte) (B P : Z) (sdbuf : list byte)
    (file : File) (srcidx : Z) : Prop :=
  f_data file = data
  /\ length sdbuf = Z.to_nat SDBUF_SIZE
  /\ 0 <= srcidx <= SDBUF_SIZE
  /\ srcidx mod 3 = 0
  /\ (P - srcidx - B) mod SDBUF_SIZE = 0
  /\ 0 <= P
  /\ f_pos file = Z.min (P + (SDBUF_SIZE - srcidx)) (Z.of_nat (length data))
  /\ forall j, 0 <= j -> srcidx + j < SDBUF_SIZE ->
       P + j < Z.of_nat (length data) ->
       sdbuf !! Z.to_nat (srcidx + j) = data !! Z.to_nat (P + j).

(** The refill test at the head of the pixel loop. *)
Definition refill (sdbuf : list byte) (file : File) (srcidx : Z)
  : list byte * File * Z :=
  if SDBUF_SIZE <=? srcidx then
    let '(buf, f) := file_read_buf file sdbuf SDBUF_SIZE in (buf, f, 0)
  else (sdbuf, file, srcidx).

(** Dimensions and format of the handle, shape of every slot, content of
    the file. *)
Definition same_frame (st st' : dstate) : Prop :=
  img_w (d_img st') = img_w (d_img st)
  /\ img_h (d_img st') = img_h (d_img st)
  /\ format (d_img st') = format (d_img st)
  /\ shapes (d_img st') = shapes (d_img st)
  /\ f_data (d_file st') = f_data (d_file st).

(** The state of the scanline loop before row [r], for a load that
    started in state [st0]: the rows above [r] hold their pixels, and
    [currentCanvasIndex], [destidx] and the scratch buffer stand where
    row [r] needs them. *)
Definition decode_inv (data : list byte) (hd : BmpHeaderInfo)
    (st0 : dstate) (r : Z) (st : dstate) : Prop :=
  same_frame st0 st
  /\ length (d_sdbuf st) = Z.to_nat SDBUF_SIZE
  /\ (forall r' col, 0 <= r' < r -> 0 <= col < h_bmpWidth hd ->
        pixel_at (d_img st) r' col = Some (pix data (src_offset hd r' col)))
  /\ (r < Z.min (h_bmpHeight hd) (NUM_CANVAS * CANVAS_HEIGHT) ->
        d_cci st = r / CANVAS_HEIGHT
        /\ d_cur st = Z.to_nat (r / CANVAS_HEIGHT)
        /\ d_destidx st = (r mod CANVAS_HEIGHT) * h_bmpWidth hd
        /\ (f_pos (d_file st) = src_offset hd r 0 ->
             d_srcidx st = SDBUF_SIZE))
  /\ (r = NUM_CANVAS * CANVAS_HEIGHT -> d_cci st = NUM_CANVAS).

(** The control state of the scanline loop before row [r], for a load
    that started in state [st0]: [currentCanvasIndex], the current slot
    and [destidx], whatever the scratch buffer and the file hold. *)
Definition control_inv (W : Z) (st0 : dstate) (r : Z) (st : dstate) : Prop :=
  same_frame st0 st
  /\ d_cci st = r / CANVAS_HEIGHT
  /\ d_cur st = Z.to_nat (r / CANVAS_HEIGHT)
  /\ d_destidx st = (r mod CANVAS_HEIGHT) * W.

(** The control state of the scanline loop before row [r] when every slot
    holds a segment. *)
Definition running_inv (hd : BmpHeaderInfo) (st0 : dstate) (r : Z)
    (st : dstate) : Prop :=
  same_frame st0 st
  /\ (r < Z.min (h_bmpHeight hd) (NUM_CANVAS * CANVAS_HEIGHT) ->
        d_cci st = r / CANVAS_HEIGHT
        /\ d_cur st = Z.to_nat (r / CANVAS_HEIGHT)
        /\ d_destidx st = (r mod CANVAS_HEIGHT) * h_bmpWidth hd)
  /\ (r = NUM_CANVAS * CANVAS_HEIGHT -> d_cci st = NUM_CANVAS).

(** The seek test at the head of the scanline loop: the file object and
    [srcidx] the pixel loop starts with. *)
Definition after_seek (hd : BmpHeaderInfo) (rowSize row : Z) (st : dstate)
  : File * Z :=
  let bmpPos := row_pos hd rowSize row in
  if file_position (d_file st) =? bmpPos then (d_file st, d_srcidx st)
  else (file_seek (d_file st) bmpPos, SDBUF_SIZE).

(** The state of the scanline loop before row [r] when no seek takes place
    after row 0: the rows above [r] hold the pixels of the file read as one
    unpadded run, and the scratch buffer stands at the end of that run. *)
Definition sheared_inv (data : list byte) (hd : BmpHeaderInfo)
    (st0 : dstate) (r : Z) (st : dstate) : Prop :=
  same_frame st0 st
  /\ (forall r' col, 0 <= r' < r -> 0 <= col < h_bmpWidth hd ->
        pixel_at (d_img st) r' col
        = Some (pix data (h_offset hd + 3 * (r' * h_bmpWidth hd + col))))
  /\ (r < h_bmpHeight hd ->
        d_cci st = r / CANVAS_HEIGHT
        /\ d_cur st = Z.to_nat (r / CANVAS_HEIGHT)
        /\ d_destidx st = (r mod CANVAS_HEIGHT) * h_bmpWidth hd
        /\ src_ok data (h_offset hd) (h_offset hd + 3 * (r * h_bmpWidth hd))
             (d_sdbuf st)
             (fst (after_seek hd (row_size 24 (h_bmpWidth hd)) r st))
             (snd (after_seek hd (row_size 24 (h_bmpWidth hd)) r st))).

(** What is left of [coreBMP] in the middle of a scanline: [pixels] more
    iterations of the pixel loop, then the scanline loop from row [row]
    on with [rows] rows left below [loadHeight], then the return of
    [status], which is [IMAGE_SUCCESS] from before the scanline loop. *)
Definition rest_of_call (hd : BmpHeaderInfo) (rowSize : Z) (pixels rows : nat)
    (row : Z) (st : dstate) : outcome :=
  match pixel_loop pixels st with
  | Some st1 =>
      match row_loop rows hd rowSize row st1 with
      | Some st2 => Done IMAGE_SUCCESS (d_img st2) (d_rows st2)
      | None => Fault
      end
  | None => Fault
  end.

(** ** [getFormat] and [printStatus] *)

Definition getFormat (img : SPIFFS_Image) : ImageFormat := format img.

(** The stream is the list of the lines printed so far; [println] adds
    one line. *)
Definition println (line : string) (stream : list string) : list string :=
  stream ++ [line].

Definition printStatus (stat : ImageReturnCode) (stream : list string)
  : list string :=
  match stat with
  | IMAGE_SUCCESS => println "Success!" stream
  | IMAGE_ERR_FILE_NOT_FOUND => println "File not found." stream
  | IMAGE_ERR_FORMAT => println "Not a supported BMP variant." stream
  | IMAGE_ERR_MALLOC => println "Malloc failed (insufficient RAM)." stream
  end.

(** * Properties *)

(** ** Integer conversions *)

Lemma to_uint16_range z : 0 <= to_uint16 z < 2 ^ 16.
Proof. unfold to_uint16. apply Z.mod_pos_bound. lia. Qed.

Lemma to_uint32_range z : 0 <= to_uint32 z < 2 ^ 32.
Proof. unfold to_uint32. apply Z.mod_pos_bound. lia. Qed.

Lemma to_uint8_range z : 0 <= to_uint8 z < 2 ^ 8.
Proof. unfold to_uint8. apply Z.mod_pos_bound. lia. Qed.

Lemma to_uint16_id z : 0 <= z < 2 ^ 16 -> to_uint16 z = z.
Proof. intros. unfold to_uint16. apply Z.mod_small. lia. Qed.

Lemma to_uint32_id z : 0 <= z < 2 ^ 32 -> to_uint32 z = z.
Proof. intros. unfold to_uint32. apply Z.mod_small. lia. Qed.

Lemma to_uint8_id z : 0 <= z < 2 ^ 8 -> to_uint8 z = z.
Proof. intros. unfold to_uint8. apply Z.mod_small. lia. Qed.

Lemma to_int16_id z : - 2 ^ 15 <= z < 2 ^ 15 -> to_int16 z = z.
Proof. intros. unfold to_int16. rewrite Z.mod_small; lia. Qed.

Lemma to_int32_id z : - 2 ^ 31 <= z < 2 ^ 31 -> to_int32 z = z.
Proof. intros. unfold to_int32. rewrite Z.mod_small; lia. Qed.

Lemma to_int16_range z : - 2 ^ 15 <= to_int16 z < 2 ^ 15.
Proof.
  unfold to_int16.
  pose proof (Z.mod_pos_bound (z + 2 ^ 15) (2 ^ 16)). lia.
Qed.

Lemma to_int32_range z : - 2 ^ 31 <= to_int32 z < 2 ^ 31.
Proof.
  unfold to_int32.
  pose proof (Z.mod_pos_bound (z + 2 ^ 31) (2 ^ 32)). lia.
Qed.

Lemma to_int16_add_l a b : to_int16 (to_int16 a + b) = to_int16 (a + b).
Proof.
  unfold to_int16. f_equal.
  replace ((a + 2 ^ 15) mod 2 ^ 16 - 2 ^ 15 + b + 2 ^ 15)
    with ((a + 2 ^ 15) mod 2 ^ 16 + b) by lia.
  rewrite Zplus_mod_idemp_l. f_equal. lia.
Qed.

Lemma to_int16_to_uint16 z : to_int16 (to_uint16 z) = to_int16 z.
Proof.
  unfold to_int16, to_uint16. f_equal.
  rewrite Zplus_mod_idemp_l. reflexivity.
Qed.

Lemma byte_to_Z_range b : 0 <= byte_to_Z b < 256.
Proof.
  unfold byte_to_Z. pose proof (Byte.to_N_bounded b). lia.
Qed.

(** ** The byte source, by position *)

Lemma file_read_at data k :
  0 <= k -> file_read (file_at data k) = (byte_at data k, file_at data (k + 1)).
Proof.
  intros Hk. unfold file_read, file_at, byte_at. cbn [f_data f_pos].
  destruct (Z_lt_le_dec k (Z.of_nat (length data))) as [Hlt | Hge].
  - rewrite (Z.min_l k) by lia.
    destruct (lookup_lt_is_Some_2 data (Z.to_nat k)) as [b Hb]; [lia |].
    rewrite Hb. f_equal. f_equal. lia.
  - rewrite (Z.min_r k) by lia. rewrite Nat2Z.id.
    rewrite (lookup_ge_None_2 data (length data)) by lia.
    rewrite (lookup_ge_None_2 data (Z.to_nat k)) by lia.
    f_equal. f_equal. lia.
Qed.

Lemma readLE16_at data k :
  0 <= k -> readLE16 (file_at data k) = (le16_at data k, file_at data (k + 2)).
Proof.
  intros Hk. unfold readLE16.
  rewrite file_read_at by lia. rewrite file_read_at by lia.
  unfold le16_at. do 2 f_equal. lia.
Qed.

Lemma readLE32_at data k :
  0 <= k -> readLE32 (file_at data k) = (le32_at data k, file_at data (k + 4)).
Proof.
  intros Hk. unfold readLE32.
  rewrite file_read_at by lia. rewrite file_read_at by lia.
  rewrite file_read_at by lia. rewrite file_read_at by lia.
  unfold le32_at.
  replace (k + 1 + 1) with (k + 2) by lia.
  replace (k + 2 + 1) with (k + 3) by lia.
  replace (k + 3 + 1) with (k + 4) by lia.
  reflexivity.
Qed.

Lemma SPIFFS_open_at fs name data :
  fs name = Some data -> SPIFFS_open fs name = Some (file_at data 0).
Proof.
  intros H. unfold SPIFFS_open, file_at. rewrite H.
  rewrite Z.min_l by lia. reflexivity.
Qed.

Lemma readLE16_to data k k' :
  0 <= k -> k' = k + 2 ->
  readLE16 (file_at data k) = (le16_at data k, file_at data k').
Proof. intros Hk ->. apply readLE16_at, Hk. Qed.

Lemma readLE32_to data k k' :
  0 <= k -> k' = k + 4 ->
  readLE32 (file_at data k) = (le32_at data k, file_at data k').
Proof. intros Hk ->. apply readLE32_at, Hk. Qed.

Lemma parse_header_at data :
  parse_header (file_at data 2) = (header_of data, file_at data (header_end data)).
Proof.
  unfold parse_header.
  rewrite (readLE32_to data 2 6) by lia.
  rewrite (readLE32_to data 6 10) by lia.
  rewrite (readLE32_to data 10 14) by lia.
  rewrite (readLE32_to data 14 18) by lia.
  rewrite (readLE32_to data 18 22) by lia.
  rewrite (readLE32_to data 22 26) by lia.
  rewrite (readLE16_to data 26 28) by lia.
  rewrite (readLE16_to data 28 30) by lia.
  unfold header_of, header_end, field_compression, field_colors, abs32,
    field_offset, field_headerSize, field_width, field_height, field_planes,
    field_depth.
  destruct (12 <? le32_at data 14).
  - rewrite (readLE32_to data 30 34) by lia.
    rewrite (readLE32_to data 34 38) by lia.
    rewrite (readLE32_to data 38 42) by lia.
    rewrite (readLE32_to data 42 46) by lia.
    rewrite (readLE32_to data 46 50) by lia.
    rewrite (readLE32_to data 50 54) by lia.
    reflexivity.
  - reflexivity.
Qed.

Lemma coreBMP_at fs alloc_ok stack name img data :
  fs name = Some data ->
  coreBMP fs alloc_ok stack name img =
    if field_signature data =? 0x4D42 then
      core_decode (header_of data) (file_at data (header_end data))
                  alloc_ok stack (dealloc img)
    else Done IMAGE_ERR_FORMAT (dealloc img) [].
Proof.
  intros Hfs. unfold coreBMP. rewrite (SPIFFS_open_at _ _ _ Hfs).
  rewrite (readLE16_to data 0 2) by lia. unfold field_signature.
  destruct (le16_at data 0 =? 19778); [| reflexivity].
  rewrite parse_header_at. reflexivity.
Qed.

Lemma bmpDimensions_at fs name data :
  fs name = Some data ->
  bmpDimensions fs name true true =
    if field_signature data =? 0x4D42 then
      (IMAGE_SUCCESS, Some (field_width data), Some (abs32 (field_height data)))
    else (IMAGE_ERR_FORMAT, None, None).
Proof.
  intros Hfs. unfold bmpDimensions. rewrite (SPIFFS_open_at _ _ _ Hfs).
  rewrite (readLE16_to data 0 2) by lia. unfold field_signature.
  destruct (le16_at data 0 =? 19778); [| reflexivity].
  rewrite (readLE32_to data 2 6) by lia.
  rewrite (readLE32_to data 6 10) by lia.
  rewrite (readLE32_to data 10 14) by lia.
  rewrite (readLE32_to data 14 18) by lia.
  rewrite (readLE32_to data 18 22) by lia.
  rewrite (readLE32_to data 22 26) by lia.
  reflexivity.
Qed.

(** ** [dealloc] *)

Lemma dealloc_step_insert (cs : list (option GFXcanvas16)) (i : nat) :
  match cs !! i with
  | Some (Some _) => <[i := None]> cs
  | _ => cs
  end = <[i := None]> cs.
Proof.
  destruct (cs !! i) as [[c |] |] eqn:E.
  - reflexivity.
  - symmetry. apply list_insert_id, E.
  - symmetry. apply list_insert_ge. apply lookup_ge_None, E.
Qed.

Lemma dealloc_loop_length n : forall i cs,
  length (dealloc_loop n i cs) = length cs.
Proof.
  induction n as [| n IH]; intros i cs; cbn [dealloc_loop]; [reflexivity |].
  rewrite IH, dealloc_step_insert. apply length_insert.
Qed.

Lemma dealloc_loop_lookup n : forall i cs j,
  dealloc_loop n i cs !! j =
    if decide (i <= j < i + n)%nat then (fun _ => None) <$> cs !! j
    else cs !! j.
Proof.
  induction n as [| n IH]; intros i cs j; cbn [dealloc_loop].
  - destruct (decide _); [lia | reflexivity].
  - rewrite IH, dealloc_step_insert.
    destruct (decide (j = i)) as [-> | Hne].
    + destruct (decide (S i <= i < S i + n)%nat); [lia |].
      destruct (decide (i <= i < i + S n)%nat); [| lia].
      destruct (cs !! i) as [c |] eqn:E.
      * rewrite list_lookup_insert_eq; [reflexivity |].
        apply lookup_lt_is_Some. eauto.
      * rewrite list_insert_ge; [rewrite E; reflexivity |].
        apply lookup_ge_None, E.
    + rewrite list_lookup_insert_ne by congruence.
      destruct (decide (S i <= j < S i + n)%nat),
        (decide (i <= j < i + S n)%nat); try reflexivity; lia.
Qed.

Lemma dealloc_loop_all cs :
  length cs = Z.to_nat NUM_CANVAS ->
  dealloc_loop (Z.to_nat NUM_CANVAS) 0 cs = replicate (Z.to_nat NUM_CANVAS) None.
Proof.
  intros Hlen.
  apply list_eq. intros j. rewrite dealloc_loop_lookup.
  destruct (decide (0 <= j < 0 + Z.to_nat NUM_CANVAS)%nat) as [Hj | Hj].
  - rewrite lookup_replicate_2 by lia.
    destruct (lookup_lt_is_Some_2 cs j) as [c Hc]; [lia |].
    rewrite Hc. reflexivity.
  - rewrite lookup_ge_None_2 by lia.
    symmetry. apply lookup_replicate_None. lia.
Qed.

Lemma dealloc_canvas img :
  length (canvas img) = Z.to_nat NUM_CANVAS ->
  canvas (dealloc img) = replicate (Z.to_nat NUM_CANVAS) None.
Proof. intros Hlen. exact (dealloc_loop_all _ Hlen). Qed.

Lemma dealloc_new img :
  length (canvas img) = Z.to_nat NUM_CANVAS ->
  dealloc img = SPIFFS_Image_new (img_w img) (img_h img).
Proof.
  intros Hlen. unfold SPIFFS_Image_new, dealloc.
  f_equal. exact (dealloc_loop_all _ Hlen).
Qed.

(** ** [draw] *)

Lemma draw_loop_closed cs x : forall y,
  - 2 ^ 15 <= y < 2 ^ 15 ->
  draw_loop cs x y =
    imap (fun k c => mkBlit x (to_int16 (y + CANVAS_HEIGHT * Z.of_nat k))
                            (c_buffer c) (c_width c) (c_height c))
         (omap id cs).
Proof.
  induction cs as [| [c |] cs IH]; intros y Hy; cbn [draw_loop omap].
  - reflexivity.
  - cbn [id option_ret option_bind mbind]. simpl.
    rewrite IH by apply to_int16_range.
    f_equal.
    + f_equal. rewrite Z.mul_0_r, Z.add_0_r. symmetry. apply to_int16_id, Hy.
    + apply imap_ext. intros k c' _. unfold compose. f_equal.
      rewrite to_int16_add_l. f_equal. lia.
  - simpl. apply IH, Hy.
Qed.

(** C9. On a handle of format [IMAGE_16], [draw] blits the full buffer of
    every allocated segment, in slot order: the first at [(x, y)], the
    [k]-th at [y] advanced [k] times by [CANVAS_HEIGHT] (as an [int16_t]),
    whatever the height of the segment.  On a handle of format
    [IMAGE_NONE] it emits no blit. *)
Theorem draw_stacks_segments img x y :
  - 2 ^ 15 <= y < 2 ^ 15 ->
  draw img x y =
    match format img with
    | IMAGE_16 =>
        imap (fun k c => mkBlit x (to_int16 (y + CANVAS_HEIGHT * Z.of_nat k))
                                (c_buffer c) (c_width c) (c_height c))
             (segments img)
    | IMAGE_NONE => []
    end
  /\ (forall k c,
        format img = IMAGE_16 ->
        segments img !! k = Some c ->
        y + CANVAS_HEIGHT * Z.of_nat k < 2 ^ 15 ->
        draw img x y !! k =
          Some (mkBlit x (y + CANVAS_HEIGHT * Z.of_nat k)
                       (c_buffer c) (c_width c) (c_height c))).
Proof.
  intros Hy.
  assert (Hdraw : draw img x y =
    match format img with
    | IMAGE_16 =>
        imap (fun k c => mkBlit x (to_int16 (y + CANVAS_HEIGHT * Z.of_nat k))
                                (c_buffer c) (c_width c) (c_height c))
             (segments img)
    | IMAGE_NONE => []
    end).
  { unfold draw, segments. destruct (format img); [reflexivity |].
    apply draw_loop_closed, Hy. }
  split; [exact Hdraw |].
  intros k c Hfmt Hk Hrange. rewrite Hdraw, Hfmt.
  rewrite list_lookup_imap, Hk. cbn [fmap option_fmap option_map].
  rewrite to_int16_id; [reflexivity |].
  unfold CANVAS_HEIGHT in *. lia.
Qed.

Lemma draw_stacks_segments_witness :
  - 2 ^ 15 <= 5 < 2 ^ 15
  /\ draw (mkImage 2 30
             [Some (mkCanvas 2 20 (replicate 40 7)); None;
              Some (mkCanvas 2 10 (replicate 20 9))] IMAGE_16) 3 5
     = [mkBlit 3 5 (replicate 40 7) 2 20; mkBlit 3 25 (replicate 20 9) 2 10].
Proof.
  split; [lia |].
  rewrite (proj1 (draw_stacks_segments _ 3 5 ltac:(lia))).
  reflexivity.
Defined.

(** ** Results fixed by the open and by the signature *)

Lemma abs32_to_int32_abs h :
  - 2 ^ 31 <= h < 2 ^ 31 -> abs32 h = to_int32 (Z.abs h).
Proof.
  intros Hh. unfold abs32. destruct (Z.ltb_spec h 0).
  - rewrite Z.abs_neq by lia. reflexivity.
  - rewrite Z.abs_eq by lia. symmetry. apply to_int32_id. lia.
Qed.

Lemma field_height_range data : - 2 ^ 31 <= field_height data < 2 ^ 31.
Proof. apply to_int32_range. Qed.

Lemma bmpDimensions_not_found fs name ww wh :
  fs name = None ->
  bmpDimensions fs name ww wh = (IMAGE_ERR_FILE_NOT_FOUND, None, None).
Proof. intros H. unfold bmpDimensions, SPIFFS_open. rewrite H. reflexivity. Qed.

Lemma bmpDimensions_bad_signature fs name ww wh data :
  fs name = Some data -> (field_signature data =? 0x4D42) = false ->
  bmpDimensions fs name ww wh = (IMAGE_ERR_FORMAT, None, None).
Proof.
  intros Hfs Hsig. unfold bmpDimensions. rewrite (SPIFFS_open_at _ _ _ Hfs).
  rewrite (readLE16_to data 0 2) by lia.
  unfold field_signature in Hsig. rewrite Hsig. reflexivity.
Qed.

(** C7. A file that cannot be opened makes [bmpDimensions] and [loadBMP]
    return [IMAGE_ERR_FILE_NOT_FOUND]; an opened file whose first two
    bytes, read as a little-endian [uint16_t], are not [0x4D42] makes both
    return [IMAGE_ERR_FORMAT]; with a valid signature [bmpDimensions]
    returns [IMAGE_SUCCESS] with the width field and the absolute value of
    the height field, whatever the planes, depth and compression fields
    hold. *)
Theorem open_and_signature_status fs alloc_ok stack name img ww wh :
  match fs name with
  | None =>
      bmpDimensions fs name ww wh = (IMAGE_ERR_FILE_NOT_FOUND, None, None)
      /\ loadBMP fs alloc_ok stack name img
         = Done IMAGE_ERR_FILE_NOT_FOUND (dealloc img) []
  | Some data =>
      if field_signature data =? 0x4D42 then
        bmpDimensions fs name true true =
          (IMAGE_SUCCESS, Some (field_width data),
           Some (to_int32 (Z.abs (field_height data))))
      else
        bmpDimensions fs name ww wh = (IMAGE_ERR_FORMAT, None, None)
        /\ loadBMP fs alloc_ok stack name img
           = Done IMAGE_ERR_FORMAT (dealloc img) []
  end.
Proof.
  destruct (fs name) as [data |] eqn:Hfs.
  - destruct (field_signature data =? 19778) eqn:Hsig.
    + rewrite (bmpDimensions_at _ _ _ Hfs), Hsig.
      rewrite abs32_to_int32_abs by apply field_height_range. reflexivity.
    + split; [apply (bmpDimensions_bad_signature _ _ _ _ _ Hfs Hsig) |].
      unfold loadBMP. rewrite (coreBMP_at _ _ _ _ _ _ Hfs), Hsig. reflexivity.
  - split; [apply bmpDimensions_not_found, Hfs |].
    unfold loadBMP, coreBMP, SPIFFS_open. rewrite Hfs. reflexivity.
Qed.

(** A palette image with run-length compression: the dimension query
    succeeds while the load reports an unsupported format. *)
Example dimensions_of_unsupported_file :
  let fs := one_file "p.bmp" (bmp_file 3 (-2) 1 8 1 (replicate 8 "000"%byte)) in
  bmpDimensions fs "p.bmp" true true = (IMAGE_SUCCESS, Some 3, Some 2)
  /\ loadBMP fs (fun _ => true) [] "p.bmp" (SPIFFS_Image_new 0 0)
     = Done IMAGE_ERR_FORMAT (SPIFFS_Image_new 0 0) [].
Proof. vm_compute. split; reflexivity. Qed.

(** ** What the scanline loop leaves unchanged *)

Lemma same_frame_refl st : same_frame st st.
Proof. unfold same_frame. tauto. Qed.

Lemma same_frame_trans st1 st2 st3 :
  same_frame st1 st2 -> same_frame st2 st3 -> same_frame st1 st3.
Proof. unfold same_frame. intuition congruence. Qed.

Lemma shapes_set_canvas img i c c' :
  canvas img !! i = Some (Some c) ->
  c_width c' = c_width c -> c_height c' = c_height c ->
  length (c_buffer c') = length (c_buffer c) ->
  shapes (set_canvas img i c') = shapes img.
Proof.
  intros Hi Hw Hh Hl. unfold shapes, set_canvas. cbn [canvas].
  rewrite list_fmap_insert. apply list_insert_id.
  rewrite list_lookup_fmap, Hi. cbn. unfold shape_of. cbn.
  rewrite Hw, Hh, Hl. reflexivity.
Qed.

Lemma file_read_buf_data f buf n : f_data (snd (file_read_buf f buf n)) = f_data f.
Proof. reflexivity. Qed.

Lemma pixel_body_frame st st' :
  pixel_body st = Some st' -> same_frame st st' /\ d_rows st' = d_rows st.
Proof.
  unfold pixel_body. intros H.
  destruct (SDBUF_SIZE <=? d_srcidx st);
    cbn [file_read_buf] in H;
    (destruct (canvas (d_img st) !! d_cur st) as [[c |] |] eqn:Hc; [| discriminate ..]);
    (destruct (d_destidx st <? Z.of_nat (length (c_buffer c))); [| discriminate]);
    cbn [c_width c_height] in H;
    (destruct (to_uint32 (c_width c * c_height c) <=? d_destidx st + 1);
     [destruct (to_uint8 (d_cci st + 1) <? NUM_CANVAS);
      [destruct (canvas _ !! Z.to_nat (to_uint8 (d_cci st + 1))) as [[c2 |] |];
       [| discriminate ..] |] |]);
    injection H as <-; unfold same_frame; cbn;
    (repeat split; try reflexivity);
    apply (shapes_set_canvas _ _ c); try reflexivity; try assumption;
    cbn; apply length_insert.
Qed.

Lemma pixel_loop_frame n : forall st st',
  pixel_loop n st = Some st' -> same_frame st st' /\ d_rows st' = d_rows st.
Proof.
  induction n as [| n IH]; intros st st' H; cbn [pixel_loop] in H.
  - injection H as <-. split; [apply same_frame_refl | reflexivity].
  - destruct (pixel_body st) as [st1 |] eqn:E; [| discriminate].
    apply pixel_body_frame in E as [E1 E2]. apply IH in H as [H1 H2].
    split; [eapply same_frame_trans; eassumption | congruence].
Qed.

Lemma row_body_frame hd rowSize row st st' :
  row_body hd rowSize row st = Some st' ->
  same_frame st st' /\ d_rows st' = d_rows st ++ [row_pos hd rowSize row].
Proof.
  unfold row_body. intros H.
  destruct (file_position (d_file st) =? row_pos hd rowSize row);
    apply pixel_loop_frame in H as [H1 H2]; cbn in *; (split; [| exact H2]);
    unfold same_frame in *; cbn in *; tauto.
Qed.

Lemma row_loop_frame n hd rowSize : forall row st st',
  row_loop n hd rowSize row st = Some st' ->
  same_frame st st'
  /\ exists more, d_rows st' = d_rows st ++ more
       /\ (more = [] <-> n = O \/ (d_cci st <? NUM_CANVAS) = false).
Proof.
  induction n as [| n IH]; intros row st st' H; cbn [row_loop] in H.
  - injection H as <-. split; [apply same_frame_refl |].
    exists []. rewrite app_nil_r. intuition.
  - destruct (d_cci st <? NUM_CANVAS) eqn:Hc.
    + destruct (row_body hd rowSize row st) as [st1 |] eqn:E; [| discriminate].
      apply row_body_frame in E as [E1 E2]. apply IH in H as [H1 (more & H2 & _)].
      split; [eapply same_frame_trans; eassumption |].
      exists (row_pos hd rowSize row :: more). split.
      * rewrite H2, E2, <- app_assoc. reflexivity.
      * split; [discriminate | intros [? | ?]; discriminate].
    + injection H as <-. split; [apply same_frame_refl |].
      exists []. rewrite app_nil_r. intuition.
Qed.

(** ** The allocation loop *)

Lemma alloc_loop_ok alloc_ok W n : forall i rem cs,
  (forall j, alloc_ok j = true) ->
  alloc_loop n i alloc_ok W rem cs
  = (put_canvases i W (seg_heights n rem) cs, true).
Proof.
  induction n as [| n IH]; intros i rem cs Hok; cbn [alloc_loop seg_heights].
  - reflexivity.
  - destruct (0 <? rem); [| reflexivity].
    rewrite Hok. cbn [put_canvases]. apply IH, Hok.
Qed.

Lemma alloc_loop_fail alloc_ok W n : forall i rem cs k,
  alloc_ok k = false ->
  (forall j, (i <= j < k)%nat -> alloc_ok j = true) ->
  (i <= k < i + length (seg_heights n rem))%nat ->
  alloc_loop n i alloc_ok W rem cs
  = (<[k := None]> (put_canvases i W (take (k - i) (seg_heights n rem)) cs),
     false).
Proof.
  induction n as [| n IH]; intros i rem cs k Hk Hbefore Hrange;
    cbn [alloc_loop seg_heights] in *.
  - cbn in Hrange. lia.
  - destruct (0 <? rem); [| cbn in Hrange; lia].
    cbn [length] in Hrange.
    destruct (decide (k = i)) as [-> | Hne].
    + rewrite Hk, Nat.sub_diag. reflexivity.
    + rewrite (Hbefore i) by lia.
      rewrite (IH (S i) _ _ k Hk) by (try (intros j Hj; apply Hbefore); lia).
      replace (k - i)%nat with (S (k - S i)) by lia. reflexivity.
Qed.

Lemma alloc_loop_false alloc_ok W n : forall i rem cs cs',
  alloc_loop n i alloc_ok W rem cs = (cs', false) ->
  exists k, (i <= k < i + n)%nat /\ alloc_ok k = false.
Proof.
  induction n as [| n IH]; intros i rem cs cs' H; cbn [alloc_loop] in H.
  - discriminate.
  - destruct (0 <? rem); [| discriminate].
    destruct (alloc_ok i) eqn:Hi.
    + apply IH in H as (k & Hk & Hf). exists k. split; [lia | exact Hf].
    + exists i. split; [lia | exact Hi].
Qed.

Lemma put_canvases_length W hs : forall i cs,
  length (put_canvases i W hs cs) = length cs.
Proof.
  induction hs as [| h hs IH]; intros i cs; cbn [put_canvases].
  - reflexivity.
  - rewrite IH. apply length_insert.
Qed.

Lemma put_canvases_lookup W hs : forall i cs j,
  (i + length hs <= length cs)%nat ->
  put_canvases i W hs cs !! j =
    if decide (i <= j < i + length hs)%nat
    then (fun h => Some (new_GFXcanvas16 W h)) <$> hs !! (j - i)%nat
    else cs !! j.
Proof.
  induction hs as [| h hs IH]; intros i cs j Hlen; cbn [put_canvases length] in *.
  - destruct (decide _); [lia | reflexivity].
  - rewrite IH by (rewrite length_insert; lia).
    destruct (decide (S i <= j < S i + length hs)%nat) as [Hj | Hj].
    + destruct (decide (i <= j < i + S (length hs))%nat); [| lia].
      replace (j - i)%nat with (S (j - S i)) by lia. reflexivity.
    + destruct (decide (i <= j < i + S (length hs))%nat) as [Hj' | Hj'].
      * assert (j = i) as -> by lia. rewrite Nat.sub_diag.
        rewrite list_lookup_insert_eq by lia. reflexivity.
      * rewrite list_lookup_insert_ne by lia. reflexivity.
Qed.

Lemma seg_heights_length_le n : forall rem, (length (seg_heights n rem) <= n)%nat.
Proof.
  induction n as [| n IH]; intros rem; cbn [seg_heights].
  - cbn. lia.
  - destruct (0 <? rem); cbn [length]; [| lia].
    specialize (IH (to_uint16 (rem - CANVAS_HEIGHT))). lia.
Qed.

(** Below the image height the loop asks for [min C (H - i * C)] rows. *)
Lemma seg_heights_lookup n : forall rem j,
  0 <= rem < 2 ^ 16 -> (j < n)%nat -> CANVAS_HEIGHT * Z.of_nat j < rem ->
  seg_heights n rem !! j
  = Some (Z.min CANVAS_HEIGHT (rem - CANVAS_HEIGHT * Z.of_nat j)).
Proof.
  unfold CANVAS_HEIGHT.
  induction n as [| n IH]; intros rem j Hrem Hj Hlt; [lia |].
  cbn [seg_heights]. unfold CANVAS_HEIGHT.
  destruct (Z.ltb_spec 0 rem); [| lia].
  destruct j as [| j].
  - cbn [lookup list_lookup]. f_equal.
    destruct (Z.ltb_spec 20 rem); lia.
  - cbn [lookup list_lookup].
    rewrite to_uint16_id by lia.
    change (seg_heights n (rem - 20) !! j =
            Some (Z.min 20 (rem - 20 * Z.of_nat (S j)))).
    rewrite IH by lia. f_equal. lia.
Qed.

(** A height that is a multiple of [CANVAS_HEIGHT] stops the loop. *)
Lemma seg_heights_multiple n : forall rem,
  0 <= rem < 2 ^ 16 -> rem mod CANVAS_HEIGHT = 0 ->
  seg_heights n rem
  = replicate (Nat.min n (Z.to_nat (rem / CANVAS_HEIGHT))) CANVAS_HEIGHT.
Proof.
  unfold CANVAS_HEIGHT.
  induction n as [| n IH]; intros rem Hrem Hmod; [reflexivity |].
  cbn [seg_heights]. unfold CANVAS_HEIGHT.
  assert (Hq : rem = 20 * (rem / 20)) by (rewrite (Z.div_mod rem 20) at 1; lia).
  destruct (Z.ltb_spec 0 rem).
  - assert (Hq' : (rem - 20) / 20 = rem / 20 - 1).
    { replace (rem - 20) with (rem + (-1) * 20) by lia.
      rewrite Z.div_add by lia. lia. }
    assert (Hm' : (rem - 20) mod 20 = 0).
    { replace (rem - 20) with (rem + (-1) * 20) by lia.
      rewrite Z.mod_add by lia. exact Hmod. }
    rewrite to_uint16_id by lia.
    rewrite IH by lia. rewrite Hq'.
    replace (Z.to_nat (rem / 20)) with (S (Z.to_nat (rem / 20 - 1))) by lia.
    replace (if 20 <? rem then 20 else rem) with 20
      by (destruct (Z.ltb_spec 20 rem); lia).
    reflexivity.
  - assert (rem = 0) as -> by lia. reflexivity.
Qed.

(** Once [remainingHeight] has wrapped around, every iteration left
    allocates a full segment. *)
Lemma seg_heights_wrapped n : forall rem,
  CANVAS_HEIGHT * Z.of_nat n < rem < 2 ^ 16 ->
  seg_heights n rem = replicate n CANVAS_HEIGHT.
Proof.
  unfold CANVAS_HEIGHT.
  induction n as [| n IH]; intros rem Hrem; [reflexivity |].
  cbn [seg_heights replicate]. unfold CANVAS_HEIGHT.
  destruct (Z.ltb_spec 0 rem); [| lia].
  destruct (Z.ltb_spec 20 rem); [| lia].
  rewrite to_uint16_id by lia. rewrite IH by lia. reflexivity.
Qed.

(** A height that is not a multiple of [CANVAS_HEIGHT] makes
    [remainingHeight] wrap around: the loop runs for every slot. *)
Lemma seg_heights_not_multiple n : forall rem,
  0 <= rem < 2 ^ 16 -> rem mod CANVAS_HEIGHT <> 0 -> (n <= 12)%nat ->
  length (seg_heights n rem) = n.
Proof.
  unfold CANVAS_HEIGHT.
  induction n as [| n IH]; intros rem Hrem Hmod Hn; [reflexivity |].
  cbn [seg_heights]. unfold CANVAS_HEIGHT.
  destruct (Z.ltb_spec 0 rem).
  - cbn [length]. f_equal.
    destruct (Z_lt_le_dec 20 rem).
    + rewrite to_uint16_id by lia. apply IH; [lia | | lia].
      replace (rem - 20) with (rem + (-1) * 20) by lia.
      rewrite Z.mod_add by lia. exact Hmod.
    + assert (rem <> 20) by (intros ->; apply Hmod; reflexivity).
      unfold to_uint16.
      replace ((rem - 20) mod 2 ^ 16) with (rem - 20 + 2 ^ 16).
      2:{ symmetry. rewrite <- (Z.mod_add _ 1) by lia.
          apply Z.mod_small. lia. }
      pose proof (seg_heights_wrapped n (rem - 20 + 2 ^ 16)) as Hw.
      unfold CANVAS_HEIGHT in Hw. rewrite Hw by lia.
      apply length_replicate.
  - assert (rem = 0) as -> by lia. exfalso. apply Hmod. reflexivity.
Qed.

(** ** The test of planes, compression and depth *)

Lemma core_decode_unsupported hd f alloc_ok stack img :
  (h_planes hd =? 1) && (h_compression hd =? 0) && (h_depth hd =? 24) = false ->
  core_decode hd f alloc_ok stack img = Done IMAGE_ERR_FORMAT img [].
Proof.
  intros H. unfold core_decode.
  destruct ((h_planes hd =? 1) && (h_compression hd =? 0)); [| reflexivity].
  cbn in H. rewrite H. reflexivity.
Qed.

Lemma core_decode_supported hd f alloc_ok stack img :
  (h_planes hd =? 1) && (h_compression hd =? 0) && (h_depth hd =? 24) = true ->
  core_decode hd f alloc_ok stack img =
    let '(cs, allDestsCreated) :=
      alloc_loop (Z.to_nat NUM_CANVAS) 0 alloc_ok (h_bmpWidth hd)
                 (to_uint16 (h_bmpHeight hd)) (canvas img) in
    if allDestsCreated then
      match cs !! O with
      | Some (Some _) =>
          match row_loop (Z.to_nat (h_bmpHeight hd)) hd
                  (row_size 24 (h_bmpWidth hd)) 0
                  (mkState f (init_sdbuf stack) SDBUF_SIZE 0 0 O
                     (mkImage (to_uint16 (h_bmpWidth hd))
                              (to_uint16 (h_bmpHeight hd)) cs IMAGE_16) [])
          with
          | Some st => Done IMAGE_SUCCESS (d_img st) (d_rows st)
          | None => Fault
          end
      | _ => Fault
      end
    else Done IMAGE_ERR_MALLOC
           (mkImage (to_uint16 (h_bmpWidth hd)) (to_uint16 (h_bmpHeight hd))
                    cs (format img)) [].
Proof.
  intros H. apply andb_prop in H as [H Hd]. unfold core_decode. rewrite H, Hd.
  apply Z.eqb_eq in Hd. rewrite Hd. cbn [Z.leb Z.compare Pos.compare Pos.compare_cont].
  destruct (alloc_loop _ _ _ _ _ _) as [cs [|]]; reflexivity.
Qed.

(** A successful load has passed the test, has stored the dimensions in
    the handle and has left the shapes the allocation made. *)
Lemma core_decode_success hd f alloc_ok stack img img' rows :
  core_decode hd f alloc_ok stack img = Done IMAGE_SUCCESS img' rows ->
  (h_planes hd =? 1) && (h_compression hd =? 0) && (h_depth hd =? 24) = true
  /\ img_w img' = to_uint16 (h_bmpWidth hd)
  /\ img_h img' = to_uint16 (h_bmpHeight hd)
  /\ format img' = IMAGE_16
  /\ (exists cs, alloc_loop (Z.to_nat NUM_CANVAS) 0 alloc_ok (h_bmpWidth hd)
                   (to_uint16 (h_bmpHeight hd)) (canvas img) = (cs, true)
                 /\ shape_of <$> cs = shapes img'
                 /\ is_Some (cs !! O ≫= id))
  /\ (rows <> [] <-> 0 < h_bmpHeight hd).
Proof.
  intros H.
  destruct ((h_planes hd =? 1) && (h_compression hd =? 0) && (h_depth hd =? 24))
    eqn:Hs.
  2:{ rewrite core_decode_unsupported in H by exact Hs. discriminate. }
  split; [reflexivity |].
  rewrite core_decode_supported in H by exact Hs.
  destruct (alloc_loop _ _ _ _ _ _) as [cs [|]] eqn:Ha; [| discriminate].
  destruct (cs !! O) as [[c0 |] |] eqn:H0; [| discriminate ..].
  destruct (row_loop _ _ _ _ _) as [st |] eqn:Hr; [| discriminate].
  injection H as <- <-.
  apply row_loop_frame in Hr as [(Hw & Hh & Hf & Hsh & _) (more & Hrows & Hmore)].
  cbn in Hw, Hh, Hf, Hsh, Hrows.
  repeat split; try assumption.
  - exists cs. repeat split; [symmetry; exact Hsh |].
    rewrite H0. cbn. eauto.
  - intros Hne. destruct (Z_lt_le_dec 0 (h_bmpHeight hd)); [assumption |].
    exfalso. apply Hne. rewrite Hrows. apply Hmore. left. lia.
  - intros Hpos Hnil. rewrite Hrows in Hnil. apply Hmore in Hnil.
    cbn in Hnil. destruct Hnil as [Hn | Hn]; [lia | discriminate].
Qed.

(** C6 (as amended). When the width and height fields fit the [int16_t]
    that [width()] and [height()] return, the dimensions [bmpDimensions]
    reports are those the handle reports after a successful [loadBMP] of
    the same file. *)
Theorem dimensions_agree_with_handle fs alloc_ok stack name data img img' rows :
  fs name = Some data ->
  loadBMP fs alloc_ok stack name img = Done IMAGE_SUCCESS img' rows ->
  - 2 ^ 15 <= field_width data < 2 ^ 15 ->
  - 2 ^ 15 < field_height data < 2 ^ 15 ->
  bmpDimensions fs name true true
  = (IMAGE_SUCCESS, Some (width img'), Some (height img')).
Proof.
  intros Hfs Hload Hw Hh. unfold loadBMP in Hload.
  rewrite (coreBMP_at _ _ _ _ _ _ Hfs) in Hload.
  rewrite (bmpDimensions_at _ _ _ Hfs).
  destruct (field_signature data =? 19778); [| discriminate].
  apply core_decode_success in Hload as (_ & Hiw & Hih & Hfmt & _).
  cbn [header_of h_bmpWidth h_bmpHeight] in Hiw, Hih.
  unfold width, height. rewrite Hfmt, Hiw, Hih.
  rewrite !to_int16_to_uint16.
  assert (Habs : - 2 ^ 15 < abs32 (field_height data) < 2 ^ 15).
  { unfold abs32. destruct (Z.ltb_spec (field_height data) 0).
    - rewrite to_int32_id; lia.
    - lia. }
  rewrite !to_int16_id by lia. reflexivity.
Qed.

Lemma dimensions_agree_with_handle_witness :
  let data := bmp_file 2 (-3) 1 24 0 (replicate 24 "007"%byte) in
  let fs := one_file "a.bmp" data in
  exists img' rows,
    fs "a.bmp"%string = Some data
    /\ loadBMP fs (fun _ => true) [] "a.bmp" (SPIFFS_Image_new 0 0)
       = Done IMAGE_SUCCESS img' rows
    /\ bmpDimensions fs "a.bmp" true true
       = (IMAGE_SUCCESS, Some (width img'), Some (height img')).
Proof.
  intros data fs.
  assert (E : exists img' rows,
             loadBMP fs (fun _ => true) [] "a.bmp" (SPIFFS_Image_new 0 0)
             = Done IMAGE_SUCCESS img' rows) by (vm_compute; eauto).
  destruct E as (img' & rows & E).
  exists img', rows. split; [reflexivity |]. split; [exact E |].
  apply (dimensions_agree_with_handle fs (fun _ => true) [] "a.bmp" data
           (SPIFFS_Image_new 0 0) img' rows);
    [reflexivity | exact E | vm_compute; split; [discriminate | reflexivity]
    | vm_compute; split; reflexivity ].
Defined.

(** C6, the claim as stated: a valid 24-bit image of 1 by 32768 pixels
    loads successfully, the dimension query reports the height 32768 and
    the handle reports -32768. *)
Lemma dimensions_differ_for_tall_image :
  let data :=
    bmp_file 1 32768 1 24 0 (replicate (Z.to_nat 131072) "000"%byte) in
  let fs := one_file "t.bmp" data in
  let o := loadBMP fs (fun _ => true) [] "t.bmp" (SPIFFS_Image_new 0 0) in
  outcome_status o = Some IMAGE_SUCCESS
  /\ bmpDimensions fs "t.bmp" true true = (IMAGE_SUCCESS, Some 1, Some 32768)
  /\ width <$> outcome_image o = Some 1
  /\ height <$> outcome_image o = Some (-32768).
Proof. vm_compute. repeat split. Qed.

Lemma alloc_loop_zero n i alloc_ok W cs :
  alloc_loop n i alloc_ok W 0 cs = (cs, true).
Proof. destruct n; reflexivity. Qed.

Lemma dealloc_lookup img j :
  canvas (dealloc img) !! j =
    if decide (j < Z.to_nat NUM_CANVAS)%nat
    then (fun _ => None) <$> canvas img !! j
    else canvas img !! j.
Proof.
  change (canvas (dealloc img))
    with (dealloc_loop (Z.to_nat NUM_CANVAS) 0 (canvas img)).
  rewrite dealloc_loop_lookup.
  destruct (decide (0 <= j < 0 + Z.to_nat NUM_CANVAS)%nat),
    (decide (j < Z.to_nat NUM_CANVAS)%nat); try reflexivity; lia.
Qed.

Lemma abs32_range h : - 2 ^ 31 <= h < 2 ^ 31 -> - 2 ^ 31 <= abs32 h < 2 ^ 31.
Proof.
  intros Hh. unfold abs32. destruct (_ <? _); [apply to_int32_range | exact Hh].
Qed.

(** A height that is not positive leaves no segment to decode into. *)
Lemma abs32_nonpos_uint16 h :
  - 2 ^ 31 <= h < 2 ^ 31 -> abs32 h <= 0 -> to_uint16 (abs32 h) = 0.
Proof.
  intros Hh Hle. unfold abs32 in *.
  destruct (Z.ltb_spec h 0); [| replace h with 0 by lia; reflexivity].
  destruct (Z.eq_dec h (- 2 ^ 31)) as [-> | Hne]; [reflexivity |].
  unfold to_int32 in Hle. rewrite Z.mod_small in Hle by lia. lia.
Qed.

Lemma core_decode_success_rows hd f alloc_ok stack img0 img' rows :
  canvas img0 !! O = Some None ->
  (h_bmpHeight hd <= 0 -> to_uint16 (h_bmpHeight hd) = 0) ->
  core_decode hd f alloc_ok stack img0 = Done IMAGE_SUCCESS img' rows ->
  rows <> [].
Proof.
  intros H0 Hz E.
  pose proof (core_decode_success _ _ _ _ _ _ _ E)
    as (_ & _ & _ & _ & (cs & Ha & _ & Hc0) & Hrows).
  apply Hrows.
  destruct (Z_lt_le_dec 0 (h_bmpHeight hd)) as [| Hle]; [assumption | exfalso].
  rewrite (Hz Hle), alloc_loop_zero in Ha.
  apply (f_equal fst) in Ha. cbn [fst] in Ha. subst cs.
  rewrite H0 in Hc0. destruct Hc0 as [x Hx]. discriminate.
Qed.

Lemma core_decode_supported_status hd f alloc_ok stack img0 :
  (h_planes hd =? 1) && (h_compression hd =? 0) && (h_depth hd =? 24) = true ->
  match core_decode hd f alloc_ok stack img0 with
  | Fault => True
  | Done IMAGE_SUCCESS _ _ => True
  | Done IMAGE_ERR_MALLOC _ rows =>
      rows = [] /\ exists k, (k < 12)%nat /\ alloc_ok k = false
  | Done _ _ _ => False
  end.
Proof.
  intros Hs. rewrite core_decode_supported by exact Hs.
  destruct (alloc_loop _ _ _ _ _ _) as [cs [|]] eqn:Ha.
  - destruct (cs !! O) as [[c0 |] |]; [| exact I ..].
    destruct (row_loop _ _ _ _ _); exact I.
  - split; [reflexivity |].
    apply alloc_loop_false in Ha as (k & Hk & Hf).
    exists k. split; [unfold NUM_CANVAS in Hk; lia | exact Hf].
Qed.

(** C3, the claim as stated: a file with planes 1, compression 0 and
    depth 16 is refused with [IMAGE_ERR_FORMAT] and no scanline is begun. *)
Lemma depth16_not_decoded :
  let data := bmp_file 2 3 1 16 0 (replicate 12 "000"%byte) in
  let fs := one_file "h.bmp" data in
  (field_signature data = 0x4D42 /\ field_planes data = 1
   /\ field_compression data = 0 /\ 16 <= field_depth data)
  /\ loadBMP fs (fun _ => true) [] "h.bmp" (SPIFFS_Image_new 0 0)
     = Done IMAGE_ERR_FORMAT (SPIFFS_Image_new 0 0) [].
Proof. vm_compute. repeat split; discriminate. Qed.

(** ** Allocation failure *)

(** C2. When the [k]-th allocation is the first to fail, [loadBMP]
    returns [IMAGE_ERR_MALLOC] and the format of the handle is
    [IMAGE_NONE], but the [k] segments allocated before the failure are
    still held by the handle when the call returns. *)
Theorem malloc_failure_keeps_segments fs alloc_ok stack name img data k :
  fs name = Some data ->
  field_signature data = 0x4D42 ->
  length (canvas img) = Z.to_nat NUM_CANVAS ->
  (field_planes data =? 1) && (field_compression data =? 0)
    && (field_depth data =? 24) = true ->
  (k < Z.to_nat NUM_CANVAS)%nat ->
  CANVAS_HEIGHT * Z.of_nat k < to_uint16 (abs32 (field_height data)) ->
  alloc_ok k = false ->
  (forall j, (j < k)%nat -> alloc_ok j = true) ->
  exists img',
    loadBMP fs alloc_ok stack name img = Done IMAGE_ERR_MALLOC img' []
    /\ format img' = IMAGE_NONE
    /\ width img' = 0 /\ height img' = 0
    /\ canvas img' !! k = Some None
    /\ forall j, (j < k)%nat ->
         canvas img' !! j
         = Some (Some (new_GFXcanvas16 (field_width data)
                         (Z.min CANVAS_HEIGHT
                            (to_uint16 (abs32 (field_height data))
                             - CANVAS_HEIGHT * Z.of_nat j)))).
Proof.
  intros Hfs Hsig Hlen Hs Hk12 HkH Hk Hbefore. unfold loadBMP.
  rewrite (coreBMP_at _ _ _ _ _ _ Hfs), Hsig. cbn [Z.eqb Pos.eqb].
  rewrite core_decode_supported by exact Hs.
  cbn [header_of h_bmpHeight h_bmpWidth].
  pose proof (dealloc_canvas img Hlen) as Hcs.
  assert (Hfmt : format (dealloc img) = IMAGE_NONE) by reflexivity.
  generalize dependent (dealloc img). intros img0 Hcs Hfmt.
  set (H := to_uint16 (abs32 (field_height data))) in *.
  assert (HH : 0 <= H < 2 ^ 16) by apply to_uint16_range.
  pose proof (seg_heights_lookup (Z.to_nat NUM_CANVAS) H k HH Hk12 HkH) as Hlk.
  assert (Hlenk := lookup_lt_Some _ _ _ Hlk).
  rewrite (alloc_loop_fail alloc_ok (field_width data) (Z.to_nat NUM_CANVAS)
             O H (canvas img0) k Hk) by (try (intros j Hj; apply Hbefore); lia).
  rewrite Nat.sub_0_r.
  eexists. split; [reflexivity |]. cbn [format canvas]. rewrite Hfmt.
  assert (Hlc : length (canvas img0) = Z.to_nat NUM_CANVAS)
    by (rewrite Hcs; apply length_replicate).
  assert (Htk : length (take k (seg_heights (Z.to_nat NUM_CANVAS) H)) = k)
    by (rewrite length_take; lia).
  repeat split.
  - apply list_lookup_insert_eq. rewrite put_canvases_length. lia.
  - intros j Hj. rewrite list_lookup_insert_ne by lia.
    rewrite put_canvases_lookup by lia.
    destruct (decide (0 <= j < 0 + length (take k (seg_heights (Z.to_nat NUM_CANVAS) H)))%nat);
      [| lia].
    rewrite Nat.sub_0_r, lookup_take_lt by lia.
    rewrite seg_heights_lookup by (unfold CANVAS_HEIGHT in *; lia). reflexivity.
Qed.

Lemma malloc_failure_keeps_segments_witness :
  let data := bmp_file 2 30 1 24 0 (replicate 240 "007"%byte) in
  let fs := one_file "a.bmp" data in
  let alloc_ok := fun i => Nat.eqb i 0 in
  exists img',
    loadBMP fs alloc_ok [] "a.bmp" (SPIFFS_Image_new 0 0)
    = Done IMAGE_ERR_MALLOC img' []
    /\ format img' = IMAGE_NONE
    /\ canvas img' !! 1%nat = Some None
    /\ canvas img' !! 0%nat = Some (Some (new_GFXcanvas16 2 20)).
Proof.
  intros data fs alloc_ok.
  destruct (malloc_failure_keeps_segments fs alloc_ok [] "a.bmp"
              (SPIFFS_Image_new 0 0) data 1)
    as (img' & E & Hf & _ & _ & H1 & H0);
    [reflexivity | reflexivity | reflexivity | reflexivity
    | vm_compute; lia | vm_compute; reflexivity | reflexivity
    | intros [| j] Hj; [reflexivity | lia] |].
  exists img'. repeat split; try assumption.
  rewrite (H0 O) by lia. reflexivity.
Defined.

(** ** The segments the allocation makes *)

Lemma put_canvases_fresh W hs n :
  (length hs <= n)%nat ->
  put_canvases 0 W hs (replicate n None)
  = ((fun h => Some (new_GFXcanvas16 W h)) <$> hs)
      ++ replicate (n - length hs) None.
Proof.
  intros Hlen. apply list_eq. intros j.
  rewrite put_canvases_lookup by (rewrite length_replicate; lia).
  destruct (decide (0 <= j < 0 + length hs)%nat) as [Hj | Hj].
  - rewrite lookup_app_l by (rewrite length_fmap; lia).
    rewrite list_lookup_fmap, Nat.sub_0_r. reflexivity.
  - rewrite lookup_app_r by (rewrite length_fmap; lia).
    rewrite length_fmap.
    destruct (decide (j < n)%nat).
    + rewrite !lookup_replicate_2 by lia. reflexivity.
    + rewrite !lookup_ge_None_2 by (rewrite length_replicate; lia). reflexivity.
Qed.

Lemma omap_id_fresh (hs : list GFXcanvas16) n :
  omap id ((Some <$> hs) ++ replicate n None) = hs.
Proof.
  rewrite omap_app.
  replace (omap id (replicate n (@None GFXcanvas16))) with (@nil GFXcanvas16)
    by (induction n; [reflexivity | assumption]).
  rewrite app_nil_r.
  induction hs as [| h hs IH]; [reflexivity |]. cbn. f_equal. exact IH.
Qed.

Lemma ceil_div_canvas H :
  0 <= H ->
  CANVAS_HEIGHT * ((H + CANVAS_HEIGHT - 1) / CANVAS_HEIGHT - 1) < H
  /\ H <= CANVAS_HEIGHT * ((H + CANVAS_HEIGHT - 1) / CANVAS_HEIGHT).
Proof.
  unfold CANVAS_HEIGHT. intros HH.
  pose proof (Z.div_mod (H + 20 - 1) 20 ltac:(lia)).
  pose proof (Z.mod_pos_bound (H + 20 - 1) 20 ltac:(lia)). lia.
Qed.

(** C1 (as amended). With every allocation succeeding, for a width [W] and
    a 16-bit height [H] the allocation loop fills the first
    [min (ceil (H / CANVAS_HEIGHT)) NUM_CANVAS] slots, slot [i] with a
    segment of width [W] and height [min CANVAS_HEIGHT (H - i *
    CANVAS_HEIGHT)]; it never creates more than [NUM_CANVAS] segments, and
    when [H] is a multiple of [CANVAS_HEIGHT] it creates no other
    segment. *)
Theorem allocation_covers_height alloc_ok W H :
  (forall j, alloc_ok j = true) ->
  0 <= H < 2 ^ 16 ->
  let cs := fst (alloc_loop (Z.to_nat NUM_CANVAS) 0 alloc_ok W H
                   (replicate (Z.to_nat NUM_CANVAS) None)) in
  let m := Z.min ((H + CANVAS_HEIGHT - 1) / CANVAS_HEIGHT) NUM_CANVAS in
  snd (alloc_loop (Z.to_nat NUM_CANVAS) 0 alloc_ok W H
         (replicate (Z.to_nat NUM_CANVAS) None)) = true
  /\ (forall i, 0 <= i < m ->
        cs !! Z.to_nat i
        = Some (Some (new_GFXcanvas16 W
                        (Z.min CANVAS_HEIGHT (H - i * CANVAS_HEIGHT)))))
  /\ m <= Z.of_nat (length (omap id cs)) <= NUM_CANVAS
  /\ (H mod CANVAS_HEIGHT = 0 -> Z.of_nat (length (omap id cs)) = m).
Proof.
  intros Hok HH cs m. subst cs.
  rewrite (alloc_loop_ok alloc_ok W _ _ _ _ Hok). cbn [fst snd].
  pose proof (seg_heights_length_le (Z.to_nat NUM_CANVAS) H) as Hle.
  rewrite put_canvases_fresh by exact Hle.
  pose proof (ceil_div_canvas H ltac:(lia)) as [Hc1 Hc2].
  assert (Hm : 0 <= m <= NUM_CANVAS).
  { subst m. unfold CANVAS_HEIGHT, NUM_CANVAS in *.
    assert (0 <= (H + 20 - 1) / 20) by (apply Z.div_pos; lia). lia. }
  assert (Hlk : forall i, 0 <= i < m ->
            seg_heights (Z.to_nat NUM_CANVAS) H !! Z.to_nat i
            = Some (Z.min CANVAS_HEIGHT (H - i * CANVAS_HEIGHT))).
  { intros i Hi. rewrite seg_heights_lookup; [| lia | lia |].
    - unfold CANVAS_HEIGHT. do 2 f_equal. lia.
    - subst m. unfold CANVAS_HEIGHT in *. lia. }
  assert (Hge : m <= Z.of_nat (length (seg_heights (Z.to_nat NUM_CANVAS) H))).
  { destruct (Z.eq_dec m 0) as [-> | Hne]; [lia |].
    pose proof (lookup_lt_Some _ _ _ (Hlk (m - 1) ltac:(lia))). lia. }
  assert (Hcount : forall hs n,
            length (omap id (((fun h => Some (new_GFXcanvas16 W h)) <$> hs)
                               ++ replicate n None)) = length hs).
  { intros hs n.
    replace ((fun h => Some (new_GFXcanvas16 W h)) <$> hs)
      with (Some <$> (new_GFXcanvas16 W <$> hs))
      by (symmetry; apply (list_fmap_compose (new_GFXcanvas16 W) Some)).
    rewrite omap_id_fresh. apply length_fmap. }
  rewrite Hcount.
  split; [reflexivity |]. split; [| split].
  - intros i Hi. rewrite lookup_app_l.
    + rewrite list_lookup_fmap, (Hlk i Hi). reflexivity.
    + rewrite length_fmap.
      apply (lookup_lt_Some _ _ _ (Hlk i Hi)).
  - split; [exact Hge | lia].
  - intros Hmod. rewrite seg_heights_multiple by (try exact Hmod; lia).
    rewrite length_replicate. subst m.
    replace ((H + CANVAS_HEIGHT - 1) / CANVAS_HEIGHT) with (H / CANVAS_HEIGHT).
    + assert (0 <= H / CANVAS_HEIGHT)
        by (apply Z.div_pos; unfold CANVAS_HEIGHT; lia).
      lia.
    + unfold CANVAS_HEIGHT in *.
      pose proof (Z.div_mod H 20 ltac:(lia)).
      pose proof (Z.div_mod (H + 20 - 1) 20 ltac:(lia)).
      pose proof (Z.mod_pos_bound (H + 20 - 1) 20 ltac:(lia)). lia.
Qed.

Lemma allocation_covers_height_witness :
  let cs := fst (alloc_loop (Z.to_nat NUM_CANVAS) 0 (fun _ => true) 2 40
                   (replicate (Z.to_nat NUM_CANVAS) None)) in
  0 <= 40 < 2 ^ 16
  /\ cs !! 0%nat = Some (Some (new_GFXcanvas16 2 20))
  /\ cs !! 1%nat = Some (Some (new_GFXcanvas16 2 20))
  /\ Z.of_nat (length (omap id cs)) = 2.
Proof.
  intros cs.
  destruct (allocation_covers_height (fun _ => true) 2 40 (fun _ => eq_refl)
              ltac:(lia)) as (_ & Hseg & _ & Hcount).
  split; [lia |]. split; [exact (Hseg 0 ltac:(vm_compute; split; congruence)) |].
  split; [exact (Hseg 1 ltac:(vm_compute; split; congruence)) |].
  exact (Hcount eq_refl).
Defined.

(** C1, the claim as stated: an image of 1 by 260 pixels needs
    [ceil (260 / 20) = 13] segments; the load succeeds with 12. *)
Lemma tall_image_has_twelve_segments :
  let data := bmp_file 1 260 1 24 0 (replicate 1040 "000"%byte) in
  let fs := one_file "t.bmp" data in
  let o := loadBMP fs (fun _ => true) [] "t.bmp" (SPIFFS_Image_new 0 0) in
  outcome_status o = Some IMAGE_SUCCESS
  /\ (length ∘ segments) <$> outcome_image o = Some 12%nat
  /\ (260 + CANVAS_HEIGHT - 1) / CANVAS_HEIGHT = 13.
Proof. vm_compute. repeat split. Qed.

(** The 16-bit [remainingHeight] wraps around below zero: an image of 2 by
    30 pixels gets a segment in every slot. *)
Example short_image_fills_every_slot :
  let data := bmp_file 2 30 1 24 0 (replicate 240 "000"%byte) in
  let fs := one_file "s.bmp" data in
  let o := loadBMP fs (fun _ => true) [] "s.bmp" (SPIFFS_Image_new 0 0) in
  outcome_status o = Some IMAGE_SUCCESS
  /\ (fmap c_height ∘ segments) <$> outcome_image o
     = Some [20; 10; 20; 20; 20; 20; 20; 20; 20; 20; 20; 20].
Proof. vm_compute. repeat split. Qed.

(** ** The state of the handle after every operation *)

Lemma alloc_loop_true alloc_ok W n : forall i rem cs cs',
  alloc_loop n i alloc_ok W rem cs = (cs', true) ->
  cs' = put_canvases i W (seg_heights n rem) cs.
Proof.
  induction n as [| n IH]; intros i rem cs cs' H;
    cbn [alloc_loop seg_heights] in *.
  - apply (f_equal fst) in H. symmetry. exact H.
  - destruct (0 <? rem).
    + destruct (alloc_ok i); [| discriminate].
      cbn [put_canvases]. apply IH, H.
    + apply (f_equal fst) in H. symmetry. exact H.
Qed.

Lemma sum_upto_full h : forall k,
  CANVAS_HEIGHT * Z.of_nat k <= h ->
  sum_upto (fun i => Z.min CANVAS_HEIGHT (h - Z.of_nat i * CANVAS_HEIGHT)) k
  = CANVAS_HEIGHT * Z.of_nat k.
Proof.
  unfold CANVAS_HEIGHT.
  induction k as [| k IH]; intros Hk; cbn [sum_upto]; [reflexivity |].
  rewrite IH by lia. lia.
Qed.

Lemma leading_segments_span h :
  0 <= h ->
  sum_upto (fun i => Z.min CANVAS_HEIGHT (h - Z.of_nat i * CANVAS_HEIGHT))
           (Z.to_nat (leading_segments h))
  = Z.min h (NUM_CANVAS * CANVAS_HEIGHT).
Proof.
  intros Hh. unfold leading_segments.
  pose proof (ceil_div_canvas h Hh) as [Hc1 Hc2].
  set (q := (h + CANVAS_HEIGHT - 1) / CANVAS_HEIGHT) in *.
  assert (Hq : 0 <= q) by (apply Z.div_pos; unfold CANVAS_HEIGHT; lia).
  destruct (Z.eq_dec (Z.min q NUM_CANVAS) 0) as [Hz | Hnz].
  - rewrite Hz. change (Z.to_nat 0) with O. cbn [sum_upto].
    unfold NUM_CANVAS, CANVAS_HEIGHT in *. lia.
  - replace (Z.to_nat (Z.min q NUM_CANVAS))
      with (S (Z.to_nat (Z.min q NUM_CANVAS - 1)))
      by (unfold NUM_CANVAS in *; lia).
    cbn [sum_upto]. rewrite sum_upto_full;
      unfold NUM_CANVAS, CANVAS_HEIGHT in *; lia.
Qed.

Lemma new_GFXcanvas16_shape W h :
  0 <= h < 2 ^ 16 ->
  c_width (new_GFXcanvas16 W h) = to_uint16 W
  /\ c_height (new_GFXcanvas16 W h) = h
  /\ Z.of_nat (length (c_buffer (new_GFXcanvas16 W h))) = to_uint16 W * h.
Proof.
  intros Hh. unfold new_GFXcanvas16. cbn [c_width c_height c_buffer].
  rewrite (to_uint16_id h) by exact Hh. rewrite length_replicate.
  pose proof (to_uint16_range W). repeat split. nia.
Qed.

Lemma core_decode_success_covers hd f alloc_ok stack img0 img' rows :
  canvas img0 = replicate (Z.to_nat NUM_CANVAS) None ->
  core_decode hd f alloc_ok stack img0 = Done IMAGE_SUCCESS img' rows ->
  format img' = IMAGE_16 /\ handle_covers img'.
Proof.
  intros Hcs E.
  apply core_decode_success in E
    as (_ & Hiw & Hih & Hfmt & (cs & Ha & Hsh & _) & _).
  split; [exact Hfmt |].
  apply alloc_loop_true in Ha.
  rewrite Hcs, put_canvases_fresh in Ha by apply seg_heights_length_le.
  intros i Hi. rewrite Hih in Hi |- *. rewrite Hiw.
  set (H := to_uint16 (h_bmpHeight hd)) in *.
  assert (HH : 0 <= H < 2 ^ 16) by apply to_uint16_range.
  unfold leading_segments in Hi.
  pose proof (ceil_div_canvas H ltac:(lia)) as [Hc1 Hc2].
  assert (Hlk : seg_heights (Z.to_nat NUM_CANVAS) H !! Z.to_nat i
                = Some (Z.min CANVAS_HEIGHT (H - i * CANVAS_HEIGHT))).
  { rewrite seg_heights_lookup; unfold NUM_CANVAS, CANVAS_HEIGHT in *;
      [do 2 f_equal; lia | lia ..]. }
  assert (Hci : cs !! Z.to_nat i
                = Some (Some (new_GFXcanvas16 (h_bmpWidth hd)
                                (Z.min CANVAS_HEIGHT (H - i * CANVAS_HEIGHT))))).
  { rewrite Ha, lookup_app_l.
    - rewrite list_lookup_fmap, Hlk. reflexivity.
    - rewrite length_fmap. apply (lookup_lt_Some _ _ _ Hlk). }
  assert (Hshi : shapes img' !! Z.to_nat i
                 = Some (shape_of (Some (new_GFXcanvas16 (h_bmpWidth hd)
                                (Z.min CANVAS_HEIGHT (H - i * CANVAS_HEIGHT)))))).
  { rewrite <- Hsh, list_lookup_fmap, Hci. reflexivity. }
  unfold shapes in Hshi. rewrite list_lookup_fmap in Hshi.
  destruct (canvas img' !! Z.to_nat i) as [[c |] |]; try discriminate.
  exists c. split; [reflexivity |].
  cbn in Hshi. injection Hshi as Hw Hh Hl.
  destruct (new_GFXcanvas16_shape (h_bmpWidth hd)
              (Z.min CANVAS_HEIGHT (H - i * CANVAS_HEIGHT)))
    as (Hnw & Hnh & Hnl); [unfold CANVAS_HEIGHT in *; lia |].
  change (c_width c = c_width (new_GFXcanvas16 (h_bmpWidth hd)
            (Z.min CANVAS_HEIGHT (H - i * CANVAS_HEIGHT)))) in Hw.
  change (c_height c = c_height (new_GFXcanvas16 (h_bmpWidth hd)
            (Z.min CANVAS_HEIGHT (H - i * CANVAS_HEIGHT)))) in Hh.
  change (length (c_buffer c) = length (c_buffer (new_GFXcanvas16 (h_bmpWidth hd)
            (Z.min CANVAS_HEIGHT (H - i * CANVAS_HEIGHT))))) in Hl.
  rewrite Hw, Hh, Hl, Hnl, Hnw, Hnh. repeat split.
Qed.

(** C8 (as amended). After construction, after [dealloc] and after a
    [loadBMP] that returns [IMAGE_ERR_FILE_NOT_FOUND] or
    [IMAGE_ERR_FORMAT], the format is [IMAGE_NONE], every slot is null and
    [width()] and [height()] report 0.  After a [loadBMP] that returns
    [IMAGE_ERR_MALLOC] the format is [IMAGE_NONE] and [width()] and
    [height()] report 0.  After a [loadBMP] that returns [IMAGE_SUCCESS]
    the format is [IMAGE_16] and the first [min (ceil (h / CANVAS_HEIGHT))
    NUM_CANVAS] slots hold non-null segments of the width of the image,
    each of [CANVAS_HEIGHT] rows except possibly a shorter last one, that
    span [min h (NUM_CANVAS * CANVAS_HEIGHT)] rows together. *)
Theorem handle_invariant :
  (forall w0 h0, handle_empty (SPIFFS_Image_new w0 h0))
  /\ (forall img,
        length (canvas img) = Z.to_nat NUM_CANVAS -> handle_empty (dealloc img))
  /\ (forall fs alloc_ok stack name img st img' rows,
        length (canvas img) = Z.to_nat NUM_CANVAS ->
        loadBMP fs alloc_ok stack name img = Done st img' rows ->
        match st with
        | IMAGE_ERR_FILE_NOT_FOUND | IMAGE_ERR_FORMAT => handle_empty img'
        | IMAGE_ERR_MALLOC =>
            format img' = IMAGE_NONE /\ width img' = 0 /\ height img' = 0
        | IMAGE_SUCCESS =>
            format img' = IMAGE_16
            /\ handle_covers img'
            /\ sum_upto (fun i => Z.min CANVAS_HEIGHT
                                    (img_h img' - Z.of_nat i * CANVAS_HEIGHT))
                        (Z.to_nat (leading_segments (img_h img')))
               = Z.min (img_h img') (NUM_CANVAS * CANVAS_HEIGHT)
        end).
Proof.
  assert (Hde : forall img,
            length (canvas img) = Z.to_nat NUM_CANVAS -> handle_empty (dealloc img)).
  { intros img Hlen. unfold handle_empty.
    rewrite dealloc_canvas by exact Hlen. repeat split. }
  split; [intros w0 h0; repeat split |]. split; [exact Hde |].
  intros fs alloc_ok stack name img st img' rows Hlen Hload.
  specialize (Hde img Hlen). unfold loadBMP in Hload.
  destruct (fs name) as [data |] eqn:Hfs.
  2:{ unfold coreBMP, SPIFFS_open in Hload. rewrite Hfs in Hload.
      injection Hload as <- <- <-. exact Hde. }
  rewrite (coreBMP_at _ _ _ _ _ _ Hfs) in Hload.
  generalize dependent (dealloc img). intros img0 Hde Hload.
  destruct (field_signature data =? 19778).
  2:{ injection Hload as <- <- <-. exact Hde. }
  destruct Hde as (Hf0 & Hc0 & _).
  destruct st.
  - pose proof (core_decode_success _ _ _ _ _ _ _ Hload) as (_ & _ & Hih & _).
    apply core_decode_success_covers in Hload as [Hfmt Hcov]; [| exact Hc0].
    split; [exact Hfmt |]. split; [exact Hcov |].
    apply leading_segments_span. rewrite Hih. apply to_uint16_range.
  - exfalso. unfold core_decode in Hload.
    destruct ((h_planes (header_of data) =? 1)
              && (h_compression (header_of data) =? 0)); [| discriminate].
    destruct (h_depth (header_of data) =? 24); [| discriminate].
    destruct (alloc_loop _ _ _ _ _ _) as [cs [|]]; [| discriminate].
    destruct (cs !! O) as [[c0 |] |]; [| discriminate ..].
    destruct (16 <=? _); [| discriminate].
    destruct (row_loop _ _ _ _ _); discriminate.
  - unfold core_decode in Hload.
    destruct ((h_planes (header_of data) =? 1)
              && (h_compression (header_of data) =? 0)).
    + destruct (h_depth (header_of data) =? 24).
      * destruct (alloc_loop _ _ _ _ _ _) as [cs [|]].
        -- destruct (cs !! O) as [[c0 |] |]; [| discriminate ..].
           destruct (16 <=? _); [| discriminate].
           destruct (row_loop _ _ _ _ _); discriminate.
        -- discriminate.
      * injection Hload as <- <-. unfold handle_empty.
        rewrite Hf0, Hc0. unfold width, height. rewrite Hf0. repeat split.
    + injection Hload as <- <-. unfold handle_empty.
      rewrite Hf0, Hc0. unfold width, height. rewrite Hf0. repeat split.
  - unfold core_decode in Hload.
    destruct ((h_planes (header_of data) =? 1)
              && (h_compression (header_of data) =? 0)); [| discriminate].
    destruct (h_depth (header_of data) =? 24); [| discriminate].
    destruct (alloc_loop _ _ _ _ _ _) as [cs [|]].
    + destruct (cs !! O) as [[c0 |] |]; [| discriminate ..].
      destruct (16 <=? _); [| discriminate].
      destruct (row_loop _ _ _ _ _); discriminate.
    + injection Hload as <- <-. cbn [format]. unfold width, height.
      cbn [format]. rewrite Hf0. repeat split.
Qed.

Lemma handle_invariant_witness :
  let fs := one_file "a.bmp" (bmp_file 2 (-3) 1 24 0 (replicate 24 "007"%byte)) in
  exists img' rows,
    length (canvas (SPIFFS_Image_new 0 0)) = Z.to_nat NUM_CANVAS
    /\ loadBMP fs (fun _ => true) [] "a.bmp" (SPIFFS_Image_new 0 0)
       = Done IMAGE_SUCCESS img' rows
    /\ format img' = IMAGE_16
    /\ handle_covers img'.
Proof.
  intros fs.
  assert (E : exists img' rows,
             loadBMP fs (fun _ => true) [] "a.bmp" (SPIFFS_Image_new 0 0)
             = Done IMAGE_SUCCESS img' rows)
    by (vm_compute; do 2 eexists; reflexivity).
  destruct E as (img' & rows & E). exists img', rows.
  split; [reflexivity |]. split; [exact E |].
  destruct (proj2 (proj2 handle_invariant) fs (fun _ => true) [] "a.bmp"%string
              (SPIFFS_Image_new 0 0) IMAGE_SUCCESS img' rows eq_refl E)
    as (Hf & Hc & _).
  split; assumption.
Defined.

(** C8, the claim as stated: an image of 1 by 260 pixels loads
    successfully; the format is [IMAGE_16] and [height()] reports 260,
    while the segments of the handle span 240 rows. *)
Lemma tall_image_spans_fewer_rows :
  let data := bmp_file 1 260 1 24 0 (replicate 1040 "000"%byte) in
  let fs := one_file "t.bmp" data in
  let o := loadBMP fs (fun _ => true) [] "t.bmp" (SPIFFS_Image_new 0 0) in
  outcome_status o = Some IMAGE_SUCCESS
  /\ format <$> outcome_image o = Some IMAGE_16
  /\ height <$> outcome_image o = Some 260
  /\ rows_spanned <$> outcome_image o = Some 240.
Proof. vm_compute. repeat split. Qed.

(** With a height that is not a multiple of [CANVAS_HEIGHT] the segments
    past the image are allocated too, and the short segment is not the
    last one. *)
Example short_image_spans_more_rows :
  let data := bmp_file 2 30 1 24 0 (replicate 240 "000"%byte) in
  let fs := one_file "s.bmp" data in
  let o := loadBMP fs (fun _ => true) [] "s.bmp" (SPIFFS_Image_new 0 0) in
  outcome_status o = Some IMAGE_SUCCESS
  /\ height <$> outcome_image o = Some 30
  /\ rows_spanned <$> outcome_image o = Some 230.
Proof. vm_compute. repeat split. Qed.

(** ** The scratch buffer *)

Lemma sd_at_lookup sdbuf data i p :
  sdbuf !! Z.to_nat i = data !! Z.to_nat p ->
  p < Z.of_nat (length data) -> 0 <= p ->
  sd_at sdbuf i = byte_at data p.
Proof.
  intros H Hp Hp0. unfold sd_at, byte_at. rewrite H.
  destruct (lookup_lt_is_Some_2 data (Z.to_nat p)) as [b Hb]; [lia |].
  rewrite Hb. reflexivity.
Qed.

Lemma src_ok_bytes data B P sdbuf file srcidx j :
  src_ok data B P sdbuf file srcidx ->
  0 <= j -> srcidx + j < SDBUF_SIZE -> P + j < Z.of_nat (length data) ->
  sd_at sdbuf (srcidx + j) = byte_at data (P + j).
Proof.
  intros (_ & _ & _ & _ & _ & HP & _ & Hb) Hj Hs Hp.
  apply sd_at_lookup; [apply Hb; assumption | assumption | lia].
Qed.

Lemma src_ok_refill data B P sdbuf file srcidx :
  src_ok data B P sdbuf file srcidx ->
  P + 3 <= Z.of_nat (length data) ->
  let '(sdbuf', file', srcidx') := refill sdbuf file srcidx in
  src_ok data B P sdbuf' file' srcidx' /\ srcidx' + 3 <= SDBUF_SIZE.
Proof.
  intros (Hd & Hl & Hs & Hm & HB & HP & Hpos & Hb) Hlen. unfold refill.
  destruct (Z.leb_spec SDBUF_SIZE srcidx) as [Hge | Hlt].
  - assert (srcidx = SDBUF_SIZE) as -> by lia.
    unfold file_read_buf. rewrite Hd.
    assert (Hfp : f_pos file = P).
    { rewrite Hpos. unfold SDBUF_SIZE, BUFPIXELS. lia. }
    rewrite Hfp.
    set (got := take (Z.to_nat SDBUF_SIZE) (drop (Z.to_nat P) data)).
    assert (Hgot : Z.of_nat (length got)
                   = Z.min SDBUF_SIZE (Z.of_nat (length data) - P)).
    { subst got. rewrite length_take, length_drop.
      unfold SDBUF_SIZE, BUFPIXELS. lia. }
    split; [| unfold SDBUF_SIZE, BUFPIXELS; lia].
    unfold src_ok. cbn [f_data f_pos].
    split; [reflexivity |]. split.
    { rewrite length_app, length_drop. unfold SDBUF_SIZE, BUFPIXELS in *. lia. }
    split; [unfold SDBUF_SIZE, BUFPIXELS; lia |].
    split; [reflexivity |]. split.
    { replace (P - 0 - B) with (P - SDBUF_SIZE - B + 1 * SDBUF_SIZE) by lia.
      rewrite Z.mod_add by (unfold SDBUF_SIZE, BUFPIXELS; lia). exact HB. }
    split; [exact HP |]. split.
    { rewrite Hgot. unfold SDBUF_SIZE, BUFPIXELS. lia. }
    intros j Hj Hjs Hjp.
    rewrite lookup_app_l by (unfold SDBUF_SIZE, BUFPIXELS in *; lia).
    subst got. rewrite lookup_take_lt by (unfold SDBUF_SIZE, BUFPIXELS in *; lia).
    rewrite lookup_drop. f_equal. lia.
  - split; [| assert (srcidx mod 3 = 0) by exact Hm;
              unfold SDBUF_SIZE, BUFPIXELS in *;
              pose proof (Z.div_mod srcidx 3 ltac:(lia)); lia].
    unfold src_ok. repeat split; try assumption; lia.
Qed.

Lemma src_ok_advance data B P sdbuf file srcidx :
  src_ok data B P sdbuf file srcidx ->
  srcidx + 3 <= SDBUF_SIZE ->
  src_ok data B (P + 3) sdbuf file (srcidx + 3).
Proof.
  intros (Hd & Hl & Hs & Hm & HB & HP & Hpos & Hb) Hlt.
  unfold src_ok.
  split; [exact Hd |]. split; [exact Hl |]. split; [lia |].
  split.
  { replace (srcidx + 3) with (srcidx + 1 * 3) by lia.
    rewrite Z.mod_add by lia. exact Hm. }
  split.
  { replace (P + 3 - (srcidx + 3) - B) with (P - srcidx - B) by lia. exact HB. }
  split; [lia |]. split; [rewrite Hpos; f_equal; lia |].
  intros j Hj Hjs Hjp.
  replace (srcidx + 3 + j) with (srcidx + (3 + j)) by lia.
  replace (P + 3 + j) with (P + (3 + j)) by lia.
  apply Hb; lia.
Qed.

Lemma src_ok_start data B sdbuf file :
  f_data file = data -> length sdbuf = Z.to_nat SDBUF_SIZE ->
  f_pos file = B -> 0 <= B <= Z.of_nat (length data) ->
  src_ok data B B sdbuf file SDBUF_SIZE.
Proof.
  intros Hd Hl Hp HB. unfold src_ok.
  split; [exact Hd |]. split; [exact Hl |].
  split; [unfold SDBUF_SIZE, BUFPIXELS; lia |].
  split; [reflexivity |].
  split.
  { replace (B - SDBUF_SIZE - B) with (0 + (-1) * SDBUF_SIZE) by lia.
    rewrite Z.mod_add by (unfold SDBUF_SIZE, BUFPIXELS; lia). reflexivity. }
  split; [lia |]. split; [rewrite Hp; lia |].
  intros j Hj Hjs. lia.
Qed.

Lemma init_sdbuf_length stack : length (init_sdbuf stack) = Z.to_nat SDBUF_SIZE.
Proof.
  unfold init_sdbuf. rewrite length_take, length_app, length_replicate. lia.
Qed.

(** ** One pixel *)

Lemma pixel_body_refill st :
  pixel_body st =
    let '(sdbuf, file, srcidx) :=
      refill (d_sdbuf st) (d_file st) (d_srcidx st) in
    let b := sd_at sdbuf srcidx in
    let g := sd_at sdbuf (srcidx + 1) in
    let r := sd_at sdbuf (srcidx + 2) in
    let srcidx := srcidx + 3 in
    match canvas (d_img st) !! d_cur st with
    | Some (Some c) =>
        if d_destidx st <? Z.of_nat (length (c_buffer c)) then
          let c' := mkCanvas (c_width c) (c_height c)
                      (<[Z.to_nat (d_destidx st) := color565 r g b]> (c_buffer c)) in
          let img := set_canvas (d_img st) (d_cur st) c' in
          let destidx := d_destidx st + 1 in
          if to_uint32 (c_width c' * c_height c') <=? destidx then
            let cci := to_uint8 (d_cci st + 1) in
            if cci <? NUM_CANVAS then
              match canvas img !! Z.to_nat cci with
              | Some (Some _) =>
                  Some (mkState file sdbuf srcidx 0 cci (Z.to_nat cci) img
                                (d_rows st))
              | _ => None
              end
            else
              Some (mkState file sdbuf srcidx 0 cci (d_cur st) img (d_rows st))
          else
            Some (mkState file sdbuf srcidx destidx (d_cci st) (d_cur st) img
                          (d_rows st))
        else None
    | _ => None
    end.
Proof.
  unfold pixel_body, refill.
  destruct (SDBUF_SIZE <=? d_srcidx st); [| reflexivity].
  destruct (file_read_buf _ _ _). reflexivity.
Qed.

(** The step of the pixel loop on a state whose scratch buffer agrees
    with the file: the pixel at offset [P] is packed and stored at
    [destidx] of the current segment; when that fills the segment,
    [destidx] restarts at 0 and [currentCanvasIndex] advances. *)
Lemma pixel_body_step data B P st c :
  src_ok data B P (d_sdbuf st) (d_file st) (d_srcidx st) ->
  P + 3 <= Z.of_nat (length data) ->
  canvas (d_img st) !! d_cur st = Some (Some c) ->
  0 <= d_destidx st < Z.of_nat (length (c_buffer c)) ->
  Z.of_nat (length (c_buffer c)) = c_width c * c_height c ->
  c_width c * c_height c < 2 ^ 32 ->
  let c' := mkCanvas (c_width c) (c_height c)
              (<[Z.to_nat (d_destidx st) := pix data P]> (c_buffer c)) in
  let full := c_width c * c_height c <=? d_destidx st + 1 in
  let cci' := to_uint8 (d_cci st + 1) in
  (full = true -> cci' < NUM_CANVAS ->
   is_Some (canvas (d_img st) !! Z.to_nat cci' ≫= id)) ->
  exists st',
    pixel_body st = Some st'
    /\ src_ok data B (P + 3) (d_sdbuf st') (d_file st') (d_srcidx st')
    /\ d_img st' = set_canvas (d_img st) (d_cur st) c'
    /\ d_rows st' = d_rows st
    /\ d_destidx st' = (if full then 0 else d_destidx st + 1)
    /\ d_cci st' = (if full then cci' else d_cci st)
    /\ d_cur st' = (if full && (cci' <? NUM_CANVAS) then Z.to_nat cci'
                    else d_cur st).
Proof.
  intros Hsrc HP Hc Hd Hcap Hlt c' full cci' Hnext.
  rewrite pixel_body_refill.
  pose proof (src_ok_refill _ _ _ _ _ _ Hsrc HP) as Hre.
  destruct (refill (d_sdbuf st) (d_file st) (d_srcidx st))
    as [[sdbuf file] srcidx].
  destruct Hre as [Hsrc' Hidx].
  assert (Hb0 : sd_at sdbuf srcidx = byte_at data P).
  { pose proof (src_ok_bytes _ _ _ _ _ _ 0 Hsrc') as H0.
    rewrite !Z.add_0_r in H0. apply H0; lia. }
  assert (Hb1 : sd_at sdbuf (srcidx + 1) = byte_at data (P + 1))
    by (apply (src_ok_bytes _ _ _ _ _ _ 1 Hsrc'); lia).
  assert (Hb2 : sd_at sdbuf (srcidx + 2) = byte_at data (P + 2))
    by (apply (src_ok_bytes _ _ _ _ _ _ 2 Hsrc'); lia).
  cbv zeta. rewrite Hb0, Hb1, Hb2, Hc.
  fold (pix data P).
  destruct (Z.ltb_spec (d_destidx st) (Z.of_nat (length (c_buffer c))));
    [| lia].
  cbn [c_width c_height].
  rewrite (to_uint32_id (c_width c * c_height c)) by lia.
  fold c'. fold full.
  pose proof (src_ok_advance _ _ _ _ _ _ Hsrc' Hidx) as Hadv.
  destruct full eqn:Hfull.
  - fold cci'. destruct (Z.ltb_spec cci' NUM_CANVAS) as [Hlt12 | Hge12].
    + assert (Hsome : exists c2,
                canvas (set_canvas (d_img st) (d_cur st) c') !! Z.to_nat cci'
                = Some (Some c2)).
      { unfold set_canvas. cbn [canvas].
        destruct (decide (d_cur st = Z.to_nat cci')) as [He | Hne].
        - exists c'. rewrite <- He. apply list_lookup_insert_eq.
          apply (lookup_lt_Some _ _ _ Hc).
        - rewrite list_lookup_insert_ne by exact Hne.
          destruct (Hnext eq_refl Hlt12) as [c2 Hc2].
          destruct (canvas (d_img st) !! Z.to_nat cci') as [[c3 |] |];
            try discriminate. eauto. }
      destruct Hsome as [c2 Hc2]. rewrite Hc2.
      eexists. split; [reflexivity |]. split; [exact Hadv |]. cbn. repeat split.
    + eexists. split; [reflexivity |]. split; [exact Hadv |]. cbn. repeat split.
  - eexists. split; [reflexivity |]. split; [exact Hadv |]. cbn. repeat split.
Qed.

(** ** The pixels of a scanline that fit the current segment *)

Lemma set_canvas_id img i c :
  canvas img !! i = Some (Some c) -> set_canvas img i c = img.
Proof.
  intros H. destruct img as [w h cs f]. unfold set_canvas. cbn in *.
  f_equal. apply list_insert_id, H.
Qed.

Lemma set_canvas_twice img i c1 c2 :
  set_canvas (set_canvas img i c1) i c2 = set_canvas img i c2.
Proof.
  unfold set_canvas. cbn. f_equal. apply list_insert_insert_eq.
Qed.

Lemma set_canvas_lookup_eq img i c c0 :
  canvas img !! i = Some c0 ->
  canvas (set_canvas img i c) !! i = Some (Some c).
Proof.
  intros H. unfold set_canvas. cbn.
  apply list_lookup_insert_eq, (lookup_lt_Some _ _ _ H).
Qed.

Lemma set_canvas_is_Some img i c c0 k :
  canvas img !! i = Some (Some c0) ->
  is_Some (canvas img !! k ≫= id) ->
  is_Some (canvas (set_canvas img i c) !! k ≫= id).
Proof.
  intros Hi Hk. unfold set_canvas. cbn [canvas].
  destruct (decide (i = k)) as [-> | Hne].
  - rewrite list_lookup_insert_eq by apply (lookup_lt_Some _ _ _ Hi).
    cbn. eauto.
  - rewrite list_lookup_insert_ne by exact Hne. exact Hk.
Qed.

Lemma pixel_loop_row data B n : forall st P c,
  src_ok data B P (d_sdbuf st) (d_file st) (d_srcidx st) ->
  P + 3 * Z.of_nat n <= Z.of_nat (length data) ->
  canvas (d_img st) !! d_cur st = Some (Some c) ->
  0 <= d_destidx st ->
  d_destidx st + Z.of_nat n <= c_width c * c_height c ->
  Z.of_nat (length (c_buffer c)) = c_width c * c_height c ->
  c_width c * c_height c < 2 ^ 32 ->
  (d_destidx st + Z.of_nat n = c_width c * c_height c ->
   to_uint8 (d_cci st + 1) < NUM_CANVAS ->
   is_Some (canvas (d_img st) !! Z.to_nat (to_uint8 (d_cci st + 1)) ≫= id)) ->
  exists st' c',
    pixel_loop n st = Some st'
    /\ src_ok data B (P + 3 * Z.of_nat n)
              (d_sdbuf st') (d_file st') (d_srcidx st')
    /\ d_rows st' = d_rows st
    /\ d_img st' = set_canvas (d_img st) (d_cur st) c'
    /\ c_width c' = c_width c /\ c_height c' = c_height c
    /\ length (c_buffer c') = length (c_buffer c)
    /\ (forall j, 0 <= j < Z.of_nat n ->
          c_buffer c' !! Z.to_nat (d_destidx st + j)
          = Some (pix data (P + 3 * j)))
    /\ (forall k, 0 <= k ->
          k < d_destidx st \/ d_destidx st + Z.of_nat n <= k ->
          c_buffer c' !! Z.to_nat k = c_buffer c !! Z.to_nat k)
    /\ let full := (0 <? Z.of_nat n)
                   && (c_width c * c_height c <=? d_destidx st + Z.of_nat n) in
       d_destidx st' = (if full then 0 else d_destidx st + Z.of_nat n)
       /\ d_cci st' = (if full then to_uint8 (d_cci st + 1) else d_cci st)
       /\ d_cur st' = (if full && (to_uint8 (d_cci st + 1) <? NUM_CANVAS)
                       then Z.to_nat (to_uint8 (d_cci st + 1))
                       else d_cur st).
Proof.
  induction n as [| n IH]; intros st P c Hsrc HP Hc Hd0 Hfit Hcap Hlt Hnext.
  - exists st, c. cbn [pixel_loop Z.of_nat].
    rewrite Z.mul_0_r, !Z.add_0_r.
    split; [reflexivity |]. split; [exact Hsrc |]. split; [reflexivity |].
    split; [symmetry; apply set_canvas_id, Hc |].
    repeat split; try reflexivity. intros j Hj. lia.
  - cbn [pixel_loop].
    destruct (pixel_body_step data B P st c Hsrc ltac:(lia) Hc ltac:(lia)
                Hcap Hlt)
      as (st1 & Hstep & Hsrc1 & Himg1 & Hrows1 & Hd1 & Hcci1 & Hcur1).
    { intros Hfull Hlt12. apply Hnext; [| exact Hlt12].
      apply Z.leb_le in Hfull. lia. }
    rewrite Hstep.
    set (c1 := mkCanvas (c_width c) (c_height c)
                 (<[Z.to_nat (d_destidx st) := pix data P]> (c_buffer c))) in *.
    assert (Hin : (Z.to_nat (d_destidx st) < length (c_buffer c))%nat) by lia.
    destruct (Z.leb_spec (c_width c * c_height c) (d_destidx st + 1))
      as [Hfull | Hnot].
    + (* the segment is full: this was the last pixel of the scanline *)
      assert (n = O) as -> by lia.
      exists st1, c1. cbn [pixel_loop].
      split; [reflexivity |].
      split; [replace (P + 3 * Z.of_nat 1) with (P + 3) by lia; exact Hsrc1 |].
      split; [exact Hrows1 |]. split; [exact Himg1 |].
      split; [reflexivity |]. split; [reflexivity |].
      split; [apply length_insert |].
      split.
      { intros j Hj. assert (j = 0) as -> by lia.
        rewrite Z.add_0_r, Z.mul_0_r, Z.add_0_r.
        apply list_lookup_insert_eq, Hin. }
      split.
      { intros k Hk0 Hk. apply list_lookup_insert_ne. lia. }
      replace (c_width c * c_height c <=? d_destidx st + Z.of_nat 1) with true
        by (symmetry; apply Z.leb_le; lia).
      cbn [Z.of_nat Z.ltb Z.compare andb Pos.of_succ_nat].
      repeat split; assumption.
    + (* room is left in the segment *)
      cbn [andb] in Hcur1.
      assert (Hc1 : canvas (d_img st1) !! d_cur st1 = Some (Some c1)).
      { rewrite Himg1, Hcur1. apply (set_canvas_lookup_eq _ _ _ _ Hc). }
      destruct (IH st1 (P + 3) c1) as
        (st' & c' & Hloop & Hsrc' & Hrows' & Himg' & Hw' & Hh' & Hl'
         & Hpix' & Hframe' & Hd' & Hcci' & Hcur');
        [exact Hsrc1 | lia | exact Hc1 | lia | rewrite Hd1; cbn; lia
        | cbn; rewrite length_insert; exact Hcap | exact Hlt | |].
      { rewrite Hd1, Hcci1. cbn [c_width c_height c1]. intros Heq Hlt12.
        rewrite Himg1. apply (set_canvas_is_Some _ _ _ _ _ Hc).
        apply Hnext; [lia | exact Hlt12]. }
      exists st', c'. rewrite Hd1, Hcci1, Hcur1 in *.
      cbn [c_width c_height c_buffer c1] in *.
      split; [exact Hloop |].
      split; [replace (P + 3 * Z.of_nat (S n)) with (P + 3 + 3 * Z.of_nat n)
                by lia; exact Hsrc' |].
      split; [congruence |].
      split; [rewrite Himg', Himg1; apply set_canvas_twice |].
      split; [exact Hw' |]. split; [exact Hh' |].
      split; [rewrite Hl'; apply length_insert |].
      split.
      { intros j Hj. destruct (Z.eq_dec j 0) as [-> | Hne].
        - rewrite Z.add_0_r, Z.mul_0_r, Z.add_0_r.
          rewrite (Hframe' (d_destidx st)) by lia.
          apply list_lookup_insert_eq, Hin.
        - specialize (Hpix' (j - 1) ltac:(lia)).
          replace (d_destidx st + 1 + (j - 1)) with (d_destidx st + j)
            in Hpix' by lia.
          replace (P + 3 + 3 * (j - 1)) with (P + 3 * j) in Hpix' by lia.
          exact Hpix'. }
      split.
      { intros k Hk0 Hk. rewrite (Hframe' k) by lia.
        apply list_lookup_insert_ne. lia. }
      replace (0 <? Z.of_nat (S n)) with true by (symmetry; apply Z.ltb_lt; lia).
      cbn [andb].
      replace (d_destidx st + Z.of_nat (S n))
        with (d_destidx st + 1 + Z.of_nat n) by lia.
      destruct (Z.ltb_spec 0 (Z.of_nat n)) as [Hpos | Hzero].
      * cbn [andb] in *. repeat split; assumption.
      * assert (n = O) as -> by lia. cbn [andb Z.of_nat] in *.
        rewrite Z.add_0_r in *.
        replace (c_width c * c_height c <=? d_destidx st + 1) with false
          by (symmetry; apply Z.leb_gt; lia).
        cbn [andb]. repeat split; assumption.
Qed.

(** Linear arithmetic with quotients and remainders by constants. *)
Ltac zlia := Z.to_euclidean_division_equations; lia.

(** ** Row stride and row offsets *)

Lemma row_size_24 W :
  0 <= W < 2 ^ 16 ->
  3 * W <= row_size 24 W <= 3 * W + 3 /\ row_size 24 W mod 4 = 0.
Proof.
  intros HW. unfold row_size.
  rewrite (to_int32_id (24 * W)) by lia.
  rewrite (to_int32_id (24 * W + 31)) by lia.
  rewrite Z.quot_div_nonneg by lia.
  pose proof (Z.div_mod (24 * W + 31) 32 ltac:(lia)) as Hdm.
  pose proof (Z.mod_pos_bound (24 * W + 31) 32 ltac:(lia)) as Hmb.
  rewrite to_int32_id by lia. rewrite to_uint32_id by lia.
  split; [lia |]. apply Z.mod_mul. lia.
Qed.

(** Arithmetic of the offsets within a segment. *)

Lemma seg_row_fits m hh W :
  0 <= m < hh -> 0 < W -> 0 <= m * W /\ m * W + W <= W * hh.
Proof. intros Hm HW. nia. Qed.

Lemma seg_capacity_bound W hh :
  0 < W < 2 ^ 16 -> 0 < hh <= 20 -> W * hh < 2 ^ 32.
Proof. intros HW Hh. nia. Qed.

Lemma seg_full_iff m hh W :
  0 <= m < hh -> 0 < W -> (W * hh <=? m * W + W) = (m + 1 =? hh).
Proof.
  intros Hm HW.
  destruct (Z.leb_spec (W * hh) (m * W + W)), (Z.eqb_spec (m + 1) hh);
    try reflexivity; nia.
Qed.

Lemma seg_row_before m' m W col :
  0 <= m' < m -> 0 <= col < W -> 0 <= m' * W + col < m * W.
Proof. intros Hm Hc. nia. Qed.

Lemma mul_le_rows a b rs : a <= b -> 0 <= rs -> a * rs <= b * rs.
Proof. intros. apply Z.mul_le_mono_nonneg_r; assumption. Qed.

(** Rows and segments. *)

Lemma next_row_same_segment r :
  0 <= r -> r mod CANVAS_HEIGHT + 1 <> CANVAS_HEIGHT ->
  (r + 1) / CANVAS_HEIGHT = r / CANVAS_HEIGHT
  /\ (r + 1) mod CANVAS_HEIGHT = r mod CANVAS_HEIGHT + 1.
Proof. unfold CANVAS_HEIGHT. intros Hr Hm. zlia. Qed.

Lemma next_row_new_segment r :
  0 <= r -> r mod CANVAS_HEIGHT + 1 = CANVAS_HEIGHT ->
  (r + 1) / CANVAS_HEIGHT = r / CANVAS_HEIGHT + 1
  /\ (r + 1) mod CANVAS_HEIGHT = 0.
Proof. unfold CANVAS_HEIGHT. intros Hr Hm. zlia. Qed.

Lemma short_segment_is_last r H :
  0 <= r -> r + 1 < Z.min H (NUM_CANVAS * CANVAS_HEIGHT) ->
  (r mod CANVAS_HEIGHT + 1
   =? Z.min CANVAS_HEIGHT (H - r / CANVAS_HEIGHT * CANVAS_HEIGHT))
  = (r mod CANVAS_HEIGHT + 1 =? CANVAS_HEIGHT)
  /\ (r mod CANVAS_HEIGHT + 1 = CANVAS_HEIGHT ->
      r / CANVAS_HEIGHT + 1 < NUM_CANVAS).
Proof.
  unfold CANVAS_HEIGHT, NUM_CANVAS. intros Hr Hr1.
  split; [| zlia].
  destruct (Z.eqb_spec (r mod 20 + 1) (Z.min 20 (H - r / 20 * 20))),
    (Z.eqb_spec (r mod 20 + 1) 20); try reflexivity; zlia.
Qed.

Lemma last_row_fills r H :
  r < Z.min H (NUM_CANVAS * CANVAS_HEIGHT) ->
  r + 1 = NUM_CANVAS * CANVAS_HEIGHT ->
  (r mod CANVAS_HEIGHT + 1
   =? Z.min CANVAS_HEIGHT (H - r / CANVAS_HEIGHT * CANVAS_HEIGHT)) = true
  /\ r / CANVAS_HEIGHT + 1 = NUM_CANVAS.
Proof.
  unfold CANVAS_HEIGHT, NUM_CANVAS. intros Hr Hr1.
  split; [apply Z.eqb_eq |]; zlia.
Qed.

Lemma row_in_segment r H :
  0 <= r < Z.min H (NUM_CANVAS * CANVAS_HEIGHT) ->
  0 <= r / CANVAS_HEIGHT < NUM_CANVAS
  /\ 0 <= r mod CANVAS_HEIGHT
       < Z.min CANVAS_HEIGHT (H - r / CANVAS_HEIGHT * CANVAS_HEIGHT)
  /\ to_uint8 (r / CANVAS_HEIGHT + 1) = r / CANVAS_HEIGHT + 1
  /\ 0 < Z.min CANVAS_HEIGHT (H - r / CANVAS_HEIGHT * CANVAS_HEIGHT) <= 20.
Proof.
  unfold CANVAS_HEIGHT, NUM_CANVAS. intros Hr.
  assert (0 <= r / 20 < 12) by zlia.
  repeat split; try zlia. apply to_uint8_id. lia.
Qed.

Lemma rows_of_one_segment r' r :
  0 <= r' < r -> r' / CANVAS_HEIGHT = r / CANVAS_HEIGHT ->
  0 <= r' mod CANVAS_HEIGHT < r mod CANVAS_HEIGHT.
Proof. unfold CANVAS_HEIGHT. intros Hr He. zlia. Qed.

(** After a scanline read bottom-up the file position is past the start
    of the next scanline. *)
Lemma seek_needed_bottom_up W rs s B len fpos :
  0 < W -> 0 <= rs -> 0 <= s <= SDBUF_SIZE -> B + 3 * W <= len ->
  fpos = Z.min (B + 3 * W + (SDBUF_SIZE - s)) len ->
  fpos <> B - rs.
Proof. unfold SDBUF_SIZE, BUFPIXELS. intros. lia. Qed.

(** After a scanline read top-down the file position is the start of the
    next scanline only when the scratch buffer is used up, unless the
    width is one pixel short of a multiple of [BUFPIXELS]. *)
Lemma seek_needed_top_down W rs s B len fpos :
  0 < W -> 3 * W <= rs <= 3 * W + 3 -> 0 <= s <= SDBUF_SIZE ->
  s mod 3 = 0 -> (3 * W - s) mod SDBUF_SIZE = 0 ->
  B + rs + 3 * W <= len ->
  W mod BUFPIXELS <> BUFPIXELS - 1 ->
  fpos = Z.min (B + 3 * W + (SDBUF_SIZE - s)) len ->
  fpos = B + rs ->
  s = SDBUF_SIZE.
Proof.
  unfold SDBUF_SIZE, BUFPIXELS. cbn. intros HW Hrs Hs Hm3 Hm600 Hnext HW199 -> Heq.
  destruct (Z.eq_dec s 600) as [| Hne]; [assumption | exfalso].
  apply HW199. zlia.
Qed.

Section Scanlines.

Variables (data : list byte) (hd : BmpHeaderInfo) (st0 : dstate).

Let W := h_bmpWidth hd.
Let H := h_bmpHeight hd.
Let rs := row_size 24 W.
Let len := Z.of_nat (length data).

Hypothesis Hdepth : h_depth hd = 24.
Hypothesis HW : 0 < W < 2 ^ 16.
Hypothesis HH : 0 < H < 2 ^ 16.
Hypothesis Hoff : 0 <= h_offset hd.
Hypothesis Hfile : h_offset hd + H * rs <= len.
Hypothesis Hlen : len < 2 ^ 32.
Hypothesis Hslots : H mod CANVAS_HEIGHT <> 0 \/ NUM_CANVAS * CANVAS_HEIGHT <= H.
Hypothesis Htopdown : h_flip hd = false -> W mod BUFPIXELS <> BUFPIXELS - 1.

(** What the allocation has left in the initial state. *)
Hypothesis Hdata0 : f_data (d_file st0) = data.
Hypothesis Hw0 : img_w (d_img st0) = W.
Hypothesis Hh0 : img_h (d_img st0) = H.
Hypothesis Hcovers0 : handle_covers (d_img st0).
Hypothesis Hall0 : forall i, 0 <= i < NUM_CANVAS ->
  is_Some (canvas (d_img st0) !! Z.to_nat i ≫= id).

Lemma rs_bounds : 3 * W <= rs <= 3 * W + 3 /\ rs mod 4 = 0.
Proof. apply row_size_24. lia. Qed.

Lemma src_offset_eq r col :
  src_offset hd r col
  = h_offset hd + (if h_flip hd then H - 1 - r else r) * rs + 3 * col.
Proof. unfold src_offset. rewrite Hdepth. reflexivity. Qed.

Lemma src_offset_range r :
  0 <= r < H ->
  0 <= src_offset hd r 0 /\ src_offset hd r 0 + rs <= len.
Proof.
  intros Hr. rewrite src_offset_eq. pose proof rs_bounds as [Hrs _].
  destruct (h_flip hd); nia.
Qed.

Lemma row_pos_offset r :
  0 <= r < H -> row_pos hd rs r = src_offset hd r 0.
Proof.
  intros Hr. pose proof (src_offset_range r Hr) as Hrange.
  pose proof rs_bounds as [Hrs _].
  rewrite src_offset_eq in *. unfold row_pos. cbv zeta.
  fold H. rewrite Z.mul_0_l, Z.mul_0_r, !Z.add_0_r in *.
  destruct (h_flip hd);
    (rewrite (to_uint32_id (to_uint32 _)) by apply to_uint32_range);
    apply to_uint32_id; lia.
Qed.

(** The slots as the frame of [st0] fixes them. *)
Lemma frame_slot st i :
  same_frame st0 st -> 0 <= i < leading_segments H ->
  exists c, canvas (d_img st) !! Z.to_nat i = Some (Some c)
    /\ c_width c = W
    /\ c_height c = Z.min CANVAS_HEIGHT (H - i * CANVAS_HEIGHT)
    /\ Z.of_nat (length (c_buffer c)) = c_width c * c_height c.
Proof.
  intros (_ & _ & _ & Hsh & _) Hi.
  destruct (Hcovers0 i) as (c0 & Hc0 & Hcw & Hch & Hcl);
    [rewrite Hh0; exact Hi |].
  assert (Hlk : shapes (d_img st) !! Z.to_nat i = Some (shape_of (Some c0))).
  { rewrite Hsh. unfold shapes. rewrite list_lookup_fmap, Hc0. reflexivity. }
  unfold shapes in Hlk. rewrite list_lookup_fmap in Hlk.
  destruct (canvas (d_img st) !! Z.to_nat i) as [[c |] |]; try discriminate.
  cbn in Hlk. injection Hlk as Hw Hh Hl.
  exists c. rewrite Hw, Hh, Hl, Hcw, Hch, Hw0, Hh0.
  repeat split; try reflexivity. rewrite Hcl, Hcw, Hch, Hw0, Hh0. reflexivity.
Qed.

Lemma frame_is_Some st i :
  same_frame st0 st -> 0 <= i < NUM_CANVAS ->
  is_Some (canvas (d_img st) !! Z.to_nat i ≫= id).
Proof.
  intros (_ & _ & _ & Hsh & _) Hi.
  destruct (Hall0 i Hi) as [c0 Hc0].
  destruct (canvas (d_img st0) !! Z.to_nat i) as [[c1 |] |] eqn:E0;
    try discriminate.
  assert (Hlk : shapes (d_img st) !! Z.to_nat i = Some (shape_of (Some c1))).
  { rewrite Hsh. unfold shapes. rewrite list_lookup_fmap, E0. reflexivity. }
  unfold shapes in Hlk. rewrite list_lookup_fmap in Hlk.
  destruct (canvas (d_img st) !! Z.to_nat i) as [[c |] |]; try discriminate.
  cbn. eauto.
Qed.

Lemma leading_row r :
  0 <= r < Z.min H (NUM_CANVAS * CANVAS_HEIGHT) ->
  0 <= r / CANVAS_HEIGHT < leading_segments H
  /\ r mod CANVAS_HEIGHT
     < Z.min CANVAS_HEIGHT (H - (r / CANVAS_HEIGHT) * CANVAS_HEIGHT).
Proof.
  unfold leading_segments, NUM_CANVAS, CANVAS_HEIGHT. intros Hr.
  pose proof (Z.div_mod r 20 ltac:(lia)).
  pose proof (Z.mod_pos_bound r 20 ltac:(lia)).
  pose proof (Z.div_mod (H + 20 - 1) 20 ltac:(lia)).
  pose proof (Z.mod_pos_bound (H + 20 - 1) 20 ltac:(lia)).
  lia.
Qed.

Lemma src_offset_col r col :
  src_offset hd r col = src_offset hd r 0 + 3 * col.
Proof. unfold src_offset. lia. Qed.

Lemma src_offset_next r :
  src_offset hd (r + 1) 0
  = if h_flip hd then src_offset hd r 0 - rs else src_offset hd r 0 + rs.
Proof. rewrite !src_offset_eq. destruct (h_flip hd); lia. Qed.

Lemma src_offset_next_range r :
  0 <= r -> r + 1 < H ->
  src_offset hd r 0 + 3 * W <= len
  /\ (h_flip hd = false -> src_offset hd r 0 + rs + 3 * W <= len).
Proof.
  intros Hr Hr1. pose proof rs_bounds as [Hrs _].
  pose proof (src_offset_range r ltac:(lia)) as [_ H1].
  pose proof (src_offset_range (r + 1) ltac:(lia)) as [_ H2].
  rewrite src_offset_next in H2.
  split; [lia |]. intros Hf. rewrite Hf in H2. lia.
Qed.

Lemma seek_src_ok st r :
  0 <= r < H ->
  f_data (d_file st) = data ->
  length (d_sdbuf st) = Z.to_nat SDBUF_SIZE ->
  (f_pos (d_file st) = src_offset hd r 0 -> d_srcidx st = SDBUF_SIZE) ->
  exists file srcidx,
    (if file_position (d_file st) =? src_offset hd r 0
     then (d_file st, d_srcidx st)
     else (file_seek (d_file st) (src_offset hd r 0), SDBUF_SIZE))
    = (file, srcidx)
    /\ src_ok data (src_offset hd r 0) (src_offset hd r 0)
              (d_sdbuf st) file srcidx.
Proof.
  intros Hr Hfd Hsd Hidx.
  pose proof (src_offset_range r Hr) as [HB0 HBlen].
  pose proof rs_bounds as [Hrs _].
  unfold file_position.
  destruct (Z.eqb_spec (f_pos (d_file st)) (src_offset hd r 0)) as [He | Hne].
  - exists (d_file st), (d_srcidx st). split; [reflexivity |].
    rewrite (Hidx He). apply src_ok_start; try assumption. fold len. lia.
  - exists (file_seek (d_file st) (src_offset hd r 0)), SDBUF_SIZE.
    split; [reflexivity |].
    apply src_ok_start; try assumption; try reflexivity. fold len. lia.
Qed.

Lemma row_body_inv r st :
  0 <= r < Z.min H (NUM_CANVAS * CANVAS_HEIGHT) ->
  decode_inv data hd st0 r st ->
  exists st',
    row_body hd rs r st = Some st' /\ decode_inv data hd st0 (r + 1) st'.
Proof.
  intros Hr (Hframe & Hsd & Hcontent & Hdest & _).
  fold W H in Hcontent, Hdest.
  destruct (Hdest (proj2 Hr)) as (Hcci & Hcur & Hdidx & Hsrcidx).
  pose proof (leading_row r Hr) as [Hlead _].
  destruct (row_in_segment r H Hr) as (Hq & Hmhh & Hu8 & Hhh).
  destruct (frame_slot st _ Hframe Hlead) as (c & Hc & Hcw & Hch & Hcl).
  assert (HrH : 0 <= r < H) by (clear - Hr; lia).
  pose proof (src_offset_range r HrH) as [HB0 HBlen].
  pose proof rs_bounds as [Hrs _].
  assert (Hfd : f_data (d_file st) = data).
  { destruct Hframe as (_ & _ & _ & _ & Hf). congruence. }
  unfold row_body. fold W. rewrite (row_pos_offset r HrH).
  destruct (seek_src_ok st r HrH Hfd Hsd Hsrcidx)
    as (file & srcidx & Hseek & Hsrc).
  rewrite Hseek. clear Hseek.
  set (B := src_offset hd r 0) in *.
  set (m := r mod CANVAS_HEIGHT) in *.
  set (q := r / CANVAS_HEIGHT) in *.
  set (hh := Z.min CANVAS_HEIGHT (H - q * CANVAS_HEIGHT)) in *.
  set (sts := mkState file (d_sdbuf st) srcidx (d_destidx st) (d_cci st)
                      (d_cur st) (d_img st) (d_rows st ++ [B])).
  pose proof (seg_row_fits m hh W Hmhh ltac:(clear - HW; lia)) as [Hfit0 Hfit1].
  destruct (pixel_loop_row data B (Z.to_nat W) sts B c)
    as (st' & c' & Hloop & Hsrc' & Hrows' & Himg' & Hw' & Hh' & Hl'
        & Hpix & Hfr & Hd' & Hcci' & Hcur').
  { exact Hsrc. }
  { rewrite Z2Nat.id by (clear - HW; lia). fold len. clear - HBlen Hrs. lia. }
  { cbn [sts d_img d_cur]. rewrite Hcur. exact Hc. }
  { cbn [sts d_destidx]. rewrite Hdidx. exact Hfit0. }
  { cbn [sts d_destidx]. rewrite Hdidx, Hcw, Hch, Z2Nat.id by (clear - HW; lia).
    exact Hfit1. }
  { exact Hcl. }
  { rewrite Hcw, Hch. apply seg_capacity_bound; [exact HW | exact Hhh]. }
  { cbn [sts d_img d_cci]. intros _ Hlt12.
    apply (frame_is_Some st _ Hframe).
    pose proof (to_uint8_range (d_cci st + 1)) as Hu. clear - Hu Hlt12. lia. }
  exists st'. split; [exact Hloop |].
  cbn [sts d_img d_cur d_destidx d_cci d_rows] in *.
  rewrite Z2Nat.id in * by (clear - HW; lia).
  rewrite Hcur, Hdidx, Hcci in *.
  assert (Hfull : ((0 <? W) && (c_width c * c_height c <=? m * W + W))
                  = (m + 1 =? hh)).
  { rewrite Hcw, Hch.
    replace (0 <? W) with true by (symmetry; apply Z.ltb_lt; clear - HW; lia).
    cbn [andb]. apply seg_full_iff; [exact Hmhh | clear - HW; lia]. }
  rewrite Hfull in *. clear Hfull.
  rewrite Hu8 in *.
  unfold decode_inv. fold W H.
  split.
  { (* frame *)
    destruct Hframe as (Hf1 & Hf2 & Hf3 & Hf4 & Hf5).
    unfold same_frame. rewrite Himg'. cbn [set_canvas img_w img_h format].
    split; [exact Hf1 |]. split; [exact Hf2 |]. split; [exact Hf3 |].
    split.
    - rewrite <- Hf4. apply (shapes_set_canvas _ _ c); assumption.
    - destruct Hsrc' as (Hd & _). rewrite Hd. symmetry. exact Hdata0. }
  split; [destruct Hsrc' as (_ & Hsdl & _); exact Hsdl |].
  split.
  { (* content *)
    intros r' col Hr' Hcol. unfold pixel_at. rewrite Himg'.
    unfold set_canvas. cbn [canvas].
    destruct (Z.eq_dec (r' / CANVAS_HEIGHT) q) as [Heq | Hne].
    - rewrite Heq. rewrite list_lookup_insert_eq
        by apply (lookup_lt_Some _ _ _ Hc).
      rewrite Hw', Hcw.
      destruct (Z.eq_dec r' r) as [-> | Hlt].
      + fold m. rewrite (Hpix col Hcol). f_equal. f_equal.
        rewrite (src_offset_col r col). reflexivity.
      + assert (Hr'r : 0 <= r' < r) by (clear - Hr' Hlt; lia).
        pose proof (rows_of_one_segment r' r Hr'r Heq) as Hm'.
        fold m in Hm'.
        pose proof (seg_row_before _ _ W col Hm' Hcol) as Hbefore.
        rewrite Hfr by (clear - Hbefore; lia).
        specialize (Hcontent r' col Hr'r Hcol).
        unfold pixel_at in Hcontent. rewrite Heq, Hc, Hcw in Hcontent.
        exact Hcontent.
    - rewrite list_lookup_insert_ne.
      + apply Hcontent; [| exact Hcol].
        destruct (Z.eq_dec r' r) as [-> | Hlt];
          [exfalso; apply Hne; reflexivity | clear - Hr' Hlt; lia].
      + intros He. apply Hne. apply Z2Nat.inj in He;
          [congruence | clear - Hq; lia |].
        apply Z.div_pos; [| unfold CANVAS_HEIGHT]; clear - Hr'; lia. }
  split.
  { (* where row r + 1 starts *)
    intros Hr1.
    destruct (short_segment_is_last r H (proj1 Hr) Hr1) as [Hnext Hlt12].
    fold m q hh in Hnext, Hlt12.
    rewrite Hnext in *. clear Hnext.
    assert (Hr1H : r + 1 < H) by (clear - Hr1; lia).
    destruct (src_offset_next_range r (proj1 Hr) Hr1H) as [Hin Hin'].
    fold B in Hin, Hin'.
    assert (Hsrcnext : f_pos (d_file st') = src_offset hd (r + 1) 0 ->
                       d_srcidx st' = SDBUF_SIZE).
    { intros Hpos. rewrite src_offset_next in Hpos. fold B in Hpos.
      destruct Hsrc' as (_ & _ & Hs & Hm3 & HmB & _ & Hfp & _).
      fold len in Hfp.
      replace (B + 3 * W - d_srcidx st' - B) with (3 * W - d_srcidx st')
        in HmB by (clear; lia).
      replace (B + 3 * W + (SDBUF_SIZE - d_srcidx st'))
        with (B + 3 * W + (SDBUF_SIZE - d_srcidx st')) in Hfp by reflexivity.
      destruct (h_flip hd) eqn:Hflip.
      - exfalso.
        apply (seek_needed_bottom_up W rs (d_srcidx st') B len
                 (f_pos (d_file st'))); try assumption;
          clear - HW Hrs; lia.
      - apply (seek_needed_top_down W rs (d_srcidx st') B len
                 (f_pos (d_file st'))); try assumption;
          [clear - HW; lia | apply Hin'; reflexivity
          | apply Htopdown; reflexivity]. }
    destruct (Z.eqb_spec (m + 1) CANVAS_HEIGHT) as [Hlast | Hmid].
    - destruct (next_row_new_segment r (proj1 Hr) Hlast) as [Hq1 Hm1].
      rewrite Hq1, Hm1. fold q.
      specialize (Hlt12 Hlast). apply Z.ltb_lt in Hlt12. rewrite Hlt12 in Hcur'. cbn [andb] in Hcur'.
      repeat split; assumption.
    - destruct (next_row_same_segment r (proj1 Hr) Hmid) as [Hq1 Hm1].
      rewrite Hq1, Hm1. fold q m. cbn [andb] in Hcur'.
      repeat split; try assumption. clear - Hd'; lia. }
  { (* the last slot is full *)
    intros Hr240.
    destruct (last_row_fills r H (proj2 Hr) Hr240) as [Hf Hq12].
    fold m q hh in Hf, Hq12. rewrite Hf in Hcci'. rewrite Hcci'. exact Hq12. }
Qed.

Lemma decode_inv_start :
  length (d_sdbuf st0) = Z.to_nat SDBUF_SIZE ->
  d_srcidx st0 = SDBUF_SIZE -> d_destidx st0 = 0 ->
  d_cci st0 = 0 -> d_cur st0 = O ->
  decode_inv data hd st0 0 st0.
Proof.
  intros Hsd Hsrc Hd Hcci Hcur. unfold decode_inv.
  split; [apply same_frame_refl |]. split; [exact Hsd |].
  split; [intros r' col Hr'; lia |].
  split; [| unfold NUM_CANVAS, CANVAS_HEIGHT; intros Hr; lia].
  intros _. change (0 / CANVAS_HEIGHT) with 0.
  change (0 mod CANVAS_HEIGHT) with 0.
  repeat split; try assumption. intros _. exact Hsrc.
Qed.

(** The scanline loop from row [r] on: it returns, every row below
    [min H (NUM_CANVAS * CANVAS_HEIGHT)] holds its pixels, and one
    scanline has been begun for each of these rows. *)
Lemma row_loop_inv n : forall r st,
  Z.of_nat n = H - r ->
  0 <= r <= Z.min H (NUM_CANVAS * CANVAS_HEIGHT) ->
  decode_inv data hd st0 r st ->
  exists st',
    row_loop n hd rs r st = Some st'
    /\ decode_inv data hd st0 (Z.min H (NUM_CANVAS * CANVAS_HEIGHT)) st'
    /\ d_rows st'
       = d_rows st
         ++ ((fun r => src_offset hd r 0)
               <$> seqZ r (Z.min H (NUM_CANVAS * CANVAS_HEIGHT) - r)).
Proof.
  induction n as [| n IH]; intros r st Hn Hr Hinv; cbn [row_loop].
  - assert (r = Z.min H (NUM_CANVAS * CANVAS_HEIGHT)) as <-
      by (clear - Hn Hr; lia).
    exists st. rewrite Z.sub_diag. cbn. rewrite app_nil_r. auto.
  - destruct (Z_lt_le_dec r (Z.min H (NUM_CANVAS * CANVAS_HEIGHT)))
      as [Hlt | Hge].
    + pose proof Hinv as (_ & _ & _ & Hdest & _).
      destruct (Hdest Hlt) as (Hcci & _).
      destruct (row_in_segment r H ltac:(clear - Hr Hlt; lia)) as (Hq & _).
      replace (d_cci st <? NUM_CANVAS) with true
        by (symmetry; apply Z.ltb_lt; rewrite Hcci; apply Hq).
      destruct (row_body_inv r st ltac:(clear - Hr Hlt; lia) Hinv)
        as (st1 & Hbody & Hinv1).
      rewrite Hbody.
      destruct (IH (r + 1) st1 ltac:(clear - Hn; lia)
                   ltac:(clear - Hr Hlt; lia) Hinv1)
        as (st' & Hloop & Hinv' & Hrows').
      exists st'. split; [exact Hloop |]. split; [exact Hinv' |].
      rewrite Hrows'.
      apply row_body_frame in Hbody as [_ Hrows1]. rewrite Hrows1.
      rewrite (row_pos_offset r ltac:(clear - Hr Hlt; lia)).
      rewrite <- app_assoc. f_equal.
      rewrite (seqZ_cons r) by (clear - Hlt; lia).
      replace (Z.succ r) with (r + 1) by (clear; lia).
      replace (Z.pred (Z.min H (NUM_CANVAS * CANVAS_HEIGHT) - r))
        with (Z.min H (NUM_CANVAS * CANVAS_HEIGHT) - (r + 1)) by (clear; lia).
      reflexivity.
    + assert (Hr240 : r = NUM_CANVAS * CANVAS_HEIGHT) by (clear - Hn Hr Hge; lia).
      pose proof Hinv as (_ & _ & _ & _ & Hfull).
      rewrite (Hfull Hr240).
      replace (NUM_CANVAS <? NUM_CANVAS) with false by reflexivity.
      exists st.
      replace (Z.min H (NUM_CANVAS * CANVAS_HEIGHT)) with r
        by (clear - Hr Hge; lia).
      rewrite Z.sub_diag. cbn. rewrite app_nil_r. auto.
Qed.

End Scanlines.

(** ** The load of a well-formed image *)

Lemma lor_range n a b :
  0 <= n -> 0 <= a < 2 ^ n -> 0 <= b < 2 ^ n -> 0 <= Z.lor a b < 2 ^ n.
Proof.
  intros Hn Ha Hb.
  assert (He : Z.lor a b = Z.lor a b mod 2 ^ n).
  { rewrite <- Z.land_ones by lia. rewrite Z.land_lor_distr_l.
    rewrite !Z.land_ones by lia. rewrite !Z.mod_small by lia. reflexivity. }
  rewrite He. apply Z.mod_pos_bound. lia.
Qed.

Lemma le32_at_range data k : 0 <= le32_at data k < 2 ^ 32.
Proof.
  unfold le32_at. repeat apply lor_range; try lia; apply to_uint32_range.
Qed.

(** The array the allocation makes when no allocation fails. *)
Lemma allocated_slots W H :
  0 <= H < 2 ^ 16 ->
  let cs := put_canvases 0 W (seg_heights (Z.to_nat NUM_CANVAS) H)
                         (replicate (Z.to_nat NUM_CANVAS) None) in
  (forall i, 0 <= i < leading_segments H ->
     cs !! Z.to_nat i
     = Some (Some (new_GFXcanvas16 W
                     (Z.min CANVAS_HEIGHT (H - i * CANVAS_HEIGHT)))))
  /\ (H mod CANVAS_HEIGHT <> 0 \/ NUM_CANVAS * CANVAS_HEIGHT <= H ->
      forall i, 0 <= i < NUM_CANVAS -> is_Some (cs !! Z.to_nat i ≫= id)).
Proof.
  intros HH cs. subst cs.
  pose proof (seg_heights_length_le (Z.to_nat NUM_CANVAS) H) as Hle.
  rewrite put_canvases_fresh by exact Hle.
  split.
  - intros i Hi. unfold leading_segments in Hi.
    pose proof (ceil_div_canvas H ltac:(lia)) as [Hc1 Hc2].
    assert (Hlk : seg_heights (Z.to_nat NUM_CANVAS) H !! Z.to_nat i
                  = Some (Z.min CANVAS_HEIGHT (H - i * CANVAS_HEIGHT))).
    { rewrite seg_heights_lookup; unfold NUM_CANVAS, CANVAS_HEIGHT in *;
        [do 2 f_equal; lia | lia ..]. }
    rewrite lookup_app_l.
    + rewrite list_lookup_fmap, Hlk. reflexivity.
    + rewrite length_fmap. apply (lookup_lt_Some _ _ _ Hlk).
  - intros Hslots i Hi.
    assert (Hlen : length (seg_heights (Z.to_nat NUM_CANVAS) H)
                   = Z.to_nat NUM_CANVAS).
    { destruct (Z.eq_dec (H mod CANVAS_HEIGHT) 0) as [Hz | Hnz].
      - rewrite seg_heights_multiple by (try exact Hz; lia).
        rewrite length_replicate.
        assert (NUM_CANVAS <= H / CANVAS_HEIGHT).
        { destruct Hslots as [Hs | Hs]; [contradiction |].
          unfold NUM_CANVAS, CANVAS_HEIGHT in *. zlia. }
        lia.
      - apply seg_heights_not_multiple; [lia | exact Hnz |].
        unfold NUM_CANVAS. lia. }
    destruct (lookup_lt_is_Some_2 (seg_heights (Z.to_nat NUM_CANVAS) H)
                (Z.to_nat i)) as [h Hh]; [lia |].
    rewrite lookup_app_l by (rewrite length_fmap; lia).
    rewrite list_lookup_fmap, Hh. cbn. eauto.
Qed.

(** C4 (as amended). A 24-bit uncompressed image of positive width and
    height, both below 65536, whose pixel array lies in a file of less
    than 2^32 bytes loads with [IMAGE_SUCCESS] when no allocation fails,
    provided its height is not a multiple of [CANVAS_HEIGHT] below
    [NUM_CANVAS * CANVAS_HEIGHT] and, for a top-down image, its width is
    not one pixel short of a multiple of [BUFPIXELS].  For every output
    row below [NUM_CANVAS * CANVAS_HEIGHT] and every column, the value
    stored at that coordinate is the 5-6-5 packing of the three bytes B,
    G, R of the file at the offset of that pixel (rows bottom-up for a
    positive height field, top-down for a negative one); and one scanline
    is begun for each of these rows, at the offset of its first pixel. *)
Theorem loadBMP_decodes_image fs alloc_ok stack name img data :
  fs name = Some data ->
  length (canvas img) = Z.to_nat NUM_CANVAS ->
  (forall j, alloc_ok j = true) ->
  field_signature data = 0x4D42 ->
  (field_planes data =? 1) && (field_compression data =? 0)
    && (field_depth data =? 24) = true ->
  let hd := header_of data in
  let W := h_bmpWidth hd in
  let H := h_bmpHeight hd in
  let rows := Z.min H (NUM_CANVAS * CANVAS_HEIGHT) in
  0 < W < 2 ^ 16 ->
  0 < H < 2 ^ 16 ->
  h_offset hd + H * row_size 24 W <= Z.of_nat (length data) ->
  Z.of_nat (length data) < 2 ^ 32 ->
  (H mod CANVAS_HEIGHT <> 0 \/ NUM_CANVAS * CANVAS_HEIGHT <= H) ->
  (h_flip hd = false -> W mod BUFPIXELS <> BUFPIXELS - 1) ->
  exists img',
    loadBMP fs alloc_ok stack name img
    = Done IMAGE_SUCCESS img'
           ((fun r => src_offset hd r 0) <$> seqZ 0 rows)
    /\ format img' = IMAGE_16
    /\ img_w img' = W /\ img_h img' = H
    /\ forall row col, 0 <= row < rows -> 0 <= col < W ->
         pixel_at img' row col = Some (pix data (src_offset hd row col)).
Proof.
  intros Hfs Hlen Hok Hsig Hsup hd W H rows HW HH Hfile Hlen32 Hslots Htd.
  unfold loadBMP. rewrite (coreBMP_at _ _ _ _ _ _ Hfs), Hsig.
  cbn [Z.eqb Pos.eqb].
  rewrite core_decode_supported by exact Hsup. fold hd W H.
  rewrite (alloc_loop_ok alloc_ok W _ _ _ _ Hok).
  rewrite (dealloc_canvas img Hlen).
  rewrite (to_uint16_id H) by lia. rewrite (to_uint16_id W) by lia.
  destruct (allocated_slots W H ltac:(lia)) as [Hlead Hall].
  set (cs := put_canvases 0 W (seg_heights (Z.to_nat NUM_CANVAS) H)
                          (replicate (Z.to_nat NUM_CANVAS) None)) in *.
  specialize (Hall Hslots).
  destruct (Hall 0 ltac:(unfold NUM_CANVAS; lia)) as [c0 Hc0].
  change (Z.to_nat 0) with O in Hc0.
  destruct (cs !! O) as [[c0' |] |] eqn:E0; try discriminate.
  set (st0 := mkState (file_at data (header_end data)) (init_sdbuf stack)
                      SDBUF_SIZE 0 0 O (mkImage W H cs IMAGE_16) []).
  assert (Hdepth : h_depth hd = 24).
  { apply andb_prop in Hsup as [_ Hd]. apply Z.eqb_eq in Hd. exact Hd. }
  assert (Hcov : handle_covers (d_img st0)).
  { intros i Hi. cbn [st0 d_img img_h img_w canvas] in *.
    rewrite (Hlead i Hi).
    destruct (new_GFXcanvas16_shape W (Z.min CANVAS_HEIGHT (H - i * CANVAS_HEIGHT)))
      as (Hnw & Hnh & Hnl).
    { unfold leading_segments in Hi.
      pose proof (ceil_div_canvas H ltac:(lia)) as [Hc1 Hc2].
      unfold NUM_CANVAS, CANVAS_HEIGHT in *. lia. }
    eexists. split; [reflexivity |].
    rewrite Hnl, Hnw, Hnh, (to_uint16_id W) by lia. repeat split. }
  destruct (row_loop_inv data hd st0 Hdepth HW
              ltac:(apply le32_at_range) Hfile Hlen32 Htd eq_refl eq_refl
              eq_refl Hcov Hall (Z.to_nat H) 0 st0)
    as (st' & Hloop & Hinv & Hrows).
  { fold H. lia. }
  { fold H. unfold NUM_CANVAS, CANVAS_HEIGHT. lia. }
  { apply decode_inv_start; try reflexivity. apply init_sdbuf_length. }
  fold W H in Hloop, Hinv, Hrows. rewrite Hloop.
  destruct Hinv as ((Hfw & Hfh & Hff & _) & _ & Hcontent & _).
  exists (d_img st'). rewrite Hrows, Z.sub_0_r. cbn [st0 d_rows app].
  split; [reflexivity |]. split; [exact Hff |].
  split; [exact Hfw |]. split; [exact Hfh |].
  exact Hcontent.
Qed.

Lemma loadBMP_decodes_image_witness :
  let data := bmp_file 2 3 1 24 0 (byte_of_Z <$> seqZ 1 24) in
  let fs := one_file "a.bmp" data in
  exists img',
    loadBMP fs (fun _ => true) [] "a.bmp" (SPIFFS_Image_new 0 0)
    = Done IMAGE_SUCCESS img' [70; 62; 54]
    /\ pixel_at img' 0 0 = Some 4226
    /\ pixel_at img' 2 1 = Some 32.
Proof.
  intros data fs.
  destruct (loadBMP_decodes_image fs (fun _ => true) [] "a.bmp"
              (SPIFFS_Image_new 0 0) data)
    as (img' & E & _ & _ & _ & Hpix);
    [reflexivity | reflexivity | reflexivity | reflexivity | reflexivity
    | vm_compute; split; reflexivity | vm_compute; split; reflexivity
    | vm_compute; discriminate | vm_compute; reflexivity
    | left; vm_compute; discriminate | intros Hf; vm_compute in Hf; discriminate |].
  exists img'. split; [exact E |].
  clear E. split.
  - transitivity (Some (pix data (src_offset (header_of data) 0 0))).
    + apply Hpix; vm_compute; split; (discriminate || reflexivity).
    + vm_compute. reflexivity.
  - transitivity (Some (pix data (src_offset (header_of data) 2 1))).
    + apply Hpix; vm_compute; split; (discriminate || reflexivity).
    + vm_compute. reflexivity.
Defined.

(** C4, the claim as stated: in a bottom-up image of 1 by 241 pixels the
    pixel of output row 240 is white in the file (its bytes are the first
    three of the pixel array); the load succeeds and no segment stores a
    pixel for that coordinate. *)
Lemma pixel_past_last_segment_not_stored :
  let pixels := replicate 3 "255"%byte ++ replicate 961 "000"%byte in
  let data := bmp_file 1 241 1 24 0 pixels in
  let o := loadBMP (one_file "t.bmp" data) (fun _ => true) [] "t.bmp"
                   (SPIFFS_Image_new 0 0) in
  outcome_status o = Some IMAGE_SUCCESS
  /\ src_offset (header_of data) 240 0 = 54
  /\ pix data 54 = 65535
  /\ (fun img => pixel_at img 240 0) <$> outcome_image o = Some None
  /\ (fun img => pixel_at img 239 0) <$> outcome_image o = Some (Some 0).
Proof. vm_compute. repeat split. Qed.


(** ** The little-endian readers *)

Lemma lor_disjoint_add a b : Z.land a b = 0 -> Z.lor a b = a + b.
Proof.
  intros H. rewrite <- Z.lxor_lor by exact H.
  symmetry. apply Z.add_nocarry_lxor, H.
Qed.

Lemma lor_shiftl_add n a b :
  0 <= n -> 0 <= a < 2 ^ n -> Z.lor a (Z.shiftl b n) = a + b * 2 ^ n.
Proof.
  intros Hn Ha. rewrite <- Z.shiftl_mul_pow2 by exact Hn.
  apply lor_disjoint_add. apply Z.bits_inj'. intros i Hi.
  rewrite Z.land_spec, Z.bits_0.
  destruct (Z_lt_le_dec i n) as [Hlt | Hge].
  - rewrite Z.shiftl_spec_low by exact Hlt. apply andb_false_r.
  - rewrite <- (Z.mod_small a (2 ^ n)) by exact Ha.
    rewrite Z.mod_pow2_bits_high by lia. reflexivity.
Qed.

Lemma file_read_byte data pos b :
  0 <= pos -> data !! Z.to_nat pos = Some b ->
  file_read (mkFile data pos) = (byte_to_Z b, mkFile data (pos + 1)).
Proof. intros Hp Hb. unfold file_read. cbn [f_data f_pos]. rewrite Hb. reflexivity. Qed.

(** X1. On a file with two bytes [b0 b1] left at its position [readLE16]
    returns [b0 + 256 * b1] and advances the position by 2; on every file,
    also at its end, the value fits a [uint16_t]. *)
Theorem readLE16_little_endian data pos b0 b1 :
  0 <= pos ->
  data !! Z.to_nat pos = Some b0 ->
  data !! Z.to_nat (pos + 1) = Some b1 ->
  readLE16 (mkFile data pos)
  = (byte_to_Z b0 + 2 ^ 8 * byte_to_Z b1, mkFile data (pos + 2))
  /\ forall f, 0 <= fst (readLE16 f) < 2 ^ 16.
Proof.
  intros Hp H0 H1. split.
  - unfold readLE16.
    rewrite (file_read_byte _ _ _ Hp H0).
    rewrite (file_read_byte data (pos + 1) b1 ltac:(lia) H1).
    pose proof (byte_to_Z_range b0). pose proof (byte_to_Z_range b1).
    rewrite (to_uint16_id (byte_to_Z b1)) by lia.
    rewrite lor_shiftl_add by lia.
    rewrite to_uint16_id by lia.
    f_equal; [lia | f_equal; lia].
  - intros f. unfold readLE16.
    destruct (file_read f) as [a0 f1]. destruct (file_read f1) as [a1 f2].
    cbn [fst]. apply to_uint16_range.
Qed.

Lemma readLE16_little_endian_witness :
  readLE16 (mkFile ["B"; "M"; "x"]%byte 0) = (0x4D42, mkFile ["B"; "M"; "x"]%byte 2).
Proof.
  exact (proj1 (readLE16_little_endian ["B"; "M"; "x"]%byte 0 "B"%byte "M"%byte
                  ltac:(lia) eq_refl eq_refl)).
Defined.

(** X2. On a file with four bytes [b0 b1 b2 b3] left at its position
    [readLE32] returns [b0 + 2^8 * b1 + 2^16 * b2 + 2^24 * b3] and advances
    the position by 4; on every file, also at its end, the value fits a
    [uint32_t]. *)
Theorem readLE32_little_endian data pos b0 b1 b2 b3 :
  0 <= pos ->
  data !! Z.to_nat pos = Some b0 ->
  data !! Z.to_nat (pos + 1) = Some b1 ->
  data !! Z.to_nat (pos + 2) = Some b2 ->
  data !! Z.to_nat (pos + 3) = Some b3 ->
  readLE32 (mkFile data pos)
  = (byte_to_Z b0 + 2 ^ 8 * byte_to_Z b1 + 2 ^ 16 * byte_to_Z b2
     + 2 ^ 24 * byte_to_Z b3, mkFile data (pos + 4))
  /\ forall f, 0 <= fst (readLE32 f) < 2 ^ 32.
Proof.
  intros Hp H0 H1 H2 H3. split.
  - unfold readLE32.
    rewrite (file_read_byte _ _ _ Hp H0).
    rewrite (file_read_byte data (pos + 1) b1 ltac:(lia) H1).
    replace (pos + 1 + 1) with (pos + 2) by lia.
    rewrite (file_read_byte data (pos + 2) b2 ltac:(lia) H2).
    replace (pos + 2 + 1) with (pos + 3) by lia.
    rewrite (file_read_byte data (pos + 3) b3 ltac:(lia) H3).
    replace (pos + 3 + 1) with (pos + 4) by lia.
    pose proof (byte_to_Z_range b0). pose proof (byte_to_Z_range b1).
    pose proof (byte_to_Z_range b2). pose proof (byte_to_Z_range b3).
    rewrite (to_uint32_id (byte_to_Z b0)), (to_uint32_id (byte_to_Z b1)),
      (to_uint32_id (byte_to_Z b2)), (to_uint32_id (byte_to_Z b3)) by lia.
    rewrite !Z.shiftl_mul_pow2 by lia.
    rewrite !to_uint32_id by lia.
    rewrite <- !Z.shiftl_mul_pow2 by lia.
    rewrite (lor_shiftl_add 8) by lia.
    rewrite (lor_shiftl_add 16) by lia.
    rewrite (lor_shiftl_add 24) by lia.
    f_equal. lia.
  - intros f. unfold readLE32.
    destruct (file_read f) as [a0 f1]. destruct (file_read f1) as [a1 f2].
    destruct (file_read f2) as [a2 f3]. destruct (file_read f3) as [a3 f4].
    cbn [fst]. repeat apply lor_range; try lia; apply to_uint32_range.
Qed.

Lemma readLE32_little_endian_witness :
  readLE32 (mkFile ["054"; "001"; "000"; "000"; "x"]%byte 0)
  = (310, mkFile ["054"; "001"; "000"; "000"; "x"]%byte 4).
Proof.
  exact (proj1 (readLE32_little_endian ["054"; "001"; "000"; "000"; "x"]%byte 0
                  "054"%byte "001"%byte "000"%byte "000"%byte
                  ltac:(lia) eq_refl eq_refl eq_refl eq_refl)).
Defined.

(** ** [bmpDimensions] with null pointers *)

(** X3. On a file with a valid signature [bmpDimensions] returns
    [IMAGE_SUCCESS] whichever of its two pointers are null, and stores
    through the non-null ones what it reads in sequence: with a null
    [width] pointer the width field is not consumed, so the value stored
    through [height] is the absolute value of the width field. *)
Theorem bmpDimensions_outputs fs name data ww wh :
  fs name = Some data ->
  field_signature data = 0x4D42 ->
  bmpDimensions fs name ww wh
  = (IMAGE_SUCCESS,
     (if ww then Some (field_width data) else None),
     (if wh then
        Some (if ww then abs32 (field_height data)
              else abs32 (field_width data))
      else None)).
Proof.
  intros Hfs Hsig. unfold bmpDimensions. rewrite (SPIFFS_open_at _ _ _ Hfs).
  rewrite (readLE16_to data 0 2) by lia.
  unfold field_signature in Hsig. rewrite Hsig. cbn [Z.eqb Pos.eqb].
  rewrite (readLE32_to data 2 6) by lia.
  rewrite (readLE32_to data 6 10) by lia.
  rewrite (readLE32_to data 10 14) by lia.
  rewrite (readLE32_to data 14 18) by lia.
  destruct ww, wh.
  - rewrite (readLE32_to data 18 22) by lia.
    rewrite (readLE32_to data 22 26) by lia. reflexivity.
  - rewrite (readLE32_to data 18 22) by lia. reflexivity.
  - rewrite (readLE32_to data 18 22) by lia. reflexivity.
  - reflexivity.
Qed.

Lemma bmpDimensions_outputs_witness :
  let data := bmp_file 2 (-3) 1 24 0 (replicate 24 "007"%byte) in
  let fs := one_file "a.bmp" data in
  bmpDimensions fs "a.bmp" true true = (IMAGE_SUCCESS, Some 2, Some 3)
  /\ bmpDimensions fs "a.bmp" false true = (IMAGE_SUCCESS, None, Some 2).
Proof.
  intros data fs. split.
  - exact (bmpDimensions_outputs fs "a.bmp" data true true eq_refl eq_refl).
  - exact (bmpDimensions_outputs fs "a.bmp" data false true eq_refl eq_refl).
Defined.

(** ** [printStatus] *)

(** X4. [printStatus] adds exactly one line to the stream for every return
    code, and two different codes never print the same line. *)
Theorem printStatus_one_distinct_line stat stat' stream :
  (exists line, printStatus stat stream = stream ++ [line])
  /\ (printStatus stat stream = printStatus stat' stream -> stat = stat').
Proof.
  split.
  - destruct stat; eexists; reflexivity.
  - intros H. unfold printStatus, println in H.
    destruct stat, stat';
      (reflexivity || (exfalso; apply app_inv_head in H; discriminate H)).
Qed.

Lemma printStatus_one_distinct_line_witness :
  printStatus IMAGE_ERR_MALLOC ["Loading"%string]
  = ["Loading"; "Malloc failed (insufficient RAM)."]%string
  /\ (printStatus IMAGE_ERR_MALLOC [] = printStatus IMAGE_ERR_MALLOC [] ->
      IMAGE_ERR_MALLOC = IMAGE_ERR_MALLOC).
Proof.
  split; [reflexivity |].
  exact (proj2 (printStatus_one_distinct_line IMAGE_ERR_MALLOC IMAGE_ERR_MALLOC [])).
Defined.

(** ** [dealloc] and reloading *)

Lemma dealloc_loop_idem n cs :
  dealloc_loop n 0 (dealloc_loop n 0 cs) = dealloc_loop n 0 cs.
Proof.
  apply list_eq. intros j. rewrite dealloc_loop_lookup.
  destruct (decide (0 <= j < 0 + n)%nat) as [Hj | Hj]; [| reflexivity].
  rewrite dealloc_loop_lookup.
  destruct (decide (0 <= j < 0 + n)%nat); [| contradiction].
  destruct (cs !! j); reflexivity.
Qed.

(** X5. Whatever a handle holds, [dealloc] leaves no segment in the slots
    of the array and the format [IMAGE_NONE], keeps the number of slots,
    and a second [dealloc] changes nothing; a handle of [NUM_CANVAS]
    slots becomes the handle the constructor makes. *)
Theorem dealloc_releases_everything img :
  segments (dealloc img) = []
  /\ getFormat (dealloc img) = IMAGE_NONE
  /\ length (canvas (dealloc img)) = length (canvas img)
  /\ dealloc (dealloc img) = dealloc img
  /\ (length (canvas img) = Z.to_nat NUM_CANVAS ->
      dealloc img = SPIFFS_Image_new (img_w img) (img_h img)).
Proof.
  assert (Hnone : forall j c, canvas (dealloc img) !! j = Some (Some c) ->
                    (Z.to_nat NUM_CANVAS <= j)%nat).
  { intros j c Hj. rewrite dealloc_lookup in Hj.
    destruct (decide (j < Z.to_nat NUM_CANVAS)%nat) as [Hlt | Hge]; [| lia].
    destruct (canvas img !! j); discriminate. }
  split.
  { unfold segments.
    assert (Hall : forall l : list (option GFXcanvas16),
              (forall j c, l !! j <> Some (Some c)) -> omap id l = []).
    { induction l as [| [c |] l IH]; intros Hl.
      - reflexivity.
      - exfalso. apply (Hl O c). reflexivity.
      - cbn. apply IH. intros j c. apply (Hl (S j) c). }
    apply Hall. intros j c Hj.
    assert (Hlt := lookup_lt_Some _ _ _ Hj). rewrite length_take in Hlt.
    rewrite lookup_take_lt in Hj by lia.
    apply Hnone in Hj. lia. }
  split; [reflexivity |].
  split; [apply dealloc_loop_length |].
  split.
  { destruct img as [w h cs f]. unfold dealloc. cbn [canvas img_w img_h].
    f_equal. apply dealloc_loop_idem. }
  apply dealloc_new.
Qed.

Lemma dealloc_releases_everything_witness :
  let img := mkImage 2 30 (Some (mkCanvas 2 20 (replicate 40 7))
                             :: replicate 11 None) IMAGE_16 in
  length (canvas img) = Z.to_nat NUM_CANVAS
  /\ dealloc img = SPIFFS_Image_new 2 30.
Proof.
  intros img. split; [reflexivity |].
  exact (proj2 (proj2 (proj2 (proj2 (dealloc_releases_everything img))))
           eq_refl).
Defined.

(** X6. Loading into a handle that already holds an image gives the
    result of loading into a newly constructed handle: the segments and
    the format the handle held have no influence. *)
Theorem loadBMP_forgets_previous_image fs alloc_ok stack name img :
  length (canvas img) = Z.to_nat NUM_CANVAS ->
  loadBMP fs alloc_ok stack name img
  = loadBMP fs alloc_ok stack name (SPIFFS_Image_new (img_w img) (img_h img)).
Proof.
  intros Hlen.
  assert (Hde : dealloc img
                = dealloc (SPIFFS_Image_new (img_w img) (img_h img))).
  { rewrite (dealloc_new img Hlen).
    symmetry. apply (dealloc_new (SPIFFS_Image_new (img_w img) (img_h img))).
    apply length_replicate. }
  unfold loadBMP, coreBMP.
  generalize dependent (dealloc img). intros img0 ->. reflexivity.
Qed.

Lemma loadBMP_forgets_previous_image_witness :
  let img := mkImage 0 0 (Some (mkCanvas 2 20 (replicate 40 7))
                             :: replicate 11 None) IMAGE_16 in
  let fs := one_file "a.bmp" (bmp_file 2 3 1 24 0 (replicate 24 "007"%byte)) in
  length (canvas img) = Z.to_nat NUM_CANVAS
  /\ loadBMP fs (fun _ => true) [] "a.bmp" img
     = loadBMP fs (fun _ => true) [] "a.bmp" (SPIFFS_Image_new 0 0).
Proof.
  intros img fs. split; [reflexivity |].
  exact (loadBMP_forgets_previous_image fs (fun _ => true) [] "a.bmp" img eq_refl).
Defined.

(** ** Status and format *)

Lemma core_decode_failure hd f alloc_ok stack img0 st img' rows :
  core_decode hd f alloc_ok stack img0 = Done st img' rows ->
  st <> IMAGE_SUCCESS ->
  format img' = format img0 /\ rows = [] /\ st <> IMAGE_ERR_FILE_NOT_FOUND.
Proof.
  intros H Hst. unfold core_decode in H.
  destruct ((h_planes hd =? 1) && (h_compression hd =? 0)).
  - destruct (h_depth hd =? 24).
    + destruct (alloc_loop _ _ _ _ _ _) as [cs [|]].
      * destruct (cs !! O) as [[c0 |] |]; [| discriminate ..].
        destruct (16 <=? h_depth hd).
        -- destruct (row_loop _ _ _ _ _); [| discriminate].
           injection H as <- <- <-. contradiction.
        -- injection H as <- <- <-. contradiction.
      * injection H as <- <- <-. repeat split. discriminate.
    + injection H as <- <- <-. repeat split. discriminate.
  - injection H as <- <- <-. repeat split. discriminate.
Qed.

(** X7. When [loadBMP] returns, [getFormat] is [IMAGE_16] exactly when the
    status is [IMAGE_SUCCESS].  After every other status the format is
    [IMAGE_NONE], [width()] and [height()] report 0, [draw] emits no blit
    and no scanline was begun. *)
Theorem format_tells_success fs alloc_ok stack name img st img' rows :
  loadBMP fs alloc_ok stack name img = Done st img' rows ->
  (getFormat img' = IMAGE_16 <-> st = IMAGE_SUCCESS)
  /\ (st <> IMAGE_SUCCESS ->
      getFormat img' = IMAGE_NONE /\ width img' = 0 /\ height img' = 0
      /\ rows = [] /\ forall x y, draw img' x y = []).
Proof.
  intros Hload.
  assert (Hfail : st <> IMAGE_SUCCESS -> format img' = IMAGE_NONE /\ rows = []).
  { intros Hst. unfold loadBMP, coreBMP in Hload.
    destruct (SPIFFS_open fs name) as [f |].
    - destruct (readLE16 f) as [sig f1].
      destruct (sig =? 19778).
      + destruct (parse_header f1) as [hd f2].
        apply core_decode_failure in Hload as (Hf & Hr & _); [| exact Hst].
        split; [rewrite Hf; reflexivity | exact Hr].
      + injection Hload as <- <- <-. split; reflexivity.
    - injection Hload as <- <- <-. split; reflexivity. }
  assert (Hok : st = IMAGE_SUCCESS -> format img' = IMAGE_16).
  { intros ->. unfold loadBMP, coreBMP in Hload.
    destruct (SPIFFS_open fs name) as [f |]; [| discriminate].
    destruct (readLE16 f) as [sig f1].
    destruct (sig =? 19778); [| discriminate].
    destruct (parse_header f1) as [hd f2].
    apply core_decode_success in Hload as (_ & _ & _ & Hf & _). exact Hf. }
  unfold getFormat. split.
  - split.
    + intros H16. destruct st; try reflexivity;
        (destruct Hfail as [Hn _]; [discriminate | congruence]).
    + exact Hok.
  - intros Hst. destruct (Hfail Hst) as [Hn Hr].
    unfold width, height, draw. rewrite Hn. repeat split. exact Hr.
Qed.

Lemma format_tells_success_witness :
  let fs := one_file "h.bmp" (bmp_file 2 3 1 16 0 (replicate 12 "000"%byte)) in
  exists img' rows,
    loadBMP fs (fun _ => true) [] "h.bmp" (SPIFFS_Image_new 7 9)
    = Done IMAGE_ERR_FORMAT img' rows
    /\ getFormat img' = IMAGE_NONE /\ width img' = 0 /\ height img' = 0.
Proof.
  intros fs.
  assert (E : exists img' rows,
             loadBMP fs (fun _ => true) [] "h.bmp" (SPIFFS_Image_new 7 9)
             = Done IMAGE_ERR_FORMAT img' rows)
    by (vm_compute; do 2 eexists; reflexivity).
  destruct E as (img' & rows & E). exists img', rows. split; [exact E |].
  destruct (proj2 (format_tells_success _ _ _ _ _ _ _ _ E))
    as (Hf & Hw & Hh & _); [intros Hc; inversion Hc |].
  repeat split; assumption.
Defined.

(** ** The 5-6-5 packing *)

Lemma byte_facts (P : Z -> bool) :
  forallb P (seqZ 0 256) = true -> forall r, 0 <= r < 256 -> P r = true.
Proof.
  intros Hall r Hr. rewrite forallb_forall in Hall. apply Hall.
  apply list_elem_of_In. apply elem_of_seqZ. lia.
Qed.

Lemma land_F8 r : 0 <= r < 256 -> Z.land r 0xF8 = 8 * (r / 8).
Proof.
  intros Hr. apply Z.eqb_eq.
  apply (byte_facts (fun r => Z.land r 0xF8 =? 8 * (r / 8)));
    [vm_compute; reflexivity | exact Hr].
Qed.

Lemma land_FC g : 0 <= g < 256 -> Z.land g 0xFC = 4 * (g / 4).
Proof.
  intros Hg. apply Z.eqb_eq.
  apply (byte_facts (fun g => Z.land g 0xFC =? 4 * (g / 4)));
    [vm_compute; reflexivity | exact Hg].
Qed.

Lemma color565_sum r g b :
  0 <= r < 256 -> 0 <= g < 256 -> 0 <= b < 256 ->
  color565 r g b = 2048 * (r / 8) + 32 * (g / 4) + b / 8.
Proof.
  intros Hr Hg Hb. unfold color565.
  rewrite land_F8, land_FC by assumption.
  rewrite Z.shiftr_div_pow2 by lia.
  rewrite !Z.shiftl_mul_pow2 by lia.
  change (2 ^ 8) with 256. change (2 ^ 3) with 8.
  replace (8 * (r / 8) * 256) with ((r / 8) * 2 ^ 11) by lia.
  replace (4 * (g / 4) * 8) with ((g / 4) * 2 ^ 5) by lia.
  rewrite <- !Z.shiftl_mul_pow2 by lia.
  rewrite (Z.lor_comm (Z.shiftl (r / 8) 11)).
  rewrite (Z.lor_comm (Z.lor _ _) (b / 8)), Z.lor_assoc.
  assert (0 <= b / 8 < 32) by zlia.
  assert (0 <= g / 4 < 64) by zlia.
  assert (0 <= r / 8 < 32) by zlia.
  rewrite (lor_shiftl_add 5) by lia.
  rewrite (lor_shiftl_add 11) by lia.
  rewrite to_uint16_id by lia. lia.
Qed.

(** X8. For three bytes the packed value fits 16 bits and keeps the
    leading bits of each channel: its bits 15..11 are the five leading
    bits of red, its bits 10..5 the six leading bits of green and its
    bits 4..0 the five leading bits of blue. *)
Theorem color565_fields r g b :
  0 <= r < 256 -> 0 <= g < 256 -> 0 <= b < 256 ->
  0 <= color565 r g b < 2 ^ 16
  /\ Z.shiftr (color565 r g b) 11 = Z.shiftr r 3
  /\ Z.land (Z.shiftr (color565 r g b) 5) 0x3F = Z.shiftr g 2
  /\ Z.land (color565 r g b) 0x1F = Z.shiftr b 3.
Proof.
  intros Hr Hg Hb. rewrite (color565_sum r g b Hr Hg Hb).
  rewrite !Z.shiftr_div_pow2 by lia.
  change 0x3F with (Z.ones 6). change 0x1F with (Z.ones 5).
  rewrite !Z.land_ones by lia.
  change (2 ^ 11) with 2048. change (2 ^ 5) with 32. change (2 ^ 6) with 64.
  change (2 ^ 3) with 8. change (2 ^ 2) with 4.
  repeat split; zlia.
Qed.

Lemma color565_fields_witness :
  color565 255 128 8 = 0xFC01
  /\ Z.shiftr (color565 255 128 8) 11 = Z.shiftr 255 3.
Proof.
  split; [reflexivity |].
  exact (proj1 (proj2 (color565_fields 255 128 8 ltac:(lia) ltac:(lia)
                         ltac:(lia)))).
Defined.

(** ** The row stride *)

(** X9. For a depth and a width whose product fits an [int], [rowSize] is
    a multiple of 4 bytes that holds the [depth * width] bits of a row
    with less than 4 bytes of padding. *)
Theorem row_size_padding depth W :
  0 <= depth -> 0 <= W -> depth * W + 31 < 2 ^ 31 ->
  row_size depth W mod 4 = 0
  /\ depth * W <= 8 * row_size depth W < depth * W + 32.
Proof.
  intros Hd HW Hfit. unfold row_size.
  assert (0 <= depth * W) by nia.
  rewrite (to_int32_id (depth * W)) by lia.
  rewrite (to_int32_id (depth * W + 31)) by lia.
  rewrite Z.quot_div_nonneg by lia.
  set (bits := depth * W) in *.
  assert (Hq : 0 <= (bits + 31) / 32 * 4 < 2 ^ 31) by zlia.
  rewrite to_int32_id by lia. rewrite to_uint32_id by lia.
  split; [apply Z.mod_mul; lia | zlia].
Qed.

Lemma row_size_padding_witness :
  row_size 24 199 = 600 /\ row_size 24 199 mod 4 = 0.
Proof.
  split; [reflexivity |].
  exact (proj1 (row_size_padding 24 199 ltac:(lia) ltac:(lia) ltac:(lia))).
Defined.

(** ** Segments past the image *)

Lemma seg_heights_past n : forall rem j,
  0 < rem < 2 ^ 16 -> rem mod CANVAS_HEIGHT <> 0 -> (n <= 12)%nat ->
  (j < n)%nat -> rem < CANVAS_HEIGHT * Z.of_nat j ->
  seg_heights n rem !! j = Some CANVAS_HEIGHT.
Proof.
  unfold CANVAS_HEIGHT.
  induction n as [| n IH]; intros rem j Hrem Hmod Hn Hj Hlt; [lia |].
  cbn [seg_heights]. unfold CANVAS_HEIGHT.
  destruct (Z.ltb_spec 0 rem); [| lia].
  destruct j as [| j]; [lia |]. cbn [lookup list_lookup].
  destruct (Z_lt_le_dec 20 rem).
  - rewrite to_uint16_id by lia.
    change (seg_heights n (rem - 20) !! j = Some 20).
    pose proof (IH (rem - 20) j) as IH'. unfold CANVAS_HEIGHT in IH'.
    apply IH'; try lia.
    replace (rem - 20) with (rem + (-1) * 20) by lia.
    rewrite Z.mod_add by lia. exact Hmod.
  - assert (rem <> 20) by (intros ->; apply Hmod; reflexivity).
    unfold to_uint16.
    replace ((rem - 20) mod 2 ^ 16) with (rem - 20 + 2 ^ 16).
    2:{ symmetry. rewrite <- (Z.mod_add _ 1) by lia.
        apply Z.mod_small. lia. }
    pose proof (seg_heights_wrapped n (rem - 20 + 2 ^ 16)) as Hw.
    unfold CANVAS_HEIGHT in Hw.
    change (seg_heights n (rem - 20 + 2 ^ 16) !! j = Some 20).
    rewrite Hw by lia.
    apply lookup_replicate_2. lia.
Qed.

(** X10. When the height is not a multiple of [CANVAS_HEIGHT] the 16-bit
    [remainingHeight] wraps around below zero, so the allocation loop does
    not stop after the segments of the image: with every allocation
    succeeding it fills each of the [NUM_CANVAS] slots, and the slots past
    the image hold segments of [CANVAS_HEIGHT] rows. *)
Theorem allocation_fills_every_slot alloc_ok W H :
  (forall j, alloc_ok j = true) ->
  0 < H < 2 ^ 16 ->
  H mod CANVAS_HEIGHT <> 0 ->
  let cs := fst (alloc_loop (Z.to_nat NUM_CANVAS) 0 alloc_ok W H
                   (replicate (Z.to_nat NUM_CANVAS) None)) in
  Z.of_nat (length (omap id cs)) = NUM_CANVAS
  /\ (forall i, H / CANVAS_HEIGHT < i < NUM_CANVAS ->
        cs !! Z.to_nat i = Some (Some (new_GFXcanvas16 W CANVAS_HEIGHT)))
  /\ (H / CANVAS_HEIGHT < NUM_CANVAS ->
      cs !! Z.to_nat (H / CANVAS_HEIGHT)
      = Some (Some (new_GFXcanvas16 W (H mod CANVAS_HEIGHT)))).
Proof.
  intros Hok HH Hmod cs. subst cs.
  rewrite (alloc_loop_ok alloc_ok W _ _ _ _ Hok). cbn [fst].
  pose proof (seg_heights_not_multiple (Z.to_nat NUM_CANVAS) H ltac:(lia) Hmod
                ltac:(unfold NUM_CANVAS; lia)) as Hlen.
  rewrite put_canvases_fresh by lia. rewrite Hlen, Nat.sub_diag.
  cbn [replicate]. rewrite app_nil_r.
  split; [| split].
  - replace ((fun h => Some (new_GFXcanvas16 W h))
               <$> seg_heights (Z.to_nat NUM_CANVAS) H)
      with (Some <$> (new_GFXcanvas16 W <$> seg_heights (Z.to_nat NUM_CANVAS) H))
      by (symmetry; apply (list_fmap_compose (new_GFXcanvas16 W) Some)).
    rewrite <- (app_nil_r (Some <$> _)).
    change (@nil (option GFXcanvas16)) with (replicate 0 (@None GFXcanvas16)).
    rewrite omap_id_fresh, length_fmap, Hlen. unfold NUM_CANVAS. lia.
  - intros i Hi. rewrite list_lookup_fmap.
    assert (0 <= H / CANVAS_HEIGHT) by (unfold CANVAS_HEIGHT; zlia).
    rewrite seg_heights_past;
      [reflexivity | lia | exact Hmod | unfold NUM_CANVAS; lia
      | unfold NUM_CANVAS in *; lia | unfold CANVAS_HEIGHT in *; zlia].
  - intros Hq. rewrite list_lookup_fmap.
    assert (0 <= H / CANVAS_HEIGHT) by (unfold CANVAS_HEIGHT; zlia).
    rewrite seg_heights_lookup;
      [| lia | unfold NUM_CANVAS in *; lia | unfold CANVAS_HEIGHT in *; zlia].
    cbn. do 3 f_equal. unfold CANVAS_HEIGHT in *. zlia.
Qed.

Lemma allocation_fills_every_slot_witness :
  let cs := fst (alloc_loop (Z.to_nat NUM_CANVAS) 0 (fun _ => true) 2 30
                   (replicate (Z.to_nat NUM_CANVAS) None)) in
  Z.of_nat (length (omap id cs)) = NUM_CANVAS
  /\ cs !! 1%nat = Some (Some (new_GFXcanvas16 2 10))
  /\ cs !! 5%nat = Some (Some (new_GFXcanvas16 2 20)).
Proof.
  intros cs.
  destruct (allocation_fills_every_slot (fun _ => true) 2 30
              (fun _ => eq_refl) ltac:(lia) ltac:(vm_compute; discriminate))
    as (Hn & Hpast & Hshort).
  split; [exact Hn |]. split.
  - exact (Hshort ltac:(vm_compute; reflexivity)).
  - exact (Hpast 5 ltac:(vm_compute; split; reflexivity)).
Defined.

(** ** A height that is a multiple of [CANVAS_HEIGHT] *)

Lemma pixel_loop_snoc n : forall st,
  pixel_loop (S n) st
  = match pixel_loop n st with
    | Some st' => pixel_body st'
    | None => None
    end.
Proof.
  induction n as [| n IH]; intros st.
  - cbn [pixel_loop]. destruct (pixel_body st); reflexivity.
  - change (pixel_loop (S (S n)) st)
      with (match pixel_body st with
            | Some st1 => pixel_loop (S n) st1
            | None => None
            end).
    change (pixel_loop (S n) st)
      with (match pixel_body st with
            | Some st1 => pixel_loop n st1
            | None => None
            end).
    destruct (pixel_body st) as [st1 |]; [apply IH | reflexivity].
Qed.

(** A slot keeps its shape, and a null slot stays null. *)
Lemma frame_lookup st0 st i :
  same_frame st0 st ->
  shape_of <$> canvas (d_img st) !! i = shape_of <$> canvas (d_img st0) !! i.
Proof.
  intros (_ & _ & _ & Hsh & _). unfold shapes in Hsh.
  rewrite <- !list_lookup_fmap, Hsh. reflexivity.
Qed.

Lemma frame_lookup_Some st0 st i c0 :
  same_frame st0 st ->
  canvas (d_img st0) !! i = Some (Some c0) ->
  exists c, canvas (d_img st) !! i = Some (Some c)
    /\ c_width c = c_width c0 /\ c_height c = c_height c0
    /\ length (c_buffer c) = length (c_buffer c0).
Proof.
  intros Hf H0. pose proof (frame_lookup st0 st i Hf) as E.
  rewrite H0 in E.
  destruct (canvas (d_img st) !! i) as [[c |] |]; try discriminate.
  cbn in E. injection E as Hw Hh Hl. eauto.
Qed.

Lemma frame_lookup_null st0 st i :
  same_frame st0 st ->
  canvas (d_img st0) !! i = Some None ->
  canvas (d_img st) !! i = Some None.
Proof.
  intros Hf H0. pose proof (frame_lookup st0 st i Hf) as E.
  rewrite H0 in E.
  destruct (canvas (d_img st) !! i) as [[c |] |]; try discriminate.
  reflexivity.
Qed.

(** The three ways a pixel ends: room is left in the segment, the segment
    is full and the next slot holds a segment, the segment is full and the
    next slot is null. *)
Lemma pixel_body_room st c :
  canvas (d_img st) !! d_cur st = Some (Some c) ->
  0 <= d_destidx st ->
  d_destidx st + 1 < c_width c * c_height c ->
  Z.of_nat (length (c_buffer c)) = c_width c * c_height c ->
  c_width c * c_height c < 2 ^ 32 ->
  exists st', pixel_body st = Some st'
    /\ d_destidx st' = d_destidx st + 1
    /\ d_cci st' = d_cci st /\ d_cur st' = d_cur st.
Proof.
  intros Hc Hd0 Hroom Hlen Hcap. unfold pixel_body.
  destruct (SDBUF_SIZE <=? d_srcidx st); cbn [file_read_buf];
    rewrite Hc;
    (replace (d_destidx st <? Z.of_nat (length (c_buffer c))) with true
       by (symmetry; apply Z.ltb_lt; lia));
    cbn [c_width c_height];
    rewrite (to_uint32_id (c_width c * c_height c)) by lia;
    (replace (c_width c * c_height c <=? d_destidx st + 1) with false
       by (symmetry; apply Z.leb_gt; lia));
    eexists; (split; [reflexivity |]); cbn; repeat split.
Qed.

Lemma pixel_body_next st c c2 :
  canvas (d_img st) !! d_cur st = Some (Some c) ->
  0 <= d_destidx st ->
  d_destidx st + 1 = c_width c * c_height c ->
  Z.of_nat (length (c_buffer c)) = c_width c * c_height c ->
  c_width c * c_height c < 2 ^ 32 ->
  to_uint8 (d_cci st + 1) < NUM_CANVAS ->
  Z.to_nat (to_uint8 (d_cci st + 1)) <> d_cur st ->
  canvas (d_img st) !! Z.to_nat (to_uint8 (d_cci st + 1)) = Some (Some c2) ->
  exists st', pixel_body st = Some st'
    /\ d_destidx st' = 0
    /\ d_cci st' = to_uint8 (d_cci st + 1)
    /\ d_cur st' = Z.to_nat (to_uint8 (d_cci st + 1)).
Proof.
  intros Hc Hd0 Hfull Hlen Hcap Hlt Hne Hnext. unfold pixel_body.
  destruct (SDBUF_SIZE <=? d_srcidx st); cbn [file_read_buf];
    rewrite Hc;
    (replace (d_destidx st <? Z.of_nat (length (c_buffer c))) with true
       by (symmetry; apply Z.ltb_lt; lia));
    cbn [c_width c_height];
    rewrite (to_uint32_id (c_width c * c_height c)) by lia;
    (replace (c_width c * c_height c <=? d_destidx st + 1) with true
       by (symmetry; apply Z.leb_le; lia));
    (replace (to_uint8 (d_cci st + 1) <? NUM_CANVAS) with true
       by (symmetry; apply Z.ltb_lt; exact Hlt));
    unfold set_canvas; cbn [canvas];
    rewrite list_lookup_insert_ne by (intros E; apply Hne; symmetry; exact E);
    rewrite Hnext;
    eexists; (split; [reflexivity |]); cbn; repeat split.
Qed.

Lemma pixel_body_null st c :
  canvas (d_img st) !! d_cur st = Some (Some c) ->
  0 <= d_destidx st ->
  d_destidx st + 1 = c_width c * c_height c ->
  Z.of_nat (length (c_buffer c)) = c_width c * c_height c ->
  c_width c * c_height c < 2 ^ 32 ->
  to_uint8 (d_cci st + 1) < NUM_CANVAS ->
  Z.to_nat (to_uint8 (d_cci st + 1)) <> d_cur st ->
  canvas (d_img st) !! Z.to_nat (to_uint8 (d_cci st + 1)) = Some None ->
  pixel_body st = None.
Proof.
  intros Hc Hd0 Hfull Hlen Hcap Hlt Hne Hnext. unfold pixel_body.
  destruct (SDBUF_SIZE <=? d_srcidx st); cbn [file_read_buf];
    rewrite Hc;
    (replace (d_destidx st <? Z.of_nat (length (c_buffer c))) with true
       by (symmetry; apply Z.ltb_lt; lia));
    cbn [c_width c_height];
    rewrite (to_uint32_id (c_width c * c_height c)) by lia;
    (replace (c_width c * c_height c <=? d_destidx st + 1) with true
       by (symmetry; apply Z.leb_le; lia));
    (replace (to_uint8 (d_cci st + 1) <? NUM_CANVAS) with true
       by (symmetry; apply Z.ltb_lt; exact Hlt));
    unfold set_canvas; cbn [canvas];
    rewrite list_lookup_insert_ne by (intros E; apply Hne; symmetry; exact E);
    rewrite Hnext; reflexivity.
Qed.

Lemma pixel_loop_room n : forall st c,
  canvas (d_img st) !! d_cur st = Some (Some c) ->
  0 <= d_destidx st ->
  d_destidx st + Z.of_nat n < c_width c * c_height c ->
  Z.of_nat (length (c_buffer c)) = c_width c * c_height c ->
  c_width c * c_height c < 2 ^ 32 ->
  exists st', pixel_loop n st = Some st'
    /\ d_destidx st' = d_destidx st + Z.of_nat n
    /\ d_cci st' = d_cci st /\ d_cur st' = d_cur st.
Proof.
  induction n as [| n IH]; intros st c Hc Hd0 Hroom Hlen Hcap.
  - exists st. cbn [pixel_loop Z.of_nat]. rewrite Z.add_0_r. auto.
  - cbn [pixel_loop].
    destruct (pixel_body_room st c Hc Hd0 ltac:(lia) Hlen Hcap)
      as (st1 & Hstep & Hd1 & Hcci1 & Hcur1).
    rewrite Hstep.
    apply pixel_body_frame in Hstep as [Hframe _].
    destruct (frame_lookup_Some st st1 (d_cur st) c Hframe Hc)
      as (c1 & Hc1 & Hw1 & Hh1 & Hl1).
    rewrite <- Hcur1 in Hc1.
    destruct (IH st1 c1 Hc1) as (st' & Hloop & Hd' & Hcci' & Hcur');
      [lia | rewrite Hw1, Hh1; lia | rewrite Hw1, Hh1, Hl1; exact Hlen
      | rewrite Hw1, Hh1; exact Hcap |].
    exists st'. split; [exact Hloop |].
    split; [lia |]. split; congruence.
Qed.

Lemma row_body_pixels hd rowSize row st :
  exists file srcidx rows,
    row_body hd rowSize row st
    = pixel_loop (Z.to_nat (h_bmpWidth hd))
        (mkState file (d_sdbuf st) srcidx (d_destidx st) (d_cci st)
                 (d_cur st) (d_img st) rows)
    /\ f_data file = f_data (d_file st).
Proof.
  unfold row_body.
  destruct (file_position (d_file st) =? row_pos hd rowSize row);
    do 3 eexists; split; reflexivity.
Qed.

Lemma last_row_of_segment r H :
  0 <= r < H -> H mod CANVAS_HEIGHT = 0 ->
  0 <= r / CANVAS_HEIGHT < H / CANVAS_HEIGHT
  /\ 0 <= r mod CANVAS_HEIGHT < CANVAS_HEIGHT
  /\ (r + 1 = H ->
      r mod CANVAS_HEIGHT + 1 = CANVAS_HEIGHT
      /\ r / CANVAS_HEIGHT + 1 = H / CANVAS_HEIGHT)
  /\ (r + 1 < H -> r mod CANVAS_HEIGHT + 1 = CANVAS_HEIGHT ->
      r / CANVAS_HEIGHT + 1 < H / CANVAS_HEIGHT).
Proof. unfold CANVAS_HEIGHT. intros Hr Hm. repeat split; zlia. Qed.

Section FullLastSegment.

Variables (hd : BmpHeaderInfo) (st0 : dstate) (rs : Z).

Let W := h_bmpWidth hd.
Let H := h_bmpHeight hd.

Hypothesis HW : 0 < W < 2 ^ 16.
Hypothesis HH : 0 < H < NUM_CANVAS * CANVAS_HEIGHT.
Hypothesis Hmult : H mod CANVAS_HEIGHT = 0.
Hypothesis Hslots0 : forall i, 0 <= i < H / CANVAS_HEIGHT ->
  exists c, canvas (d_img st0) !! Z.to_nat i = Some (Some c)
    /\ c_width c = W /\ c_height c = CANVAS_HEIGHT
    /\ Z.of_nat (length (c_buffer c)) = W * CANVAS_HEIGHT.
Hypothesis Hnull0 :
  canvas (d_img st0) !! Z.to_nat (H / CANVAS_HEIGHT) = Some None.

Lemma control_slot st i :
  same_frame st0 st -> 0 <= i < H / CANVAS_HEIGHT ->
  exists c, canvas (d_img st) !! Z.to_nat i = Some (Some c)
    /\ c_width c = W /\ c_height c = CANVAS_HEIGHT
    /\ Z.of_nat (length (c_buffer c)) = W * CANVAS_HEIGHT.
Proof.
  intros Hf Hi.
  destruct (Hslots0 i Hi) as (c0 & Hc0 & Hw0 & Hh0 & Hl0).
  destruct (frame_lookup_Some st0 st _ c0 Hf Hc0) as (c & Hc & Hw & Hh & Hl).
  exists c. split; [exact Hc |].
  rewrite Hw, Hh, Hl. auto.
Qed.

Lemma row_body_control r st :
  0 <= r < H -> control_inv W st0 r st ->
  (r + 1 < H ->
   exists st', row_body hd rs r st = Some st' /\ control_inv W st0 (r + 1) st')
  /\ (r + 1 = H -> row_body hd rs r st = None).
Proof.
  intros Hr (Hframe & Hcci & Hcur & Hdidx).
  destruct (last_row_of_segment r H Hr Hmult) as (Hq & Hm & Hlast & Hmid).
  set (q := r / CANVAS_HEIGHT) in *.
  set (m := r mod CANVAS_HEIGHT) in *.
  assert (Hq12 : H / CANVAS_HEIGHT < NUM_CANVAS).
  { clear - HH. unfold NUM_CANVAS, CANVAS_HEIGHT in *. zlia. }
  destruct (control_slot st q Hframe Hq) as (c & Hc & Hcw & Hch & Hcl).
  assert (Hbody : forall st', row_body hd rs r st = Some st' ->
                              same_frame st0 st').
  { intros st' E. apply row_body_frame in E as [E _].
    eapply same_frame_trans; eassumption. }
  destruct (row_body_pixels hd rs r st) as (file & srcidx & rows & Hrow & Hfile).
  fold W in Hrow.
  replace (Z.to_nat W) with (S (Z.to_nat (W - 1))) in Hrow
    by (clear - HW; lia).
  rewrite pixel_loop_snoc in Hrow.
  set (sts := mkState file (d_sdbuf st) srcidx (d_destidx st) (d_cci st)
                      (d_cur st) (d_img st) rows) in *.
  assert (Hcap : W * CANVAS_HEIGHT < 2 ^ 32).
  { clear - HW. unfold CANVAS_HEIGHT. lia. }
  assert (HmW : 0 <= m * W /\ m * W + W <= W * CANVAS_HEIGHT).
  { apply seg_row_fits; [exact Hm | clear - HW; lia]. }
  destruct (pixel_loop_room (Z.to_nat (W - 1)) sts c)
    as (st1 & Hloop & Hd1 & Hcci1 & Hcur1).
  { cbn [sts d_img d_cur]. rewrite Hcur. exact Hc. }
  { cbn [sts d_destidx]. rewrite Hdidx. apply HmW. }
  { cbn [sts d_destidx]. rewrite Hdidx, Hcw, Hch, Z2Nat.id by (clear - HW; lia).
    clear - HmW. lia. }
  { rewrite Hcl, Hcw, Hch. reflexivity. }
  { rewrite Hcw, Hch. exact Hcap. }
  rewrite Hloop in Hrow.
  cbn [sts d_destidx d_cci d_cur] in Hd1, Hcci1, Hcur1.
  rewrite Z2Nat.id in Hd1 by (clear - HW; lia).
  rewrite Hdidx in Hd1. rewrite Hcci in Hcci1. rewrite Hcur in Hcur1.
  assert (Hframe1 : same_frame st0 st1).
  { apply pixel_loop_frame in Hloop as [Hl _].
    eapply same_frame_trans; [exact Hframe |].
    unfold same_frame in *. cbn [sts d_img d_file] in Hl.
    destruct Hl as (H1 & H2 & H3 & H4 & H5).
    repeat split; try assumption. congruence. }
  destruct (control_slot st1 q Hframe1 Hq) as (c1 & Hc1 & Hcw1 & Hch1 & Hcl1).
  rewrite <- Hcur1 in Hc1.
  assert (Hu8 : to_uint8 (d_cci st1 + 1) = q + 1).
  { rewrite Hcci1. apply to_uint8_id. clear - Hq Hq12.
    unfold NUM_CANVAS in *. lia. }
  destruct (Z.eq_dec (m + 1) CANVAS_HEIGHT) as [Hfull | Hroom].
  - (* the scanline fills the segment *)
    assert (Hne : Z.to_nat (to_uint8 (d_cci st1 + 1)) <> d_cur st1).
    { rewrite Hu8, Hcur1. clear - Hq. lia. }
    assert (Hfull1 : d_destidx st1 + 1 = c_width c1 * c_height c1).
    { rewrite Hd1, Hcw1, Hch1. clear - Hfull. nia. }
    destruct (Z.eq_dec (r + 1) H) as [Hend | Hmore].
    + split; [intros Hlt; clear - Hlt Hend; lia |]. intros _.
      rewrite Hrow.
      apply (pixel_body_null st1 c1 Hc1); try assumption.
      * rewrite Hd1. clear - HmW HW. lia.
      * rewrite Hcl1, Hcw1, Hch1. reflexivity.
      * rewrite Hcw1, Hch1. exact Hcap.
      * rewrite Hu8. destruct (Hlast Hend) as [_ E]. clear - E Hq12. lia.
      * rewrite Hu8. destruct (Hlast Hend) as [_ E]. rewrite E.
        apply (frame_lookup_null st0 st1 _ Hframe1 Hnull0).
    + assert (Hlt : r + 1 < H) by (clear - Hr Hmore; lia).
      split; [| intros Hend; contradiction]. intros _.
      specialize (Hmid Hlt Hfull).
      destruct (control_slot st1 (q + 1) Hframe1 ltac:(clear - Hq Hmid; lia))
        as (c2 & Hc2 & _).
      destruct (pixel_body_next st1 c1 c2 Hc1) as (st' & Hstep & Hd' & Hcci' & Hcur');
        try assumption.
      * rewrite Hd1. clear - HmW HW. lia.
      * rewrite Hcl1, Hcw1, Hch1. reflexivity.
      * rewrite Hcw1, Hch1. exact Hcap.
      * rewrite Hu8. clear - Hmid Hq12. lia.
      * rewrite Hu8. exact Hc2.
      * exists st'. rewrite Hrow. split; [exact Hstep |].
        destruct (next_row_new_segment r (proj1 Hr) Hfull) as [Hq1 Hm1].
        unfold control_inv. rewrite Hq1, Hm1. fold q.
        split; [apply Hbody; rewrite Hrow; exact Hstep |].
        rewrite Hcci', Hcur', Hd', Hu8. repeat split.
  - (* room is left in the segment *)
    assert (Hlt : r + 1 < H).
    { destruct (Z.eq_dec (r + 1) H) as [Hend | Hmore];
        [destruct (Hlast Hend); contradiction | clear - Hr Hmore; lia]. }
    split; [| intros Hend; clear - Hlt Hend; lia]. intros _.
    destruct (pixel_body_room st1 c1 Hc1) as (st' & Hstep & Hd' & Hcci' & Hcur').
    + rewrite Hd1. clear - HmW HW. lia.
    + rewrite Hd1, Hcw1, Hch1. clear - Hroom Hm HW. unfold CANVAS_HEIGHT in *. nia.
    + rewrite Hcl1, Hcw1, Hch1. reflexivity.
    + rewrite Hcw1, Hch1. exact Hcap.
    + exists st'. rewrite Hrow. split; [exact Hstep |].
      destruct (next_row_same_segment r (proj1 Hr) Hroom) as [Hq1 Hm1].
      unfold control_inv. rewrite Hq1, Hm1. fold q m.
      split; [apply Hbody; rewrite Hrow; exact Hstep |].
      rewrite Hcci', Hcur', Hd', Hd1, Hcci1, Hcur1.
      repeat split. clear. lia.
Qed.

(** The scanline loop runs into the null slot. *)
Lemma row_loop_null n : forall r st,
  Z.of_nat n = H - r -> 0 <= r < H -> control_inv W st0 r st ->
  row_loop n hd rs r st = None.
Proof.
  induction n as [| n IH]; intros r st Hn Hr Hinv; [lia |].
  cbn [row_loop].
  destruct (last_row_of_segment r H Hr Hmult) as (Hq & _).
  pose proof Hinv as (_ & Hcci & _).
  replace (d_cci st <? NUM_CANVAS) with true
    by (symmetry; apply Z.ltb_lt; rewrite Hcci; clear - Hq HH;
        unfold NUM_CANVAS, CANVAS_HEIGHT in *; zlia).
  destruct (row_body_control r st Hr Hinv) as [Hmore Hend].
  destruct (Z.eq_dec (r + 1) H) as [He | Hne].
  - rewrite (Hend He). reflexivity.
  - destruct (Hmore ltac:(clear - Hr Hne; lia)) as (st' & Hbody & Hinv').
    rewrite Hbody. apply IH; [lia | lia | exact Hinv'].
Qed.

End FullLastSegment.

Lemma null_slot_after_multiple W H :
  0 < H < NUM_CANVAS * CANVAS_HEIGHT -> H mod CANVAS_HEIGHT = 0 ->
  let cs := put_canvases 0 W (seg_heights (Z.to_nat NUM_CANVAS) H)
                         (replicate (Z.to_nat NUM_CANVAS) None) in
  (forall i, 0 <= i < H / CANVAS_HEIGHT ->
     cs !! Z.to_nat i = Some (Some (new_GFXcanvas16 W CANVAS_HEIGHT)))
  /\ cs !! Z.to_nat (H / CANVAS_HEIGHT) = Some None.
Proof.
  intros HH Hm cs. subst cs.
  assert (Hk : 0 < H / CANVAS_HEIGHT < NUM_CANVAS).
  { clear - HH Hm. unfold NUM_CANVAS, CANVAS_HEIGHT in *. zlia. }
  rewrite seg_heights_multiple
    by (try exact Hm; clear - HH; unfold NUM_CANVAS, CANVAS_HEIGHT in *; lia).
  replace (Nat.min (Z.to_nat NUM_CANVAS) (Z.to_nat (H / CANVAS_HEIGHT)))
    with (Z.to_nat (H / CANVAS_HEIGHT)) by lia.
  rewrite put_canvases_fresh by (rewrite length_replicate; lia).
  rewrite length_replicate, fmap_replicate.
  split.
  - intros i Hi. rewrite lookup_app_l by (rewrite length_replicate; lia).
    apply lookup_replicate_2. lia.
  - rewrite lookup_app_r by (rewrite length_replicate; lia).
    rewrite length_replicate, Nat.sub_diag.
    apply lookup_replicate_2. lia.
Qed.

(** X12. A 24-bit uncompressed image whose height is a multiple of
    [CANVAS_HEIGHT] below [NUM_CANVAS * CANVAS_HEIGHT] cannot be loaded:
    the allocation loop stops after the segments of the image, and the
    last pixel of the last row, which fills the last segment, makes the
    pixel loop switch to the next slot and call [getBuffer] through its
    null pointer.  This holds whatever the pixel array holds, for either
    row order, and also when the file ends before the pixel array. *)
Theorem loadBMP_null_segment_after_full_image fs alloc_ok stack name img data :
  fs name = Some data ->
  length (canvas img) = Z.to_nat NUM_CANVAS ->
  (forall j, alloc_ok j = true) ->
  field_signature data = 0x4D42 ->
  (field_planes data =? 1) && (field_compression data =? 0)
    && (field_depth data =? 24) = true ->
  let hd := header_of data in
  let W := h_bmpWidth hd in
  let H := h_bmpHeight hd in
  0 < W < 2 ^ 16 ->
  0 < H < NUM_CANVAS * CANVAS_HEIGHT ->
  H mod CANVAS_HEIGHT = 0 ->
  loadBMP fs alloc_ok stack name img = Fault.
Proof.
  intros Hfs Hlen Hok Hsig Hsup hd W H HW HH Hm.
  assert (HH16 : 0 <= H < 2 ^ 16).
  { clear - HH. unfold NUM_CANVAS, CANVAS_HEIGHT in *. lia. }
  unfold loadBMP. rewrite (coreBMP_at _ _ _ _ _ _ Hfs), Hsig.
  cbn [Z.eqb Pos.eqb].
  rewrite core_decode_supported by exact Hsup. fold hd W H.
  rewrite (alloc_loop_ok alloc_ok W _ _ _ _ Hok).
  rewrite (dealloc_canvas img Hlen).
  rewrite (to_uint16_id H) by exact HH16. rewrite (to_uint16_id W) by lia.
  destruct (null_slot_after_multiple W H HH Hm) as [Hslots Hnull].
  set (cs := put_canvases 0 W (seg_heights (Z.to_nat NUM_CANVAS) H)
                          (replicate (Z.to_nat NUM_CANVAS) None)) in *.
  assert (Hk : 0 < H / CANVAS_HEIGHT).
  { clear - HH Hm. unfold NUM_CANVAS, CANVAS_HEIGHT in *. zlia. }
  pose proof (Hslots 0 ltac:(lia)) as Hc0.
  change (Z.to_nat 0) with O in Hc0. rewrite Hc0.
  set (st0 := mkState (file_at data (header_end data)) (init_sdbuf stack)
                      SDBUF_SIZE 0 0 O (mkImage W H cs IMAGE_16) []).
  rewrite (row_loop_null hd st0 (row_size 24 W) HW HH Hm) ; [reflexivity | | | lia | lia |].
  - intros i Hi. cbn [st0 d_img canvas]. rewrite (Hslots i Hi).
    destruct (new_GFXcanvas16_shape W CANVAS_HEIGHT) as (Hnw & Hnh & Hnl);
      [unfold CANVAS_HEIGHT; lia |].
    eexists. split; [reflexivity |].
    rewrite Hnl, Hnw, Hnh, (to_uint16_id W) by lia. repeat split.
  - exact Hnull.
  - unfold control_inv. split; [apply same_frame_refl |].
    cbn [st0 d_cci d_cur d_destidx]. repeat split.
Qed.

Lemma loadBMP_null_segment_after_full_image_witness :
  let data := bmp_file 2 20 1 24 0 [] in
  loadBMP (one_file "a.bmp" data) (fun _ => true) [] "a.bmp"
          (SPIFFS_Image_new 0 0)
  = Fault.
Proof.
  intros data.
  apply (loadBMP_null_segment_after_full_image _ _ _ _ _ data);
    [reflexivity | reflexivity | reflexivity | reflexivity | reflexivity
    | vm_compute; split; reflexivity | vm_compute; split; reflexivity
    | vm_compute; reflexivity].
Defined.

(** ** Degenerate heights and allocation failures *)

(** X13. A supported image whose height has its low 16 bits clear, as a
    height of 0 has, is never loaded: the allocation loop does not run,
    [allDestsCreated] stays set, and [getBuffer] is called through the null
    pointer of slot 0.  No allocation is attempted, so the outcome does
    not depend on the allocator. *)
Theorem loadBMP_zero_height fs alloc_ok stack name img data :
  fs name = Some data ->
  field_signature data = 0x4D42 ->
  (field_planes data =? 1) && (field_compression data =? 0)
    && (field_depth data =? 24) = true ->
  to_uint16 (h_bmpHeight (header_of data)) = 0 ->
  loadBMP fs alloc_ok stack name img = Fault.
Proof.
  intros Hfs Hsig Hsup Hz.
  unfold loadBMP. rewrite (coreBMP_at _ _ _ _ _ _ Hfs), Hsig.
  cbn [Z.eqb Pos.eqb].
  rewrite core_decode_supported by exact Hsup.
  rewrite Hz, alloc_loop_zero.
  rewrite (dealloc_lookup img O).
  destruct (decide (0 < Z.to_nat NUM_CANVAS)%nat) as [_ | Hn];
    [| exfalso; apply Hn; unfold NUM_CANVAS; lia].
  destruct (canvas img !! O); reflexivity.
Qed.

Lemma loadBMP_zero_height_witness :
  let data := bmp_file 2 0 1 24 0 [] in
  loadBMP (one_file "a.bmp" data) (fun _ => false) [] "a.bmp"
          (SPIFFS_Image_new 0 0)
  = Fault.
Proof.
  intros data.
  apply (loadBMP_zero_height _ _ _ _ _ data);
    [reflexivity | reflexivity | reflexivity | vm_compute; reflexivity].
Defined.

(** The first allocation that fails. *)
Lemma first_failure (alloc_ok : nat -> bool) k :
  alloc_ok k = false ->
  exists k0, (k0 <= k)%nat /\ alloc_ok k0 = false
    /\ forall j, (j < k0)%nat -> alloc_ok j = true.
Proof.
  induction k as [k IH] using lt_wf_ind. intros Hk.
  destruct (List.existsb (fun j => negb (alloc_ok j)) (seq 0 k)) eqn:E.
  - apply List.existsb_exists in E as (j & Hj & Hf).
    apply in_seq in Hj. apply negb_true_iff in Hf.
    destruct (IH j ltac:(lia) Hf) as (k0 & Hk0 & Hf0 & Hb).
    exists k0. split; [lia |]. auto.
  - exists k. split; [lia |]. split; [exact Hk |].
    intros j Hj. destruct (alloc_ok j) eqn:Ej; [reflexivity | exfalso].
    assert (Hex : List.existsb (fun j => negb (alloc_ok j)) (seq 0 k) = true).
    { apply List.existsb_exists. exists j. split.
      - apply in_seq. lia.
      - rewrite Ej. reflexivity. }
    congruence.
Qed.

(** X14. When the height, taken as the 16-bit value [remainingHeight]
    holds, is not a multiple of [CANVAS_HEIGHT], the load needs every one
    of the [NUM_CANVAS] allocations: if any of them fails, also one for a
    slot past the rows of the image, [loadBMP] returns [IMAGE_ERR_MALLOC]
    with the format [IMAGE_NONE] and reads no scanline. *)
Theorem malloc_failure_past_image fs alloc_ok stack name img data k :
  fs name = Some data ->
  field_signature data = 0x4D42 ->
  (field_planes data =? 1) && (field_compression data =? 0)
    && (field_depth data =? 24) = true ->
  let H := to_uint16 (h_bmpHeight (header_of data)) in
  H mod CANVAS_HEIGHT <> 0 ->
  (k < Z.to_nat NUM_CANVAS)%nat ->
  alloc_ok k = false ->
  exists img',
    loadBMP fs alloc_ok stack name img = Done IMAGE_ERR_MALLOC img' []
    /\ getFormat img' = IMAGE_NONE.
Proof.
  intros Hfs Hsig Hsup H Hm Hk Hfail.
  destruct (first_failure alloc_ok k Hfail) as (k0 & Hk0 & Hf0 & Hb0).
  unfold loadBMP. rewrite (coreBMP_at _ _ _ _ _ _ Hfs), Hsig.
  cbn [Z.eqb Pos.eqb].
  rewrite core_decode_supported by exact Hsup. fold H.
  rewrite (alloc_loop_fail alloc_ok _ _ _ _ _ k0 Hf0).
  - eexists. split; [reflexivity |]. reflexivity.
  - intros j Hj. apply Hb0. lia.
  - rewrite seg_heights_not_multiple;
      [lia | apply to_uint16_range | exact Hm | unfold NUM_CANVAS; lia].
Qed.

Lemma malloc_failure_past_image_witness :
  let data := bmp_file 2 30 1 24 0 [] in
  exists img',
    loadBMP (one_file "a.bmp" data) (fun j => negb (Nat.eqb j 7)) [] "a.bmp"
            (SPIFFS_Image_new 0 0)
    = Done IMAGE_ERR_MALLOC img' []
    /\ getFormat img' = IMAGE_NONE.
Proof.
  intros data.
  apply (malloc_failure_past_image _ _ _ _ _ data 7%nat);
    [reflexivity | reflexivity | reflexivity
    | vm_compute; discriminate | vm_compute; lia | reflexivity].
Defined.


(** ** Drawing a loaded image *)

Lemma seg_heights_range n : forall rem,
  0 <= rem < 2 ^ 16 ->
  Forall (fun h => 0 < h <= CANVAS_HEIGHT) (seg_heights n rem).
Proof.
  induction n as [| n IH]; intros rem Hrem; cbn [seg_heights].
  - constructor.
  - destruct (Z.ltb_spec 0 rem); [| constructor].
    constructor; [| apply IH, to_uint16_range].
    destruct (Z.ltb_spec CANVAS_HEIGHT rem); unfold CANVAS_HEIGHT in *; lia.
Qed.

Lemma omap_shape_of (cs : list (option GFXcanvas16)) :
  omap id (shape_of <$> cs)
  = (fun c => (c_width c, c_height c, length (c_buffer c))) <$> omap id cs.
Proof.
  induction cs as [| [c |] cs IH]; [reflexivity | |]; cbn.
  - f_equal. exact IH.
  - exact IH.
Qed.

Lemma blit_frame_draw_loop (cs : list (option GFXcanvas16)) x y :
  - 2 ^ 15 <= y < 2 ^ 15 ->
  blit_frame <$> draw_loop cs x y
  = imap (fun k s => (x, to_int16 (y + CANVAS_HEIGHT * Z.of_nat k),
                      s.1.1, s.1.2))
         (omap id (shape_of <$> cs)).
Proof.
  intros Hy. rewrite (draw_loop_closed cs x y Hy), omap_shape_of.
  rewrite fmap_imap, imap_fmap. apply imap_ext. intros k c _. reflexivity.
Qed.

(** X17. After every successful load [draw] emits one blit for each
    iteration the allocation loop made, of the 16-bit width of the image
    and the height of that iteration, the [k]-th at [y + k *
    CANVAS_HEIGHT].  When the 16-bit height, the value [remainingHeight]
    starts from, is not a multiple of [CANVAS_HEIGHT] these are
    [NUM_CANVAS] blits, whatever that height: the segments past the rows
    of the image are drawn as well. *)
Theorem draw_after_load fs alloc_ok stack name img data img' rows x y :
  fs name = Some data ->
  length (canvas img) = Z.to_nat NUM_CANVAS ->
  loadBMP fs alloc_ok stack name img = Done IMAGE_SUCCESS img' rows ->
  - 2 ^ 15 <= y ->
  y + CANVAS_HEIGHT * (NUM_CANVAS - 1) < 2 ^ 15 ->
  let W := h_bmpWidth (header_of data) in
  let H := to_uint16 (h_bmpHeight (header_of data)) in
  blit_frame <$> draw img' x y
  = imap (fun k h => (x, y + CANVAS_HEIGHT * Z.of_nat k, to_uint16 W, h))
         (seg_heights (Z.to_nat NUM_CANVAS) H)
  /\ (H mod CANVAS_HEIGHT <> 0 ->
      Z.of_nat (length (draw img' x y)) = NUM_CANVAS).
Proof.
  intros Hfs Hlen Hload Hy0 Hy1 W H.
  unfold loadBMP in Hload. rewrite (coreBMP_at _ _ _ _ _ _ Hfs) in Hload.
  destruct (field_signature data =? 19778); [| inversion Hload].
  apply core_decode_success in Hload
    as (_ & _ & _ & Hfmt & (cs & Ha & Hsh & _) & _).
  fold W H in Ha.
  apply alloc_loop_true in Ha.
  rewrite (dealloc_canvas img Hlen) in Ha.
  pose proof (seg_heights_length_le (Z.to_nat NUM_CANVAS) H) as Hle.
  rewrite put_canvases_fresh in Ha by exact Hle.
  assert (Hframes : blit_frame <$> draw img' x y
            = imap (fun k h => (x, y + CANVAS_HEIGHT * Z.of_nat k,
                                to_uint16 W, h))
                   (seg_heights (Z.to_nat NUM_CANVAS) H)).
  { unfold draw. rewrite Hfmt.
    rewrite blit_frame_draw_loop by (unfold NUM_CANVAS, CANVAS_HEIGHT in *; lia).
    rewrite fmap_take. fold (shapes img'). rewrite <- Hsh, Ha.
    rewrite take_ge
      by (rewrite length_fmap, length_app, length_fmap, length_replicate; lia).
    rewrite omap_shape_of.
    replace ((fun h : Z => Some (new_GFXcanvas16 W h)) <$>
               seg_heights (Z.to_nat NUM_CANVAS) H)
      with (Some <$> (new_GFXcanvas16 W <$>
                        seg_heights (Z.to_nat NUM_CANVAS) H))
      by (rewrite <- list_fmap_compose; reflexivity).
    rewrite omap_id_fresh, <- list_fmap_compose, imap_fmap.
    pose proof (seg_heights_range (Z.to_nat NUM_CANVAS) H
                  (to_uint16_range _)) as Hrange.
    apply imap_ext. intros k h Hk.
    rewrite Forall_lookup in Hrange. specialize (Hrange k h Hk).
    apply lookup_lt_Some in Hk.
    unfold compose. cbn.
    rewrite (to_uint16_id h) by (unfold CANVAS_HEIGHT in *; lia).
    rewrite to_int16_id by (unfold NUM_CANVAS, CANVAS_HEIGHT in *; lia).
    reflexivity. }
  split; [exact Hframes |].
  intros Hm. apply (f_equal length) in Hframes.
  rewrite length_fmap, length_imap in Hframes. rewrite Hframes.
  rewrite seg_heights_not_multiple;
    [unfold NUM_CANVAS; lia | apply to_uint16_range | exact Hm
    | unfold NUM_CANVAS; lia].
Qed.

Lemma draw_after_load_witness :
  let data := bmp_file 2 30 1 24 0 (replicate 240 "000"%byte) in
  let fs := one_file "a.bmp" data in
  exists img' rows,
    loadBMP fs (fun _ => true) [] "a.bmp" (SPIFFS_Image_new 0 0)
    = Done IMAGE_SUCCESS img' rows
    /\ Z.of_nat (length (draw img' 5 7)) = 12
    /\ blit_frame <$> draw img' 5 7 !! 11%nat = Some (5, 227, 2, 20).
Proof.
  intros data fs.
  assert (E : exists img' rows,
             loadBMP fs (fun _ => true) [] "a.bmp" (SPIFFS_Image_new 0 0)
             = Done IMAGE_SUCCESS img' rows)
    by (vm_compute; do 2 eexists; reflexivity).
  destruct E as (img' & rows & E). exists img', rows. split; [exact E |].
  destruct (draw_after_load fs (fun _ => true) [] "a.bmp"
              (SPIFFS_Image_new 0 0) data img' rows 5 7 eq_refl eq_refl E)
    as [Hfr Hn]; [clear; lia | clear; vm_compute; reflexivity |].
  clear E.
  split.
  - apply Hn. vm_compute. discriminate.
  - rewrite <- list_lookup_fmap, Hfr. vm_compute. reflexivity.
Defined.

(** ** Top-down images one pixel short of a full scratch buffer *)

Lemma row_body_after_seek hd rowSize row st :
  row_body hd rowSize row st
  = pixel_loop (Z.to_nat (h_bmpWidth hd))
      (mkState (fst (after_seek hd rowSize row st)) (d_sdbuf st)
               (snd (after_seek hd rowSize row st)) (d_destidx st)
               (d_cci st) (d_cur st) (d_img st)
               (d_rows st ++ [row_pos hd rowSize row])).
Proof.
  unfold row_body, after_seek. cbv zeta.
  destruct (file_position (d_file st) =? row_pos hd rowSize row); reflexivity.
Qed.

Lemma sheared_row_size W :
  0 < W < 2 ^ 16 -> W mod BUFPIXELS = BUFPIXELS - 1 ->
  row_size 24 W = 3 * W + 3.
Proof.
  intros HW H199. destruct (row_size_24 W ltac:(lia)) as [Hb Hm].
  unfold BUFPIXELS in *. zlia.
Qed.

Lemma sheared_srcidx W n s :
  W mod BUFPIXELS = BUFPIXELS - 1 -> 0 < n < BUFPIXELS ->
  0 <= s <= SDBUF_SIZE -> (3 * (n * W) - s) mod SDBUF_SIZE = 0 ->
  s = SDBUF_SIZE - 3 * n.
Proof.
  unfold SDBUF_SIZE, BUFPIXELS. cbn. intros H199 Hn Hs Hm.
  assert (HnW : n * W = 200 * (n * (W / 200)) + 199 * n).
  { rewrite (Z.div_mod W 200) at 1 by lia. rewrite H199. ring. }
  rewrite HnW in Hm. clear HnW. generalize dependent (n * (W / 200)). intros z Hm.
  zlia.
Qed.

Lemma sheared_run r W : 3 * (r * W) + 3 * W + 3 * (r + 1) = (r + 1) * (3 * W + 3).
Proof. ring. Qed.

Lemma sheared_offset r W col : r * (3 * W + 3) + 3 * col - 3 * r = 3 * (r * W + col).
Proof. ring. Qed.

Section Sheared.

Variables (data : list byte) (hd : BmpHeaderInfo) (st0 : dstate).

Let W := h_bmpWidth hd.
Let H := h_bmpHeight hd.
Let rs := row_size 24 W.
Let len := Z.of_nat (length data).
Let B0 := h_offset hd.

Hypothesis Hflip : h_flip hd = false.
Hypothesis HW : 0 < W < 2 ^ 16.
Hypothesis HW199 : W mod BUFPIXELS = BUFPIXELS - 1.
Hypothesis HH : 0 < H <= BUFPIXELS.
Hypothesis Hoff : 0 <= B0.
Hypothesis Hfile : B0 + H * rs <= len.
Hypothesis Hlen : len < 2 ^ 32.
Hypothesis Hdata0 : f_data (d_file st0) = data.
Hypothesis Hw0 : img_w (d_img st0) = W.
Hypothesis Hh0 : img_h (d_img st0) = H.
Hypothesis Hcovers0 : handle_covers (d_img st0).
Hypothesis Hall0 : forall i, 0 <= i < NUM_CANVAS ->
  is_Some (canvas (d_img st0) !! Z.to_nat i ≫= id).

Lemma sheared_rs : rs = 3 * W + 3.
Proof. clear - HW HW199. apply sheared_row_size; assumption. Qed.

Lemma sheared_row_end r : 0 <= r < H -> B0 + (r + 1) * rs <= len.
Proof.
  intros Hr. pose proof sheared_rs as Hrs.
  pose proof (mul_le_rows (r + 1) H rs ltac:(clear - Hr; lia)
                ltac:(clear - Hrs HW; lia)) as Hle.
  clear - Hle Hfile. lia.
Qed.

Lemma sheared_row_pos r : 0 <= r < H -> row_pos hd rs r = B0 + r * rs.
Proof.
  intros Hr. pose proof sheared_rs as Hrs.
  pose proof (sheared_row_end r Hr) as Hend.
  assert (H0 : 0 <= r * rs) by (apply Z.mul_nonneg_nonneg; clear - Hr Hrs HW; lia).
  unfold row_pos. cbv zeta. rewrite Hflip. fold B0.
  rewrite Z.mul_0_l, !Z.add_0_r.
  rewrite (to_uint32_id (to_uint32 _)) by apply to_uint32_range.
  apply to_uint32_id. clear - Hend H0 Hoff Hlen Hrs HW. lia.
Qed.

Lemma row_body_sheared r st :
  0 <= r < H -> sheared_inv data hd st0 r st ->
  exists st',
    row_body hd rs r st = Some st' /\ sheared_inv data hd st0 (r + 1) st'.
Proof.
  intros Hr (Hframe & Hcontent & Hdest).
  fold W H in Hcontent, Hdest.
  destruct (Hdest (proj2 Hr)) as (Hcci & Hcur & Hdidx & Hsrc).
  fold rs B0 in Hsrc. clear Hdest.
  assert (Hr240 : 0 <= r < Z.min H (NUM_CANVAS * CANVAS_HEIGHT)).
  { clear - Hr HH. unfold NUM_CANVAS, CANVAS_HEIGHT, BUFPIXELS in *. lia. }
  pose proof (leading_row data hd r Hr240) as [Hlead _].
  destruct (row_in_segment r H Hr240) as (Hq & Hmhh & Hu8 & Hhh).
  destruct (frame_slot hd st0 Hw0 Hh0 Hcovers0 st _ Hframe Hlead)
    as (c & Hc & Hcw & Hch & Hcl).
  fold W H in Hcw, Hch.
  pose proof sheared_rs as Hrs.
  pose proof (sheared_row_end r Hr) as Hend.
  rewrite row_body_after_seek. fold W.
  set (file := fst (after_seek hd rs r st)) in *.
  set (srcidx := snd (after_seek hd rs r st)) in *.
  set (P := B0 + 3 * (r * W)) in *.
  set (m := r mod CANVAS_HEIGHT) in *.
  set (q := r / CANVAS_HEIGHT) in *.
  set (hh := Z.min CANVAS_HEIGHT (H - q * CANVAS_HEIGHT)) in *.
  set (sts := mkState file (d_sdbuf st) srcidx (d_destidx st) (d_cci st)
                      (d_cur st) (d_img st) (d_rows st ++ [row_pos hd rs r])).
  pose proof (seg_row_fits m hh W Hmhh ltac:(clear - HW; lia)) as [Hfit0 Hfit1].
  assert (HP3 : P + 3 * W + 3 * (r + 1) = B0 + (r + 1) * rs).
  { unfold P. rewrite Hrs. clear. pose proof (sheared_run r W). lia. }
  destruct (pixel_loop_row data B0 (Z.to_nat W) sts P c)
    as (st' & c' & Hloop & Hsrc' & Hrows' & Himg' & Hw' & Hh' & Hl'
        & Hpix & Hfr & Hd' & Hcci' & Hcur').
  { exact Hsrc. }
  { rewrite Z2Nat.id by (clear - HW; lia). fold len.
    clear - HP3 Hend Hr. lia. }
  { cbn [sts d_img d_cur]. rewrite Hcur. exact Hc. }
  { cbn [sts d_destidx]. rewrite Hdidx. exact Hfit0. }
  { cbn [sts d_destidx]. rewrite Hdidx, Hcw, Hch, Z2Nat.id by (clear - HW; lia).
    exact Hfit1. }
  { exact Hcl. }
  { rewrite Hcw, Hch. apply seg_capacity_bound; [exact HW | exact Hhh]. }
  { cbn [sts d_img d_cci]. intros _ Hlt12.
    apply (frame_is_Some st0 Hall0 st _ Hframe).
    pose proof (to_uint8_range (d_cci st + 1)) as Hu. clear - Hu Hlt12. lia. }
  exists st'. split; [exact Hloop |].
  cbn [sts d_img d_cur d_destidx d_cci d_rows] in *.
  rewrite Z2Nat.id in * by (clear - HW; lia).
  rewrite Hcur, Hdidx, Hcci in *.
  assert (Hfull : ((0 <? W) && (c_width c * c_height c <=? m * W + W))
                  = (m + 1 =? hh)).
  { rewrite Hcw, Hch.
    replace (0 <? W) with true by (symmetry; apply Z.ltb_lt; clear - HW; lia).
    cbn [andb]. apply seg_full_iff; [exact Hmhh | clear - HW; lia]. }
  rewrite Hfull in *. clear Hfull.
  rewrite Hu8 in *.
  unfold sheared_inv. fold W H rs B0.
  split.
  { (* frame *)
    destruct Hframe as (Hf1 & Hf2 & Hf3 & Hf4 & Hf5).
    unfold same_frame. rewrite Himg'. cbn [set_canvas img_w img_h format].
    split; [exact Hf1 |]. split; [exact Hf2 |]. split; [exact Hf3 |].
    split.
    - rewrite <- Hf4. apply (shapes_set_canvas _ _ c); assumption.
    - destruct Hsrc' as (Hd & _). rewrite Hd. symmetry. exact Hdata0. }
  split.
  { (* content *)
    intros r' col Hr' Hcol. unfold pixel_at. rewrite Himg'.
    unfold set_canvas. cbn [canvas].
    destruct (Z.eq_dec (r' / CANVAS_HEIGHT) q) as [Heq | Hne].
    - rewrite Heq. rewrite list_lookup_insert_eq
        by apply (lookup_lt_Some _ _ _ Hc).
      rewrite Hw', Hcw.
      destruct (Z.eq_dec r' r) as [-> | Hlt].
      + fold m. rewrite (Hpix col Hcol). f_equal. f_equal.
        unfold P. clear. lia.
      + assert (Hr'r : 0 <= r' < r) by (clear - Hr' Hlt; lia).
        pose proof (rows_of_one_segment r' r Hr'r Heq) as Hm'.
        fold m in Hm'.
        pose proof (seg_row_before _ _ W col Hm' Hcol) as Hbefore.
        rewrite Hfr by (clear - Hbefore; lia).
        specialize (Hcontent r' col Hr'r Hcol).
        unfold pixel_at in Hcontent. rewrite Heq, Hc, Hcw in Hcontent.
        exact Hcontent.
    - rewrite list_lookup_insert_ne.
      + apply Hcontent; [| exact Hcol].
        destruct (Z.eq_dec r' r) as [-> | Hlt];
          [exfalso; apply Hne; reflexivity | clear - Hr' Hlt; lia].
      + intros He. apply Hne. apply Z2Nat.inj in He;
          [congruence | clear - Hq; lia |].
        apply Z.div_pos; [| unfold CANVAS_HEIGHT]; clear - Hr'; lia. }
  (* where row r + 1 starts *)
  intros Hr1.
  assert (Hr1' : r + 1 < Z.min H (NUM_CANVAS * CANVAS_HEIGHT)).
  { clear - Hr1 HH. unfold NUM_CANVAS, CANVAS_HEIGHT, BUFPIXELS in *. lia. }
  destruct (short_segment_is_last r H (proj1 Hr) Hr1') as [Hnext Hlt12].
  fold m q hh in Hnext, Hlt12.
  rewrite Hnext in *. clear Hnext.
  assert (Hseek : after_seek hd rs (r + 1) st' = (d_file st', d_srcidx st')).
  { unfold after_seek. cbv zeta.
    rewrite (sheared_row_pos (r + 1)) by (clear - Hr Hr1; lia).
    destruct Hsrc' as (_ & _ & Hs & _ & HmB & _ & Hfp & _).
    fold len in Hfp.
    replace (P + 3 * W - d_srcidx st' - B0)
      with (3 * ((r + 1) * W) - d_srcidx st') in HmB
      by (unfold P; clear; lia).
    pose proof (sheared_srcidx W (r + 1) (d_srcidx st') HW199
                  ltac:(clear - Hr Hr1 HH; lia) Hs HmB) as Hsidx.
    pose proof (sheared_row_end (r + 1) ltac:(clear - Hr Hr1; lia)) as Hend1.
    assert (Hpos : f_pos (d_file st') = B0 + (r + 1) * rs).
    { rewrite Hfp, Hsidx. unfold SDBUF_SIZE, BUFPIXELS in *.
      pose proof (mul_le_rows (r + 1) (r + 1 + 1) rs ltac:(clear; lia)
                    ltac:(clear - Hrs HW; lia)) as Hle.
      clear - HP3 Hend1 Hle. lia. }
    unfold file_position. rewrite Hpos, Z.eqb_refl. reflexivity. }
  rewrite Hseek. cbn [fst snd].
  replace (B0 + 3 * ((r + 1) * W)) with (P + 3 * W)
    by (unfold P; clear; lia).
  destruct (Z.eqb_spec (m + 1) CANVAS_HEIGHT) as [Hlast | Hmid].
  - destruct (next_row_new_segment r (proj1 Hr) Hlast) as [Hq1 Hm1].
    rewrite Hq1, Hm1. fold q.
    specialize (Hlt12 Hlast). apply Z.ltb_lt in Hlt12.
    rewrite Hlt12 in Hcur'. cbn [andb] in Hcur'.
    split; [exact Hcci' |]. split; [exact Hcur' |].
    split; [exact Hd' | exact Hsrc'].
  - destruct (next_row_same_segment r (proj1 Hr) Hmid) as [Hq1 Hm1].
    rewrite Hq1, Hm1. fold q m. cbn [andb] in Hcur'.
    split; [exact Hcci' |]. split; [exact Hcur' |].
    split; [rewrite Hd'; clear; lia | exact Hsrc'].
Qed.

Lemma sheared_inv_start :
  length (d_sdbuf st0) = Z.to_nat SDBUF_SIZE ->
  d_srcidx st0 = SDBUF_SIZE -> d_destidx st0 = 0 ->
  d_cci st0 = 0 -> d_cur st0 = O ->
  sheared_inv data hd st0 0 st0.
Proof.
  intros Hsd Hsrc Hd Hcci Hcur. unfold sheared_inv.
  split; [apply same_frame_refl |].
  split; [intros r' col Hr'; lia |].
  intros _. change (0 / CANVAS_HEIGHT) with 0.
  change (0 mod CANVAS_HEIGHT) with 0.
  split; [exact Hcci |]. split; [exact Hcur |]. split; [exact Hd |].
  fold W rs B0. rewrite Z.mul_0_l, Z.mul_0_r, Z.add_0_r.
  assert (HB : 0 <= B0 <= len).
  { pose proof sheared_rs as Hrs.
    assert (0 <= H * rs) by (apply Z.mul_nonneg_nonneg; clear - HH Hrs HW; lia).
    clear - Hoff Hfile H0. lia. }
  unfold after_seek. cbv zeta.
  rewrite (sheared_row_pos 0) by (clear - HH; lia).
  rewrite Z.mul_0_l, Z.add_0_r. unfold file_position.
  destruct (Z.eqb_spec (f_pos (d_file st0)) B0) as [He | Hne]; cbn [fst snd].
  - rewrite Hsrc. apply src_ok_start; assumption.
  - apply src_ok_start; try assumption; reflexivity.
Qed.

Lemma row_loop_sheared n : forall r st,
  Z.of_nat n = H - r -> 0 <= r <= H ->
  sheared_inv data hd st0 r st ->
  exists st',
    row_loop n hd rs r st = Some st' /\ sheared_inv data hd st0 H st'.
Proof.
  induction n as [| n IH]; intros r st Hn Hr Hinv; cbn [row_loop].
  - assert (r = H) as <- by (clear - Hn Hr; lia). exists st. auto.
  - assert (Hlt : 0 <= r < H) by (clear - Hn Hr; lia).
    pose proof Hinv as (_ & _ & Hdest).
    destruct (Hdest (proj2 Hlt)) as (Hcci & _).
    destruct (row_in_segment r H) as (Hq & _).
    { clear - Hlt HH. unfold NUM_CANVAS, CANVAS_HEIGHT, BUFPIXELS in *. lia. }
    replace (d_cci st <? NUM_CANVAS) with true
      by (symmetry; apply Z.ltb_lt; rewrite Hcci; apply Hq).
    destruct (row_body_sheared r st Hlt Hinv) as (st1 & Hbody & Hinv1).
    rewrite Hbody.
    apply (IH (r + 1) st1); [clear - Hn; lia | clear - Hlt; lia | exact Hinv1].
Qed.

End Sheared.

(** X18. A top-down image (negative height field) whose width is
    positive, below 65536 and one pixel short of a multiple of [BUFPIXELS]
    is loaded sheared.  A row of such an image ends three bytes before the
    scratch buffer does, the file position after a row is the start of
    the next row, so no seek takes place and [srcidx] is not reset: the
    three padding bytes of the row are taken as the first pixel of the
    next row.  For such an image of at most [BUFPIXELS] rows, whose height
    is not a multiple of [CANVAS_HEIGHT] and whose pixel array lies in a
    file of less than 2^32 bytes, [loadBMP] returns [IMAGE_SUCCESS] when no
    allocation fails, and row [row] holds the bytes that lie [3 * row]
    bytes before its own pixels in the file. *)
Theorem loadBMP_shears_top_down_image fs alloc_ok stack name img data :
  fs name = Some data ->
  length (canvas img) = Z.to_nat NUM_CANVAS ->
  (forall j, alloc_ok j = true) ->
  field_signature data = 0x4D42 ->
  (field_planes data =? 1) && (field_compression data =? 0)
    && (field_depth data =? 24) = true ->
  let hd := header_of data in
  let W := h_bmpWidth hd in
  let H := h_bmpHeight hd in
  h_flip hd = false ->
  0 < W < 2 ^ 16 ->
  W mod BUFPIXELS = BUFPIXELS - 1 ->
  0 < H <= BUFPIXELS ->
  H mod CANVAS_HEIGHT <> 0 ->
  h_offset hd + H * row_size 24 W <= Z.of_nat (length data) ->
  Z.of_nat (length data) < 2 ^ 32 ->
  exists img' rows,
    loadBMP fs alloc_ok stack name img = Done IMAGE_SUCCESS img' rows
    /\ forall row col, 0 <= row < H -> 0 <= col < W ->
         pixel_at img' row col
         = Some (pix data (src_offset hd row col - 3 * row)).
Proof.
  intros Hfs Hlen Hok Hsig Hsup hd W H Hflip HW HW199 HH Hm Hfile Hlen32.
  assert (HH16 : 0 <= H < 2 ^ 16) by (unfold BUFPIXELS in HH; lia).
  unfold loadBMP. rewrite (coreBMP_at _ _ _ _ _ _ Hfs), Hsig.
  cbn [Z.eqb Pos.eqb].
  rewrite core_decode_supported by exact Hsup. fold hd W H.
  rewrite (alloc_loop_ok alloc_ok W _ _ _ _ Hok).
  rewrite (dealloc_canvas img Hlen).
  rewrite (to_uint16_id H) by exact HH16. rewrite (to_uint16_id W) by lia.
  destruct (allocated_slots W H HH16) as [Hlead Hall].
  set (cs := put_canvases 0 W (seg_heights (Z.to_nat NUM_CANVAS) H)
                          (replicate (Z.to_nat NUM_CANVAS) None)) in *.
  specialize (Hall (or_introl Hm)).
  destruct (Hall 0 ltac:(unfold NUM_CANVAS; lia)) as [c0 Hc0].
  change (Z.to_nat 0) with O in Hc0.
  destruct (cs !! O) as [[c0' |] |] eqn:E0; try discriminate.
  set (st0 := mkState (file_at data (header_end data)) (init_sdbuf stack)
                      SDBUF_SIZE 0 0 O (mkImage W H cs IMAGE_16) []).
  assert (Hdepth : h_depth hd = 24).
  { apply andb_prop in Hsup as [_ Hd]. apply Z.eqb_eq in Hd. exact Hd. }
  assert (Hcov : handle_covers (d_img st0)).
  { intros i Hi. cbn [st0 d_img img_h img_w canvas] in *.
    rewrite (Hlead i Hi).
    destruct (new_GFXcanvas16_shape W (Z.min CANVAS_HEIGHT (H - i * CANVAS_HEIGHT)))
      as (Hnw & Hnh & Hnl).
    { unfold leading_segments in Hi.
      pose proof (ceil_div_canvas H ltac:(lia)) as [Hc1 Hc2].
      unfold NUM_CANVAS, CANVAS_HEIGHT in *. lia. }
    eexists. split; [reflexivity |].
    rewrite Hnl, Hnw, Hnh, (to_uint16_id W) by lia. repeat split. }
  assert (Hoff : 0 <= h_offset hd) by apply le32_at_range.
  destruct (row_loop_sheared data hd st0 Hflip HW HW199 HH Hoff Hfile Hlen32
              eq_refl eq_refl eq_refl Hcov Hall (Z.to_nat H) 0 st0)
    as (st' & Hloop & Hinv).
  { fold H. lia. }
  { fold H. lia. }
  { apply (sheared_inv_start data hd st0 Hflip HW HW199 HH Hoff Hfile Hlen32);
      try reflexivity. apply init_sdbuf_length. }
  fold W H in Hloop, Hinv. rewrite Hloop.
  destruct Hinv as (_ & Hcontent & _).
  exists (d_img st'), (d_rows st'). split; [reflexivity |].
  intros row col Hrow Hcol. fold W in Hcontent.
  rewrite (Hcontent row col Hrow Hcol). do 2 f_equal.
  rewrite (src_offset_eq hd Hdepth), Hflip. fold W.
  rewrite (sheared_row_size W HW HW199).
  pose proof (sheared_offset row W col). lia.
Qed.

Lemma loadBMP_shears_top_down_image_witness :
  let pixels := replicate 597 "000"%byte ++ replicate 3 "255"%byte
                  ++ replicate 600 "000"%byte in
  let data := bmp_file 199 (-2) 1 24 0 pixels in
  let fs := one_file "a.bmp" data in
  exists img' rows,
    loadBMP fs (fun _ => true) [] "a.bmp" (SPIFFS_Image_new 0 0)
    = Done IMAGE_SUCCESS img' rows
    /\ pixel_at img' 1 0 = Some 65535
    /\ pix data (src_offset (header_of data) 1 0) = 0.
Proof.
  intros pixels data fs.
  destruct (loadBMP_shears_top_down_image fs (fun _ => true) [] "a.bmp"
              (SPIFFS_Image_new 0 0) data)
    as (img' & rows & E & Hpix);
    [reflexivity | reflexivity | reflexivity | reflexivity | reflexivity
    | vm_compute; reflexivity | vm_compute; split; reflexivity
    | vm_compute; reflexivity | vm_compute; split; [reflexivity | discriminate]
    | vm_compute; discriminate | vm_compute; discriminate
    | vm_compute; reflexivity |].
  exists img', rows. split; [exact E |].
  clear E. split.
  - rewrite (Hpix 1 0) by (vm_compute; split; [discriminate | reflexivity]).
    vm_compute. reflexivity.
  - vm_compute. reflexivity.
Defined.

(** C5, at a top-down image of 199 by 2 pixels with a row stride of 600
    bytes: the scanlines are begun at the offsets of the claim, 54 and
    654, and no seek takes place before the second one, since the file
    position is 654 already.  The first pixel of row 1 is then the
    packing of the three padding bytes of row 0 (each 255), not of the
    bytes of its own pixel (each 0). *)
Lemma padding_read_as_pixel :
  let pixels := replicate 597 "000"%byte ++ replicate 3 "255"%byte
                  ++ replicate 600 "000"%byte in
  let data := bmp_file 199 (-2) 1 24 0 pixels in
  let o := loadBMP (one_file "p.bmp" data) (fun _ => true) [] "p.bmp"
                   (SPIFFS_Image_new 0 0) in
  row_size 24 199 = 600
  /\ outcome_status o = Some IMAGE_SUCCESS
  /\ outcome_rows o = Some [54; 654]
  /\ pix data (src_offset (header_of data) 1 0) = 0
  /\ pix data (src_offset (header_of data) 0 199) = 65535
  /\ (fun img => pixel_at img 1 0) <$> outcome_image o = Some (Some 65535).
Proof. vm_compute. repeat split. Qed.


(** ** Loads that return, whatever the file holds *)

Lemma pixel_body_done st c :
  canvas (d_img st) !! d_cur st = Some (Some c) ->
  0 <= d_destidx st ->
  d_destidx st + 1 = c_width c * c_height c ->
  Z.of_nat (length (c_buffer c)) = c_width c * c_height c ->
  c_width c * c_height c < 2 ^ 32 ->
  NUM_CANVAS <= to_uint8 (d_cci st + 1) ->
  exists st', pixel_body st = Some st'
    /\ d_destidx st' = 0
    /\ d_cci st' = to_uint8 (d_cci st + 1)
    /\ d_cur st' = d_cur st.
Proof.
  intros Hc Hd0 Hfull Hlen Hcap Hge. unfold pixel_body.
  destruct (SDBUF_SIZE <=? d_srcidx st); cbn [file_read_buf];
    rewrite Hc;
    (replace (d_destidx st <? Z.of_nat (length (c_buffer c))) with true
       by (symmetry; apply Z.ltb_lt; lia));
    cbn [c_width c_height];
    rewrite (to_uint32_id (c_width c * c_height c)) by lia;
    (replace (c_width c * c_height c <=? d_destidx st + 1) with true
       by (symmetry; apply Z.leb_le; lia));
    (replace (to_uint8 (d_cci st + 1) <? NUM_CANVAS) with false
       by (symmetry; apply Z.ltb_ge; exact Hge));
    eexists; (split; [reflexivity |]); cbn; repeat split.
Qed.

Section Running.

Variables (hd : BmpHeaderInfo) (st0 : dstate) (rs : Z).

Let W := h_bmpWidth hd.
Let H := h_bmpHeight hd.
Let rows := Z.min H (NUM_CANVAS * CANVAS_HEIGHT).

Hypothesis HW : 0 < W < 2 ^ 16.
Hypothesis Hw0 : img_w (d_img st0) = W.
Hypothesis Hh0 : img_h (d_img st0) = H.
Hypothesis Hcovers0 : handle_covers (d_img st0).
Hypothesis Hall0 : forall i, 0 <= i < NUM_CANVAS ->
  is_Some (canvas (d_img st0) !! Z.to_nat i ≫= id).

Lemma row_body_running r st :
  0 <= r < rows -> running_inv hd st0 r st ->
  exists st', row_body hd rs r st = Some st' /\ running_inv hd st0 (r + 1) st'.
Proof.
  intros Hr (Hframe & Hdest & _). fold W H rows in Hdest.
  destruct (Hdest (proj2 Hr)) as (Hcci & Hcur & Hdidx). clear Hdest.
  pose proof (leading_row [] hd r Hr) as [Hlead _].
  destruct (row_in_segment r H Hr) as (Hq & Hmhh & Hu8 & Hhh).
  destruct (frame_slot hd st0 Hw0 Hh0 Hcovers0 st _ Hframe Hlead)
    as (c & Hc & Hcw & Hch & Hcl).
  fold W H in Hcw, Hch.
  set (q := r / CANVAS_HEIGHT) in *.
  set (m := r mod CANVAS_HEIGHT) in *.
  set (hh := Z.min CANVAS_HEIGHT (H - q * CANVAS_HEIGHT)) in *.
  assert (Hbody : forall st', row_body hd rs r st = Some st' ->
                              same_frame st0 st').
  { intros st' E. apply row_body_frame in E as [E _].
    eapply same_frame_trans; eassumption. }
  destruct (row_body_pixels hd rs r st) as (file & srcidx & rws & Hrow & Hfile).
  fold W in Hrow.
  replace (Z.to_nat W) with (S (Z.to_nat (W - 1))) in Hrow
    by (clear - HW; lia).
  rewrite pixel_loop_snoc in Hrow.
  set (sts := mkState file (d_sdbuf st) srcidx (d_destidx st) (d_cci st)
                      (d_cur st) (d_img st) rws) in *.
  assert (Hcap : W * hh < 2 ^ 32).
  { apply seg_capacity_bound; [exact HW | exact Hhh]. }
  assert (HmW : 0 <= m * W /\ m * W + W <= W * hh).
  { apply seg_row_fits; [exact Hmhh | clear - HW; lia]. }
  destruct (pixel_loop_room (Z.to_nat (W - 1)) sts c)
    as (st1 & Hloop & Hd1 & Hcci1 & Hcur1).
  { cbn [sts d_img d_cur]. rewrite Hcur. exact Hc. }
  { cbn [sts d_destidx]. rewrite Hdidx. apply HmW. }
  { cbn [sts d_destidx]. rewrite Hdidx, Hcw, Hch, Z2Nat.id by (clear - HW; lia).
    clear - HmW. lia. }
  { exact Hcl. }
  { rewrite Hcw, Hch. exact Hcap. }
  rewrite Hloop in Hrow.
  cbn [sts d_destidx d_cci d_cur] in Hd1, Hcci1, Hcur1.
  rewrite Z2Nat.id in Hd1 by (clear - HW; lia).
  rewrite Hdidx in Hd1. rewrite Hcci in Hcci1. rewrite Hcur in Hcur1.
  assert (Hframe1 : same_frame st0 st1).
  { apply pixel_loop_frame in Hloop as [Hl _].
    eapply same_frame_trans; [exact Hframe |].
    unfold same_frame in *. cbn [sts d_img d_file] in Hl.
    destruct Hl as (H1 & H2 & H3 & H4 & H5).
    repeat split; try assumption. congruence. }
  destruct (frame_slot hd st0 Hw0 Hh0 Hcovers0 st1 _ Hframe1 Hlead)
    as (c1 & Hc1 & Hcw1 & Hch1 & Hcl1).
  fold W H q hh in Hcw1, Hch1.
  rewrite <- Hcur1 in Hc1.
  assert (Hu8' : to_uint8 (d_cci st1 + 1) = q + 1).
  { rewrite Hcci1. exact Hu8. }
  assert (Hd10 : 0 <= d_destidx st1).
  { rewrite Hd1. clear - HmW HW. lia. }
  assert (Hcap1 : c_width c1 * c_height c1 < 2 ^ 32).
  { rewrite Hcw1, Hch1. exact Hcap. }
  destruct (Z.eq_dec (m + 1) hh) as [Hfull | Hroom].
  - (* the scanline fills the segment *)
    assert (Hfull1 : d_destidx st1 + 1 = c_width c1 * c_height c1).
    { rewrite Hd1, Hcw1, Hch1. clear - Hfull. nia. }
    assert (Hnext : exists st', pixel_body st1 = Some st'
              /\ d_destidx st' = 0 /\ d_cci st' = q + 1
              /\ (q + 1 < NUM_CANVAS -> d_cur st' = Z.to_nat (q + 1))).
    { destruct (Z_lt_le_dec (q + 1) NUM_CANVAS) as [Hlt | Hge].
      - destruct (frame_is_Some st0 Hall0 st1 (q + 1) Hframe1
                    ltac:(clear - Hq Hlt; lia)) as [c2 Hc2].
        destruct (canvas (d_img st1) !! Z.to_nat (q + 1)) as [[c2' |] |] eqn:E2;
          try discriminate.
        destruct (pixel_body_next st1 c1 c2' Hc1 Hd10 Hfull1 Hcl1 Hcap1)
          as (st' & Hstep & Hd' & Hcci' & Hcur').
        + rewrite Hu8'. exact Hlt.
        + rewrite Hu8', Hcur1. clear - Hq. lia.
        + rewrite Hu8'. exact E2.
        + exists st'. rewrite Hu8' in *. auto.
      - destruct (pixel_body_done st1 c1 Hc1 Hd10 Hfull1 Hcl1 Hcap1)
          as (st' & Hstep & Hd' & Hcci' & Hcur').
        + rewrite Hu8'. exact Hge.
        + exists st'. rewrite Hu8' in *.
          split; [exact Hstep |]. split; [exact Hd' |].
          split; [exact Hcci' |]. intros Hlt. clear - Hlt Hge. lia. }
    destruct Hnext as (st' & Hstep & Hd' & Hcci' & Hcur').
    exists st'. rewrite Hrow. split; [exact Hstep |].
    unfold running_inv. fold W H rows.
    split; [apply Hbody; rewrite Hrow; exact Hstep |].
    split.
    + intros Hr1.
      destruct (short_segment_is_last r H (proj1 Hr) Hr1) as [Hnext Hlt12].
      fold m q hh in Hnext, Hlt12.
      assert (Hlast : m + 1 = CANVAS_HEIGHT).
      { apply Z.eqb_eq. rewrite <- Hnext. apply Z.eqb_eq. exact Hfull. }
      destruct (next_row_new_segment r (proj1 Hr) Hlast) as [Hq1 Hm1].
      rewrite Hq1, Hm1. fold q.
      split; [exact Hcci' |]. split; [apply Hcur', Hlt12, Hlast |].
      rewrite Hd'. reflexivity.
    + intros Hr240.
      destruct (last_row_fills r H (proj2 Hr) Hr240) as [_ Hq12].
      fold q in Hq12. rewrite Hcci'. exact Hq12.
  - (* room is left in the segment *)
    destruct (pixel_body_room st1 c1 Hc1 Hd10) as (st' & Hstep & Hd' & Hcci' & Hcur').
    + rewrite Hd1, Hcw1, Hch1. clear - Hroom Hmhh HW. nia.
    + exact Hcl1.
    + exact Hcap1.
    + exists st'. rewrite Hrow. split; [exact Hstep |].
      unfold running_inv. fold W H rows.
      split; [apply Hbody; rewrite Hrow; exact Hstep |].
      split.
      * intros Hr1.
        destruct (short_segment_is_last r H (proj1 Hr) Hr1) as [Hnext _].
        fold m q hh in Hnext.
        assert (Hmid : m + 1 <> CANVAS_HEIGHT).
        { intros E. apply Hroom. apply Z.eqb_eq. rewrite Hnext.
          apply Z.eqb_eq. exact E. }
        destruct (next_row_same_segment r (proj1 Hr) Hmid) as [Hq1 Hm1].
        rewrite Hq1, Hm1. fold q m.
        rewrite Hcci', Hcur', Hd', Hd1, Hcci1, Hcur1.
        repeat split. clear. lia.
      * intros Hr240.
        destruct (last_row_fills r H (proj2 Hr) Hr240) as [Hf _].
        fold m q hh in Hf. apply Z.eqb_eq in Hf. contradiction.
Qed.

Lemma row_loop_running n : forall r st,
  Z.of_nat n = H - r -> 0 <= r <= rows ->
  running_inv hd st0 r st ->
  exists st',
    row_loop n hd rs r st = Some st'
    /\ same_frame st0 st'
    /\ d_rows st' = d_rows st ++ (row_pos hd rs <$> seqZ r (rows - r)).
Proof.
  induction n as [| n IH]; intros r st Hn Hr Hinv; cbn [row_loop].
  - assert (r = rows) as <- by (clear - Hn Hr; unfold rows in *; lia).
    exists st. rewrite Z.sub_diag. cbn. rewrite app_nil_r.
    destruct Hinv as (Hf & _). auto.
  - destruct (Z_lt_le_dec r rows) as [Hlt | Hge].
    + pose proof Hinv as (_ & Hdest & _).
      destruct (Hdest Hlt) as (Hcci & _).
      destruct (row_in_segment r H ltac:(clear - Hr Hlt; unfold rows in *; lia))
        as (Hq & _).
      replace (d_cci st <? NUM_CANVAS) with true
        by (symmetry; apply Z.ltb_lt; rewrite Hcci; apply Hq).
      destruct (row_body_running r st ltac:(clear - Hr Hlt; lia) Hinv)
        as (st1 & Hbody & Hinv1).
      rewrite Hbody.
      destruct (IH (r + 1) st1 ltac:(clear - Hn; lia)
                   ltac:(clear - Hr Hlt; lia) Hinv1)
        as (st' & Hloop & Hfr' & Hrows').
      exists st'. split; [exact Hloop |]. split; [exact Hfr' |].
      rewrite Hrows'.
      apply row_body_frame in Hbody as [_ Hrows1]. rewrite Hrows1.
      rewrite <- app_assoc. f_equal.
      rewrite (seqZ_cons r) by (clear - Hlt; lia).
      replace (Z.succ r) with (r + 1) by (clear; lia).
      replace (Z.pred (rows - r)) with (rows - (r + 1)) by (clear; lia).
      reflexivity.
    + assert (Hr240 : r = NUM_CANVAS * CANVAS_HEIGHT)
        by (clear - Hn Hr Hge; unfold rows in *; lia).
      pose proof Hinv as (Hf & _ & Hfull).
      rewrite (Hfull Hr240).
      replace (NUM_CANVAS <? NUM_CANVAS) with false by reflexivity.
      exists st.
      replace rows with r by (clear - Hr Hge; lia).
      rewrite Z.sub_diag. cbn. rewrite app_nil_r. auto.
Qed.

End Running.

(** X19. A supported image of positive width whose height is not a
    multiple of [CANVAS_HEIGHT] below [NUM_CANVAS * CANVAS_HEIGHT] always
    loads when no allocation fails: [loadBMP] returns [IMAGE_SUCCESS] and
    begins one scanline for each of the first [NUM_CANVAS *
    CANVAS_HEIGHT] rows, whatever the file holds after its header.  The
    result of [file.read] is not examined, so a file that ends before
    its pixel array does is loaded as well. *)
Theorem loadBMP_returns_success fs alloc_ok stack name img data :
  fs name = Some data ->
  length (canvas img) = Z.to_nat NUM_CANVAS ->
  (forall j, alloc_ok j = true) ->
  field_signature data = 0x4D42 ->
  (field_planes data =? 1) && (field_compression data =? 0)
    && (field_depth data =? 24) = true ->
  let hd := header_of data in
  let W := h_bmpWidth hd in
  let H := h_bmpHeight hd in
  0 < W < 2 ^ 16 ->
  0 < H < 2 ^ 16 ->
  (H mod CANVAS_HEIGHT <> 0 \/ NUM_CANVAS * CANVAS_HEIGHT <= H) ->
  exists img',
    loadBMP fs alloc_ok stack name img
    = Done IMAGE_SUCCESS img'
           (row_pos hd (row_size 24 W)
              <$> seqZ 0 (Z.min H (NUM_CANVAS * CANVAS_HEIGHT)))
    /\ getFormat img' = IMAGE_16
    /\ img_w img' = W /\ img_h img' = H.
Proof.
  intros Hfs Hlen Hok Hsig Hsup hd W H HW HH Hslots.
  unfold loadBMP. rewrite (coreBMP_at _ _ _ _ _ _ Hfs), Hsig.
  cbn [Z.eqb Pos.eqb].
  rewrite core_decode_supported by exact Hsup. fold hd W H.
  rewrite (alloc_loop_ok alloc_ok W _ _ _ _ Hok).
  rewrite (dealloc_canvas img Hlen).
  rewrite (to_uint16_id H) by lia. rewrite (to_uint16_id W) by lia.
  destruct (allocated_slots W H ltac:(lia)) as [Hlead Hall].
  set (cs := put_canvases 0 W (seg_heights (Z.to_nat NUM_CANVAS) H)
                          (replicate (Z.to_nat NUM_CANVAS) None)) in *.
  specialize (Hall Hslots).
  destruct (Hall 0 ltac:(unfold NUM_CANVAS; lia)) as [c0 Hc0].
  change (Z.to_nat 0) with O in Hc0.
  destruct (cs !! O) as [[c0' |] |] eqn:E0; try discriminate.
  set (st0 := mkState (file_at data (header_end data)) (init_sdbuf stack)
                      SDBUF_SIZE 0 0 O (mkImage W H cs IMAGE_16) []).
  assert (Hcov : handle_covers (d_img st0)).
  { intros i Hi. cbn [st0 d_img img_h img_w canvas] in *.
    rewrite (Hlead i Hi).
    destruct (new_GFXcanvas16_shape W (Z.min CANVAS_HEIGHT (H - i * CANVAS_HEIGHT)))
      as (Hnw & Hnh & Hnl).
    { unfold leading_segments in Hi.
      pose proof (ceil_div_canvas H ltac:(lia)) as [Hc1 Hc2].
      unfold NUM_CANVAS, CANVAS_HEIGHT in *. lia. }
    eexists. split; [reflexivity |].
    rewrite Hnl, Hnw, Hnh, (to_uint16_id W) by lia. repeat split. }
  destruct (row_loop_running hd st0 (row_size 24 W) HW
              eq_refl eq_refl Hcov Hall (Z.to_nat H) 0 st0)
    as (st' & Hloop & Hfr & Hrows).
  { fold H. lia. }
  { fold H. unfold NUM_CANVAS, CANVAS_HEIGHT. lia. }
  { unfold running_inv. split; [apply same_frame_refl |].
    split; [| unfold NUM_CANVAS, CANVAS_HEIGHT; intros Hr; lia].
    intros _. cbn [st0 d_cci d_cur d_destidx]. repeat split. }
  fold W H in Hloop, Hrows. rewrite Hloop.
  destruct Hfr as (Hfw & Hfh & Hff & _).
  exists (d_img st'). rewrite Hrows, Z.sub_0_r. cbn [st0 d_rows app].
  split; [reflexivity |]. split; [exact Hff |].
  split; [exact Hfw | exact Hfh].
Qed.

Lemma loadBMP_returns_success_witness :
  let data := bmp_file 2 3 1 24 0 [] in
  exists img',
    loadBMP (one_file "a.bmp" data) (fun _ => true) [] "a.bmp"
            (SPIFFS_Image_new 0 0)
    = Done IMAGE_SUCCESS img' [70; 62; 54]
    /\ getFormat img' = IMAGE_16.
Proof.
  intros data.
  destruct (loadBMP_returns_success (one_file "a.bmp" data) (fun _ => true) []
              "a.bmp" (SPIFFS_Image_new 0 0) data)
    as (img' & E & Hf & _);
    [reflexivity | reflexivity | reflexivity | reflexivity | reflexivity
    | vm_compute; split; reflexivity | vm_compute; split; reflexivity
    | left; vm_compute; discriminate |].
  exists img'. split; [exact E | exact Hf].
Defined.

(** ** A width that is not positive *)

Lemma row_loop_no_pixels hd rs n : forall r st,
  h_bmpWidth hd <= 0 -> d_cci st < NUM_CANVAS ->
  exists st',
    row_loop n hd rs r st = Some st'
    /\ d_img st' = d_img st
    /\ d_rows st' = d_rows st ++ (row_pos hd rs <$> seqZ r (Z.of_nat n)).
Proof.
  induction n as [| n IH]; intros r st HW Hcci; cbn [row_loop].
  - exists st. cbn. rewrite app_nil_r. auto.
  - replace (d_cci st <? NUM_CANVAS) with true
      by (symmetry; apply Z.ltb_lt; exact Hcci).
    rewrite row_body_after_seek.
    replace (Z.to_nat (h_bmpWidth hd)) with O by lia.
    cbn [pixel_loop].
    match goal with
    | |- context [row_loop n hd rs (r + 1) ?s] =>
        destruct (IH (r + 1) s HW Hcci) as (st' & Hloop & Himg & Hrows)
    end.
    exists st'. split; [exact Hloop |]. split; [exact Himg |].
    rewrite Hrows. cbn [d_rows]. rewrite <- app_assoc. f_equal.
    rewrite (seqZ_cons r) by lia.
    replace (Z.succ r) with (r + 1) by lia.
    replace (Z.pred (Z.of_nat (S n))) with (Z.of_nat n) by lia.
    reflexivity.
Qed.

(** X20. The width field is not validated.  A supported image whose
    width is zero or negative, and whose height is not zero as the 16-bit
    value the handle stores, loads with [IMAGE_SUCCESS] when no allocation
    fails: no pixel is stored, the segments stay as they were allocated,
    and a scanline is begun for every one of the rows of the image, also
    past row [NUM_CANVAS * CANVAS_HEIGHT], because no segment ever
    fills. *)
Theorem loadBMP_nonpositive_width fs alloc_ok stack name img data :
  fs name = Some data ->
  length (canvas img) = Z.to_nat NUM_CANVAS ->
  (forall j, alloc_ok j = true) ->
  field_signature data = 0x4D42 ->
  (field_planes data =? 1) && (field_compression data =? 0)
    && (field_depth data =? 24) = true ->
  let hd := header_of data in
  let W := h_bmpWidth hd in
  let H := h_bmpHeight hd in
  W <= 0 ->
  0 < to_uint16 H ->
  loadBMP fs alloc_ok stack name img
  = Done IMAGE_SUCCESS
         (mkImage (to_uint16 W) (to_uint16 H)
            (put_canvases 0 W
               (seg_heights (Z.to_nat NUM_CANVAS) (to_uint16 H))
               (replicate (Z.to_nat NUM_CANVAS) None))
            IMAGE_16)
         (row_pos hd (row_size 24 W) <$> seqZ 0 H).
Proof.
  intros Hfs Hlen Hok Hsig Hsup hd W H HW HH.
  assert (Hpos : 0 < H).
  { destruct (Z_lt_le_dec 0 H) as [| Hle]; [assumption | exfalso].
    unfold H, hd in *. cbn [header_of h_bmpHeight] in *.
    rewrite (abs32_nonpos_uint16 _ (field_height_range data) Hle) in HH.
    lia. }
  unfold loadBMP. rewrite (coreBMP_at _ _ _ _ _ _ Hfs), Hsig.
  cbn [Z.eqb Pos.eqb].
  rewrite core_decode_supported by exact Hsup. fold hd W H.
  rewrite (alloc_loop_ok alloc_ok W _ _ _ _ Hok).
  rewrite (dealloc_canvas img Hlen).
  pose proof (to_uint16_range H) as HH16.
  destruct (allocated_slots W (to_uint16 H) ltac:(lia)) as [Hlead _].
  set (cs := put_canvases 0 W
               (seg_heights (Z.to_nat NUM_CANVAS) (to_uint16 H))
               (replicate (Z.to_nat NUM_CANVAS) None)) in *.
  assert (H0 : 0 <= 0 < leading_segments (to_uint16 H)).
  { unfold leading_segments.
    pose proof (ceil_div_canvas (to_uint16 H) ltac:(lia)) as [Hc1 Hc2].
    unfold NUM_CANVAS, CANVAS_HEIGHT in *. lia. }
  pose proof (Hlead 0 H0) as Hc0. change (Z.to_nat 0) with O in Hc0.
  rewrite Hc0.
  match goal with
  | |- context [row_loop ?n hd ?rs 0 ?s] =>
      destruct (row_loop_no_pixels hd rs n 0 s HW)
        as (st' & Hloop & Himg & Hrows);
        [cbn [d_cci]; unfold NUM_CANVAS; lia |]
  end.
  rewrite Hloop, Himg, Hrows. cbn [d_img d_rows app].
  rewrite Z2Nat.id by lia. reflexivity.
Qed.

Lemma loadBMP_nonpositive_width_witness :
  let data := bmp_file 0 300 1 24 0 [] in
  exists img',
    loadBMP (one_file "a.bmp" data) (fun _ => true) [] "a.bmp"
            (SPIFFS_Image_new 0 0)
    = Done IMAGE_SUCCESS img' (replicate 300 54)
    /\ width img' = 0 /\ height img' = 300.
Proof.
  intros data.
  pose proof (loadBMP_nonpositive_width (one_file "a.bmp" data)
                (fun _ => true) [] "a.bmp" (SPIFFS_Image_new 0 0) data
                eq_refl eq_refl (fun _ => eq_refl) eq_refl eq_refl) as E.
  cbv zeta in E.
  specialize (E ltac:(vm_compute; discriminate)
                ltac:(vm_compute; reflexivity)).
  eexists. split; [rewrite E; f_equal; vm_compute; reflexivity |].
  split; reflexivity.
Defined.

(** ** The format test *)

(** C3 (as amended). For an opened file with a valid signature:
    - when planes is not 1, compression is not 0 or depth is not 24,
      [loadBMP] returns [IMAGE_ERR_FORMAT], the handle is the deallocated
      one and no scanline is begun;
    - [loadBMP] returns [IMAGE_SUCCESS] only when planes is 1, compression
      is 0 and depth is 24, and then the scanline loop has run;
    - when planes is 1, compression is 0 and depth is 24 and the allocation
      of one of the segments that cover the 16-bit height fails, [loadBMP]
      returns [IMAGE_ERR_MALLOC] and no scanline is begun;
    - when planes is 1, compression is 0 and depth is 24, no allocation
      fails, width and height are positive and below 65536 and the height
      is not a multiple of [CANVAS_HEIGHT] below [NUM_CANVAS *
      CANVAS_HEIGHT], [loadBMP] returns [IMAGE_SUCCESS] and the scanline
      loop has run over each of the first [NUM_CANVAS * CANVAS_HEIGHT]
      rows of the image. *)
Theorem decode_gate fs alloc_ok stack name img data :
  fs name = Some data ->
  field_signature data = 0x4D42 ->
  length (canvas img) = Z.to_nat NUM_CANVAS ->
  let supported :=
    (field_planes data =? 1) && (field_compression data =? 0)
    && (field_depth data =? 24) in
  let hd := header_of data in
  let W := h_bmpWidth hd in
  let H := h_bmpHeight hd in
  (supported = false ->
     loadBMP fs alloc_ok stack name img
     = Done IMAGE_ERR_FORMAT (dealloc img) [])
  /\ (forall img' rows,
        loadBMP fs alloc_ok stack name img = Done IMAGE_SUCCESS img' rows ->
        supported = true /\ rows <> [])
  /\ (supported = true ->
      forall k, (k < Z.to_nat NUM_CANVAS)%nat ->
        CANVAS_HEIGHT * Z.of_nat k < to_uint16 H ->
        alloc_ok k = false ->
        exists img',
          loadBMP fs alloc_ok stack name img = Done IMAGE_ERR_MALLOC img' [])
  /\ (supported = true ->
      (forall j, alloc_ok j = true) ->
      0 < W < 2 ^ 16 -> 0 < H < 2 ^ 16 ->
      (H mod CANVAS_HEIGHT <> 0 \/ NUM_CANVAS * CANVAS_HEIGHT <= H) ->
      exists img',
        loadBMP fs alloc_ok stack name img
        = Done IMAGE_SUCCESS img'
               (row_pos hd (row_size 24 W)
                  <$> seqZ 0 (Z.min H (NUM_CANVAS * CANVAS_HEIGHT)))).
Proof.
  intros Hfs Hsig Hlen supported hd W H. unfold loadBMP.
  rewrite (coreBMP_at _ _ _ _ _ _ Hfs), Hsig. cbn [Z.eqb Pos.eqb]. fold hd.
  pose proof (dealloc_canvas img Hlen) as Hcs.
  generalize dependent (dealloc img). intros img0 Hcs.
  assert (H0 : canvas img0 !! O = Some None) by (rewrite Hcs; reflexivity).
  split; [| split; [| split]].
  - (* the test fails *)
    intros Hs. apply core_decode_unsupported. exact Hs.
  - (* a success has passed the test *)
    intros img' rows E.
    destruct supported eqn:Hs.
    + split; [reflexivity |].
      eapply core_decode_success_rows; [exact H0 | | exact E].
      cbn [hd header_of h_bmpHeight].
      apply abs32_nonpos_uint16, field_height_range.
    + rewrite core_decode_unsupported in E by exact Hs. inversion E.
  - (* an allocation fails *)
    intros Hs k Hk12 HkH Hfail.
    destruct (first_failure alloc_ok k Hfail) as (k0 & Hk0 & Hf0 & Hb0).
    rewrite core_decode_supported by exact Hs. fold W H.
    pose proof (seg_heights_lookup (Z.to_nat NUM_CANVAS) (to_uint16 H) k
                  (to_uint16_range H) Hk12 HkH) as Hlk.
    apply lookup_lt_Some in Hlk.
    rewrite (alloc_loop_fail alloc_ok W (Z.to_nat NUM_CANVAS) O (to_uint16 H)
               (canvas img0) k0 Hf0)
      by (try (intros j Hj; apply Hb0); lia).
    eexists. reflexivity.
  - (* the scanline loop runs *)
    intros Hs Hok HW HH Hslots.
    rewrite core_decode_supported by exact Hs. fold W H.
    rewrite (alloc_loop_ok alloc_ok W _ _ _ _ Hok), Hcs.
    rewrite (to_uint16_id H) by lia. rewrite (to_uint16_id W) by lia.
    destruct (allocated_slots W H ltac:(lia)) as [Hlead Hall].
    set (cs := put_canvases 0 W (seg_heights (Z.to_nat NUM_CANVAS) H)
                            (replicate (Z.to_nat NUM_CANVAS) None)) in *.
    specialize (Hall Hslots).
    destruct (Hall 0 ltac:(unfold NUM_CANVAS; lia)) as [c0 Hc0].
    change (Z.to_nat 0) with O in Hc0.
    destruct (cs !! O) as [[c0' |] |] eqn:E0; try discriminate.
    set (st0 := mkState (file_at data (header_end data)) (init_sdbuf stack)
                        SDBUF_SIZE 0 0 O (mkImage W H cs IMAGE_16) []).
    assert (Hcov : handle_covers (d_img st0)).
    { intros i Hi. cbn [st0 d_img img_h img_w canvas] in *.
      rewrite (Hlead i Hi).
      destruct (new_GFXcanvas16_shape W
                  (Z.min CANVAS_HEIGHT (H - i * CANVAS_HEIGHT)))
        as (Hnw & Hnh & Hnl).
      { unfold leading_segments in Hi.
        pose proof (ceil_div_canvas H ltac:(lia)) as [Hc1 Hc2].
        unfold NUM_CANVAS, CANVAS_HEIGHT in *. lia. }
      eexists. split; [reflexivity |].
      rewrite Hnl, Hnw, Hnh, (to_uint16_id W) by lia. repeat split. }
    destruct (row_loop_running hd st0 (row_size 24 W) HW
                eq_refl eq_refl Hcov Hall (Z.to_nat H) 0 st0)
      as (st' & Hloop & _ & Hrows).
    { fold H. lia. }
    { fold H. unfold NUM_CANVAS, CANVAS_HEIGHT. lia. }
    { unfold running_inv. split; [apply same_frame_refl |].
      split; [| unfold NUM_CANVAS, CANVAS_HEIGHT; intros Hr; lia].
      intros _. cbn [st0 d_cci d_cur d_destidx]. repeat split. }
    fold W H in Hloop, Hrows. rewrite Hloop.
    exists (d_img st'). rewrite Hrows, Z.sub_0_r. reflexivity.
Qed.

Lemma decode_gate_witness :
  let fs := one_file "a.bmp" (bmp_file 2 (-3) 1 24 0 (replicate 24 "007"%byte)) in
  let gs := one_file "h.bmp" (bmp_file 2 3 1 16 0 (replicate 12 "000"%byte)) in
  (exists img',
     loadBMP fs (fun _ => true) [] "a.bmp" (SPIFFS_Image_new 0 0)
     = Done IMAGE_SUCCESS img' [54; 62; 70])
  /\ (exists img',
        loadBMP fs (fun _ => false) [] "a.bmp" (SPIFFS_Image_new 0 0)
        = Done IMAGE_ERR_MALLOC img' [])
  /\ loadBMP gs (fun _ => true) [] "h.bmp" (SPIFFS_Image_new 0 0)
     = Done IMAGE_ERR_FORMAT (dealloc (SPIFFS_Image_new 0 0)) [].
Proof.
  intros fs gs. split; [| split].
  - destruct (decode_gate fs (fun _ => true) [] "a.bmp"
                (SPIFFS_Image_new 0 0) _ eq_refl eq_refl eq_refl)
      as (_ & _ & _ & Hrun).
    apply Hrun;
      [reflexivity | reflexivity | vm_compute; split; reflexivity
      | vm_compute; split; reflexivity | left; vm_compute; discriminate].
  - destruct (decode_gate fs (fun _ => false) [] "a.bmp"
                (SPIFFS_Image_new 0 0) _ eq_refl eq_refl eq_refl)
      as (_ & _ & Hfail & _).
    apply (Hfail eq_refl O);
      [vm_compute; lia | vm_compute; reflexivity | reflexivity].
  - exact (proj1 (decode_gate gs (fun _ => true) [] "h.bmp"
                    (SPIFFS_Image_new 0 0) _ eq_refl eq_refl eq_refl)
                 eq_refl).
Defined.

(** ** Past the last segment *)

(** [rest_of_call] is the continuation of the call: at its start, at the
    head of a scanline and within the pixel loop. *)
Lemma core_decode_rest hd f alloc_ok stack img cs c0 :
  (h_planes hd =? 1) && (h_compression hd =? 0) && (h_depth hd =? 24) = true ->
  alloc_loop (Z.to_nat NUM_CANVAS) 0 alloc_ok (h_bmpWidth hd)
             (to_uint16 (h_bmpHeight hd)) (canvas img) = (cs, true) ->
  cs !! O = Some (Some c0) ->
  core_decode hd f alloc_ok stack img
  = rest_of_call hd (row_size 24 (h_bmpWidth hd)) 0
      (Z.to_nat (h_bmpHeight hd)) 0
      (mkState f (init_sdbuf stack) SDBUF_SIZE 0 0 O
         (mkImage (to_uint16 (h_bmpWidth hd)) (to_uint16 (h_bmpHeight hd))
                  cs IMAGE_16) []).
Proof.
  intros Hs Ha Hc0. rewrite core_decode_supported by exact Hs.
  rewrite Ha, Hc0. reflexivity.
Qed.

Lemma rest_of_call_row hd rs m row st :
  d_cci st < NUM_CANVAS ->
  rest_of_call hd rs 0 (S m) row st
  = rest_of_call hd rs (Z.to_nat (h_bmpWidth hd)) m (row + 1)
      (mkState (fst (after_seek hd rs row st)) (d_sdbuf st)
               (snd (after_seek hd rs row st)) (d_destidx st)
               (d_cci st) (d_cur st) (d_img st)
               (d_rows st ++ [row_pos hd rs row])).
Proof.
  intros Hcci. unfold rest_of_call. cbn [pixel_loop row_loop].
  replace (d_cci st <? NUM_CANVAS) with true
    by (symmetry; apply Z.ltb_lt; exact Hcci).
  rewrite row_body_after_seek.
  destruct (pixel_loop _ _); reflexivity.
Qed.

Lemma rest_of_call_pixel hd rs k m row st :
  rest_of_call hd rs (S k) m row st
  = match pixel_body st with
    | Some st1 => rest_of_call hd rs k m row st1
    | None => Fault
    end.
Proof.
  unfold rest_of_call. cbn [pixel_loop].
  destruct (pixel_body st); reflexivity.
Qed.

(** The scanline loop begins no scanline once the segment index has left
    the array. *)
Lemma row_loop_halted m hd rs row st :
  NUM_CANVAS <= d_cci st -> row_loop m hd rs row st = Some st.
Proof.
  intros Hcci. destruct m; cbn [row_loop]; [reflexivity |].
  replace (d_cci st <? NUM_CANVAS) with false
    by (symmetry; apply Z.ltb_ge; exact Hcci).
  reflexivity.
Qed.

Lemma wrap_div cap n :
  0 < cap ->
  (cap + n) / cap = 1 + n / cap /\ (cap + n) mod cap = n mod cap.
Proof.
  intros Hcap. replace (cap + n) with (n + 1 * cap) by lia.
  rewrite Z.div_add, Z.mod_add by lia. lia.
Qed.

(** The pixel loop on a state whose segment index is past the array: the
    current segment stays the current one, the pixels go round its
    buffer, and every lap advances the index. *)
Lemma pixel_loop_past_last data B n : forall st P c,
  src_ok data B P (d_sdbuf st) (d_file st) (d_srcidx st) ->
  P + 3 * Z.of_nat n <= Z.of_nat (length data) ->
  canvas (d_img st) !! d_cur st = Some (Some c) ->
  Z.of_nat (length (c_buffer c)) = c_width c * c_height c ->
  c_width c * c_height c < 2 ^ 32 ->
  0 <= d_destidx st < c_width c * c_height c ->
  NUM_CANVAS <= d_cci st ->
  d_cci st + (d_destidx st + Z.of_nat n) / (c_width c * c_height c) < 2 ^ 8 ->
  exists st' c',
    pixel_loop n st = Some st'
    /\ src_ok data B (P + 3 * Z.of_nat n)
              (d_sdbuf st') (d_file st') (d_srcidx st')
    /\ d_rows st' = d_rows st
    /\ canvas (d_img st') !! d_cur st = Some (Some c')
    /\ c_width c' = c_width c /\ c_height c' = c_height c
    /\ length (c_buffer c') = length (c_buffer c)
    /\ d_cur st' = d_cur st
    /\ d_cci st'
       = d_cci st + (d_destidx st + Z.of_nat n) / (c_width c * c_height c)
    /\ d_destidx st'
       = (d_destidx st + Z.of_nat n) mod (c_width c * c_height c).
Proof.
  induction n as [| n IH]; intros st P c Hsrc HP Hc Hlen Hcap Hd Hcci Hu8.
  - exists st, c. cbn [pixel_loop Z.of_nat].
    rewrite Z.mul_0_r, !Z.add_0_r.
    rewrite Z.div_small, Z.mod_small by exact Hd.
    rewrite Z.add_0_r.
    split; [reflexivity |]. split; [exact Hsrc |]. split; [reflexivity |].
    split; [exact Hc |]. repeat (split; [reflexivity |]). reflexivity.
  - cbn [pixel_loop].
    set (cap := c_width c * c_height c) in *.
    assert (Hquot : 0 <= (d_destidx st + Z.of_nat n) / cap).
    { apply Z.div_pos; lia. }
    assert (Hstep_u8 : cap <= d_destidx st + 1 -> d_cci st + 1 < 2 ^ 8).
    { intros Hfull.
      assert (d_destidx st + 1 = cap) as Heq by lia.
      replace (d_destidx st + Z.of_nat (S n)) with (cap + Z.of_nat n) in Hu8
        by lia.
      destruct (wrap_div cap (Z.of_nat n) ltac:(lia)) as [Hq _].
      rewrite Hq in Hu8.
      assert (0 <= Z.of_nat n / cap) by (apply Z.div_pos; lia). lia. }
    destruct (pixel_body_step data B P st c Hsrc ltac:(lia) Hc ltac:(lia)
                Hlen ltac:(fold cap; lia))
      as (st1 & Hstep & Hsrc1 & Himg1 & Hrows1 & Hd1 & Hcci1 & Hcur1).
    { fold cap. intros Hfull Hlt12. exfalso.
      apply Z.leb_le in Hfull. specialize (Hstep_u8 Hfull).
      rewrite to_uint8_id in Hlt12 by (unfold NUM_CANVAS in *; lia).
      lia. }
    rewrite Hstep. fold cap in Hd1, Hcci1, Hcur1.
    set (c1 := mkCanvas (c_width c) (c_height c)
                 (<[Z.to_nat (d_destidx st) := pix data P]> (c_buffer c))) in *.
    assert (Hc1 : canvas (d_img st1) !! d_cur st = Some (Some c1)).
    { rewrite Himg1. apply (set_canvas_lookup_eq _ _ _ _ Hc). }
    assert (Hcur1' : d_cur st1 = d_cur st).
    { rewrite Hcur1.
      destruct (cap <=? d_destidx st + 1) eqn:Hfull; [| reflexivity].
      apply Z.leb_le in Hfull. specialize (Hstep_u8 Hfull).
      rewrite to_uint8_id by (unfold NUM_CANVAS in *; lia).
      replace (d_cci st + 1 <? NUM_CANVAS) with false
        by (symmetry; apply Z.ltb_ge; lia).
      reflexivity. }
    destruct (Z.leb_spec cap (d_destidx st + 1)) as [Hfull | Hroom].
    + (* this pixel ends a lap *)
      specialize (Hstep_u8 Hfull).
      rewrite to_uint8_id in Hcci1 by (unfold NUM_CANVAS in *; lia).
      assert (d_destidx st + 1 = cap) as Heq by lia.
      destruct (wrap_div cap (Z.of_nat n) ltac:(lia)) as [Hq Hm].
      destruct (IH st1 (P + 3) c1) as
        (st' & c' & Hloop & Hsrc' & Hrows' & Hc' & Hw' & Hh' & Hl'
         & Hcur' & Hcci' & Hd');
        [exact Hsrc1 | lia | rewrite Hcur1'; exact Hc1
        | cbn [c1 c_buffer c_width c_height]; rewrite length_insert; exact Hlen
        | exact Hcap
        | cbn [c1 c_width c_height]; fold cap; rewrite Hd1; lia
        | rewrite Hcci1; lia
        | cbn [c1 c_width c_height]; fold cap; rewrite Hd1, Hcci1, Z.add_0_l;
          replace (d_destidx st + Z.of_nat (S n)) with (cap + Z.of_nat n)
            in Hu8 by lia;
          rewrite Hq in Hu8; lia |].
      cbn [c1 c_width c_height c_buffer] in *. fold cap in Hcci', Hd'.
      exists st', c'.
      split; [exact Hloop |].
      split; [replace (P + 3 * Z.of_nat (S n)) with (P + 3 + 3 * Z.of_nat n)
                by lia; exact Hsrc' |].
      split; [congruence |].
      split; [rewrite <- Hcur1'; exact Hc' |].
      split; [exact Hw' |]. split; [exact Hh' |].
      split; [rewrite Hl'; apply length_insert |].
      split; [congruence |].
      replace (d_destidx st + Z.of_nat (S n)) with (cap + Z.of_nat n) by lia.
      rewrite Hq, Hm. rewrite Hcci', Hd', Hcci1, Hd1, Z.add_0_l.
      split; [lia | reflexivity].
    + (* room is left in this lap *)
      destruct (IH st1 (P + 3) c1) as
        (st' & c' & Hloop & Hsrc' & Hrows' & Hc' & Hw' & Hh' & Hl'
         & Hcur' & Hcci' & Hd');
        [exact Hsrc1 | lia | rewrite Hcur1'; exact Hc1
        | cbn [c1 c_buffer c_width c_height]; rewrite length_insert; exact Hlen
        | exact Hcap
        | cbn [c1 c_width c_height]; fold cap; rewrite Hd1; lia
        | rewrite Hcci1; lia
        | cbn [c1 c_width c_height]; fold cap; rewrite Hd1, Hcci1;
          replace (d_destidx st + 1 + Z.of_nat n)
            with (d_destidx st + Z.of_nat (S n)) by lia;
          exact Hu8 |].
      cbn [c1 c_width c_height c_buffer] in *. fold cap in Hcci', Hd'.
      exists st', c'.
      split; [exact Hloop |].
      split; [replace (P + 3 * Z.of_nat (S n)) with (P + 3 + 3 * Z.of_nat n)
                by lia; exact Hsrc' |].
      split; [congruence |].
      split; [rewrite <- Hcur1'; exact Hc' |].
      split; [exact Hw' |]. split; [exact Hh' |].
      split; [rewrite Hl'; apply length_insert |].
      split; [congruence |].
      rewrite Hcci', Hd', Hcci1, Hd1.
      replace (d_destidx st + 1 + Z.of_nat n)
        with (d_destidx st + Z.of_nat (S n)) by lia.
      split; reflexivity.
Qed.

(** C10 (as amended).  In the pixel loop, let the pixel about to be
    stored fill the last segment: the segment index is [NUM_CANVAS - 1],
    the current segment is that slot, its buffer has width times height
    cells, fewer than [2 ^ 32], and the write offset is its last cell.
    Let [n > 0] further pixels of the scanline remain, the read buffer
    being in step with the file ([src_ok]) and the bytes of these pixels
    lying inside the file, and let [n] divided by the segment's capacity
    be less than [256 - NUM_CANVAS], so that the 8-bit segment index does
    not wrap around.  Then writing does not stop: the [j]-th of the
    remaining pixels is stored in the buffer of the same, last segment at
    linear offset [j mod capacity], so from offset 0 on again and over
    what was stored there; no scanline is begun after this one; and the
    call returns [IMAGE_SUCCESS]. *)
Theorem last_segment_overflow hd rs data B P st c n m row :
  src_ok data B P (d_sdbuf st) (d_file st) (d_srcidx st) ->
  P + 3 * (1 + Z.of_nat n) <= Z.of_nat (length data) ->
  d_cci st = NUM_CANVAS - 1 ->
  d_cur st = Z.to_nat (d_cci st) ->
  canvas (d_img st) !! d_cur st = Some (Some c) ->
  Z.of_nat (length (c_buffer c)) = c_width c * c_height c ->
  c_width c * c_height c < 2 ^ 32 ->
  0 <= d_destidx st ->
  d_destidx st + 1 = c_width c * c_height c ->
  (0 < n)%nat ->
  Z.of_nat n / (c_width c * c_height c) < 2 ^ 8 - NUM_CANVAS ->
  let cap := c_width c * c_height c in
  (forall j, (j < n)%nat ->
     exists stj stj' cj,
       pixel_loop (S j) st = Some stj
       /\ pixel_body stj = Some stj'
       /\ d_cur stj = Z.to_nat (NUM_CANVAS - 1)
       /\ d_destidx stj = Z.of_nat j mod cap
       /\ canvas (d_img stj') !! Z.to_nat (NUM_CANVAS - 1) = Some (Some cj)
       /\ c_buffer cj !! Z.to_nat (Z.of_nat j mod cap)
          = Some (pix data (P + 3 * (1 + Z.of_nat j))))
  /\ exists st',
       pixel_loop (S n) st = Some st'
       /\ d_rows st' = d_rows st
       /\ rest_of_call hd rs (S n) m row st
          = Done IMAGE_SUCCESS (d_img st') (d_rows st).
Proof.
  intros Hsrc HP Hcci Hcur Hc Hlen Hcap Hd0 Hfull Hn Hlaps cap.
  fold cap in Hlen, Hcap, Hfull, Hlaps.
  assert (Hcap0 : 0 < cap) by lia.
  destruct (pixel_body_step data B P st c Hsrc ltac:(lia) Hc ltac:(lia)
              Hlen Hcap)
    as (st1 & Hstep & Hsrc1 & Himg1 & Hrows1 & Hd1 & Hcci1 & Hcur1).
  { fold cap. intros _ Hlt12. exfalso. rewrite Hcci in Hlt12.
    vm_compute in Hlt12. discriminate Hlt12. }
  fold cap in Hd1, Hcci1, Hcur1.
  replace (cap <=? d_destidx st + 1) with true in Hd1, Hcci1, Hcur1
    by (symmetry; apply Z.leb_le; lia).
  rewrite Hcci in Hcci1, Hcur1.
  change (to_uint8 (NUM_CANVAS - 1 + 1)) with NUM_CANVAS in Hcci1, Hcur1.
  rewrite Z.ltb_irrefl in Hcur1. cbn [andb] in Hcur1.
  set (c1 := mkCanvas (c_width c) (c_height c)
               (<[Z.to_nat (d_destidx st) := pix data P]> (c_buffer c))) in *.
  assert (Hc1 : canvas (d_img st1) !! d_cur st1 = Some (Some c1)).
  { rewrite Hcur1, Himg1. apply (set_canvas_lookup_eq _ _ _ _ Hc). }
  assert (Hlen1 : Z.of_nat (length (c_buffer c1)) = c_width c1 * c_height c1).
  { cbn [c1 c_buffer c_width c_height]. rewrite length_insert. exact Hlen. }
  assert (Hlast : d_cur st = Z.to_nat (NUM_CANVAS - 1)) by congruence.
  assert (Hpast : forall k, (k <= n)%nat ->
            exists st' c',
              pixel_loop k st1 = Some st'
              /\ src_ok data B (P + 3 + 3 * Z.of_nat k)
                        (d_sdbuf st') (d_file st') (d_srcidx st')
              /\ d_rows st' = d_rows st1
              /\ canvas (d_img st') !! d_cur st1 = Some (Some c')
              /\ c_width c' = c_width c1 /\ c_height c' = c_height c1
              /\ length (c_buffer c') = length (c_buffer c1)
              /\ d_cur st' = d_cur st1
              /\ d_cci st' = NUM_CANVAS + Z.of_nat k / cap
              /\ d_destidx st' = Z.of_nat k mod cap).
  { intros k Hk.
    assert (Z.of_nat k / cap <= Z.of_nat n / cap)
      by (apply Z.div_le_mono; lia).
    destruct (pixel_loop_past_last data B k st1 (P + 3) c1 Hsrc1
                ltac:(lia) Hc1 Hlen1 Hcap
                ltac:(cbn [c1 c_width c_height]; fold cap; lia)
                ltac:(lia))
      as (st' & c' & H1 & H2 & H3 & H4 & H5 & H6 & H7 & H8 & H9 & H10).
    { cbn [c1 c_width c_height]. fold cap. rewrite Hd1, Hcci1, Z.add_0_l.
      unfold NUM_CANVAS in *. lia. }
    cbn [c1 c_width c_height] in H9, H10. fold cap in H9, H10.
    rewrite Hd1, Z.add_0_l in H9, H10. rewrite Hcci1 in H9.
    exists st', c'. repeat (split; [assumption |]). assumption. }
  split.
  - intros j Hj.
    destruct (Hpast j ltac:(lia))
      as (stj & cj0 & H1 & H2 & H3 & H4 & H5 & H6 & H7 & H8 & H9 & H10).
    assert (Hmod : 0 <= Z.of_nat j mod cap < cap)
      by (apply Z.mod_pos_bound; lia).
    assert (Hshape : Z.of_nat (length (c_buffer cj0))
                     = c_width cj0 * c_height cj0).
    { rewrite H7, H5, H6. exact Hlen1. }
    assert (Hcapj : c_width cj0 * c_height cj0 = cap).
    { rewrite H5, H6. reflexivity. }
    rewrite <- H8 in H4.
    destruct (pixel_body_step data B (P + 3 + 3 * Z.of_nat j) stj cj0 H2
                ltac:(lia) H4 ltac:(rewrite Hshape, Hcapj, H10; lia)
                Hshape ltac:(rewrite Hcapj; exact Hcap))
      as (stj' & Hstepj & _ & Himgj & _).
    { rewrite Hcapj, H10, H9. intros Hfullj Hlt12. exfalso.
      apply Z.leb_le in Hfullj.
      assert (Z.of_nat j mod cap + 1 = cap) as Hend by lia.
      assert (Hnext : (Z.of_nat j + 1) / cap = Z.of_nat j / cap + 1).
      { rewrite (Z.div_mod (Z.of_nat j) cap) at 1 by lia.
        replace (cap * (Z.of_nat j / cap) + Z.of_nat j mod cap + 1)
          with (0 + (Z.of_nat j / cap + 1) * cap) by lia.
        rewrite Z.div_add by lia. rewrite Z.div_0_l by lia. lia. }
      assert ((Z.of_nat j + 1) / cap <= Z.of_nat n / cap)
        by (apply Z.div_le_mono; lia).
      assert (0 <= Z.of_nat j / cap) by (apply Z.div_pos; lia).
      rewrite to_uint8_id in Hlt12 by (unfold NUM_CANVAS in *; lia).
      lia. }
    exists stj, stj',
      (mkCanvas (c_width cj0) (c_height cj0)
         (<[Z.to_nat (d_destidx stj) := pix data (P + 3 + 3 * Z.of_nat j)]>
            (c_buffer cj0))).
    split; [cbn [pixel_loop]; rewrite Hstep; exact H1 |].
    split; [exact Hstepj |].
    split; [congruence |].
    split; [exact H10 |].
    split.
    { rewrite Himgj. replace (Z.to_nat (NUM_CANVAS - 1)) with (d_cur stj)
        by congruence.
      apply (set_canvas_lookup_eq _ _ _ _ H4). }
    cbn [c_buffer]. rewrite H10.
    replace (P + 3 * (1 + Z.of_nat j)) with (P + 3 + 3 * Z.of_nat j) by lia.
    apply list_lookup_insert_eq. lia.
  - destruct (Hpast n ltac:(lia))
      as (st' & c' & H1 & H2 & H3 & H4 & H5 & H6 & H7 & H8 & H9 & H10).
    assert (0 <= Z.of_nat n / cap) by (apply Z.div_pos; lia).
    exists st'.
    assert (Hloop : pixel_loop (S n) st = Some st')
      by (cbn [pixel_loop]; rewrite Hstep; exact H1).
    split; [exact Hloop |]. split; [congruence |].
    unfold rest_of_call. rewrite Hloop.
    rewrite row_loop_halted by lia.
    f_equal. congruence.
Qed.

Lemma last_segment_overflow_witness :
  let data := ["255"; "255"; "255"; "000"; "000"; "000";
               "255"; "255"; "255"; "255"; "000"; "000"]%byte in
  let hd := mkHeader 0 40 3 5 false 1 24 0 0 in
  let img := mkImage 2 1 (replicate 11 (Some (mkCanvas 2 1 [0; 0]))
                            ++ [Some (mkCanvas 2 1 [5; 6])]) IMAGE_16 in
  let st := mkState (mkFile data 0) (replicate 600 "000"%byte) SDBUF_SIZE
                    1 11 11%nat img [0] in
  (exists stj stj' cj,
      pixel_loop 3 st = Some stj
      /\ pixel_body stj = Some stj'
      /\ d_cur stj = 11%nat
      /\ d_destidx stj = 0
      /\ canvas (d_img stj') !! 11%nat = Some (Some cj)
      /\ c_buffer cj !! 0%nat = Some 31)
  /\ exists st',
       pixel_loop 4 st = Some st'
       /\ d_rows st' = [0]
       /\ rest_of_call hd 12 4 4 1 st = Done IMAGE_SUCCESS (d_img st') [0].
Proof.
  intros data hd img st.
  destruct (last_segment_overflow hd 12 data 0 0 st (mkCanvas 2 1 [5; 6])
              3 4 1) as [Hj Hend].
  - apply src_ok_start; [reflexivity | reflexivity | reflexivity |].
    vm_compute. split; discriminate.
  - vm_compute. discriminate.
  - reflexivity.
  - reflexivity.
  - reflexivity.
  - reflexivity.
  - reflexivity.
  - vm_compute. discriminate.
  - reflexivity.
  - lia.
  - reflexivity.
  - split; [| exact Hend].
    exact (Hj 2%nat ltac:(lia)).
Defined.

(** C10, as stated, fails on rows long enough for the 8-bit segment index
    to wrap: in a top-down image of one row of 65537 pixels the segments
    are 1 wide, the index passes the last segment at pixel 221 of the
    row, and pixel 61212 of the row, the only white one, is stored in
    segment 0, not in the last segment. *)
Lemma overflow_wraps_segment_index :
  let pixels := replicate (Z.to_nat (3 * 61212)) "000"%byte
                  ++ replicate 3 "255"%byte
                  ++ replicate (Z.to_nat (196612 - 3 * 61213)) "000"%byte in
  let data := bmp_file 65537 (-1) 1 24 0 pixels in
  let o := loadBMP (one_file "w.bmp" data) (fun _ => true) [] "w.bmp"
                   (SPIFFS_Image_new 0 0) in
  outcome_status o = Some IMAGE_SUCCESS
  /\ outcome_rows o = Some [54]
  /\ shapes <$> outcome_image o
     = Some (Some (1, 1, 1%nat) :: replicate 11 (Some (1, 20, 20%nat)))
  /\ pix data (src_offset (header_of data) 0 61212) = 65535
  /\ (fun img => pixel_at img 0 0) <$> outcome_image o = Some (Some 65535)
  /\ (fun img => pixel_at img 220 0) <$> outcome_image o = Some (Some 0).
Proof. vm_compute. repeat split. Qed.

(** The overflow in a call: a top-down image of two rows of 65549 pixels
    has segments 13 wide, with room for 2886 pixels in all.  The first
    row passes the last segment; of its remaining 62663 pixels the last
    three are stored at offsets 0, 1 and 2 of the last segment (the white
    one, pixel 65546 of the row, at offset 0); the second row is not
    begun, and the call returns [IMAGE_SUCCESS]. *)
Example overflow_in_a_call :
  let pixels := replicate (Z.to_nat (3 * 65546)) "000"%byte
                  ++ replicate 3 "255"%byte
                  ++ replicate (Z.to_nat (2 * 196648 - 3 * 65547)) "000"%byte in
  let data := bmp_file 65549 (-2) 1 24 0 pixels in
  let o := loadBMP (one_file "v.bmp" data) (fun _ => true) [] "v.bmp"
                   (SPIFFS_Image_new 0 0) in
  row_size 24 65549 = 196648
  /\ outcome_status o = Some IMAGE_SUCCESS
  /\ outcome_rows o = Some [54]
  /\ shapes <$> outcome_image o
     = Some (Some (13, 2, 26%nat) :: replicate 11 (Some (13, 20, 260%nat)))
  /\ (65546 - 2886) mod 260 = 0
  /\ pix data (src_offset (header_of data) 0 65546) = 65535
  /\ (fun img => pixel_at img 220 0) <$> outcome_image o = Some (Some 65535)
  /\ (fun img => pixel_at img 220 3) <$> outcome_image o = Some (Some 0).
Proof. vm_compute. repeat split. Qed.
